(** * Argo-Blog-Static: the summary extraction and visualisation pipeline

    A shallow embedding of
      - [yt/import_summaries.py]   ([parse_markdown_summary], [main]),
      - [yt/record_video.py]       ([validate_summary], [main]),
      - [scripts/generate_viz.py]  ([generate_mindmap], [extract_stats],
                                    [detect_comparison], [generate_viz_data],
                                    [main]),
      - [import_history.py]        ([get_video_metadata], [main]),
    together with the parts of the Python runtime these functions rely on:
    [str] as a sequence of Unicode code points, the backtracking semantics of
    the [re] module for the constructs the patterns use, and the values that
    [json.load] produces. *)

From Stdlib Require Import String Ascii.
From Stdlib Require Import List NArith ZArith Bool Arith Lia.
Import ListNotations.

Set Implicit Arguments.

(* ===================================================================== *)
(** ** Python [str]: sequences of code points *)
(* ===================================================================== *)

Module PyStr.

Definition str := list N.

(** UTF-8 decoding of a literal of this file into code points.  Only used to
    write the source's literals legibly. *)
Fixpoint decode (bs : list N) (need : nat) (acc : N) : str :=
  match bs with
  | [] => []
  | b :: bs' =>
      match need with
      | O =>
          if (b <? 128)%N then b :: decode bs' 0 0%N
          else if (b <? 224)%N then decode bs' 1 (b - 192)%N
          else if (b <? 240)%N then decode bs' 2 (b - 224)%N
          else decode bs' 3 (b - 240)%N
      | S O => (acc * 64 + (b - 128))%N :: decode bs' 0 0%N
      | S n => decode bs' n (acc * 64 + (b - 128))%N
      end
  end.

Definition u (s : string) : str :=
  decode (map N_of_ascii (list_ascii_of_string s)) 0 0%N.

Fixpoint eqb (a b : str) : bool :=
  match a, b with
  | [], [] => true
  | x :: a', y :: b' => (x =? y)%N && eqb a' b'
  | _, _ => false
  end.

Definition mem (c : N) (cs : list N) : bool := existsb (N.eqb c) cs.

(** [str.isspace] on one character; also the class [\s] of [re] on [str]
    patterns. *)
Definition is_space (c : N) : bool :=
  ((9 <=? c) && (c <=? 13) || (28 <=? c) && (c <=? 32)
   || (c =? 133) || (c =? 160) || (c =? 5760)
   || (8192 <=? c) && (c <=? 8202)
   || (c =? 8232) || (c =? 8233) || (c =? 8239) || (c =? 8287)
   || (c =? 12288))%N.

(** The code points of the digit zero of every decimal script (general
    category Nd, Unicode 14): each is followed by its digits one to nine. *)
Definition digit_zeros : list N :=
  [48; 1632; 1776; 1984; 2406; 2534; 2662; 2790; 2918; 3046; 3174; 3302;
   3430; 3558; 3664; 3792; 3872; 4160; 4240; 6112; 6160; 6470; 6608; 6784;
   6800; 6992; 7088; 7232; 7248; 42528; 43216; 43264; 43472; 43504; 43600;
   44016; 65296; 66720; 68912; 69734; 69872; 69942; 70096; 70384; 70736;
   70864; 71248; 71360; 71472; 71904; 72016; 72784; 73040; 73120; 92768;
   92864; 93008; 120782; 120792; 120802; 120812; 120822; 123200; 123632;
   125264; 130032]%N.

(** The class [\d] of [re] on [str] patterns. *)
Definition is_digit (c : N) : bool :=
  existsb (fun z => (z <=? c) && (c <? z + 10))%N digit_zeros.

(** The value of a decimal digit. *)
Definition digit_val (c : N) : N :=
  match find (fun z => (z <=? c) && (c <? z + 10))%N digit_zeros with
  | Some z => (c - z)%N
  | None => 0%N
  end.

(** [int(s)] for a string of decimal digits.  The limit that recent
    interpreters put on the number of digits they convert (4300 unless it is
    configured otherwise) is not modelled. *)
Definition int_of_digits (s : str) : Z :=
  Z.of_N (fold_left (fun acc c => acc * 10 + digit_val c)%N s 0%N).

Fixpoint dropwhile (p : N -> bool) (s : str) : str :=
  match s with
  | [] => []
  | c :: s' => if p c then dropwhile p s' else s
  end.

Definition lstrip_by (p : N -> bool) (s : str) : str := dropwhile p s.
Definition rstrip_by (p : N -> bool) (s : str) : str :=
  rev (dropwhile p (rev s)).
Definition strip_by (p : N -> bool) (s : str) : str :=
  rstrip_by p (lstrip_by p s).

(** [s.strip()] *)
Definition strip (s : str) : str := strip_by is_space s.
(** [s.strip(chars)] *)
Definition strip_chars (chars : str) (s : str) : str :=
  strip_by (fun c => mem c chars) s.

(** [s.startswith(p)] *)
Fixpoint startswith (p s : str) : bool :=
  match p, s with
  | [], _ => true
  | x :: p', y :: s' => (x =? y)%N && startswith p' s'
  | _ :: _, [] => false
  end.

(** [s.startswith((p1, ..., pn))] *)
Definition startswith_any (ps : list str) (s : str) : bool :=
  existsb (fun p => startswith p s) ps.

(** [kw in s] *)
Fixpoint contains (kw s : str) : bool :=
  startswith kw s ||
  match s with
  | [] => false
  | _ :: s' => contains kw s'
  end.

(** [s.split(sep)] for a separator of one character *)
Fixpoint split (sep : N) (s : str) : list str :=
  match s with
  | [] => [[]]
  | c :: s' =>
      if (c =? sep)%N then [] :: split sep s'
      else match split sep s' with
           | l :: ls => (c :: l) :: ls
           | [] => [[c]]
           end
  end.

(** [sep.join(parts)] *)
Fixpoint join (sep : str) (parts : list str) : str :=
  match parts with
  | [] => []
  | [p] => p
  | p :: ps => p ++ sep ++ join sep ps
  end.

End PyStr.

Import PyStr.

(* ===================================================================== *)
(** ** The [re] module: backtracking matching *)
(* ===================================================================== *)

Module Re.

(** The constructs that occur in the patterns of the repository.  A
    character test stands for a literal, a class, [.] or an escape such as
    [\s]; the flags IGNORECASE and DOTALL are resolved into the tests when a
    pattern is written down. *)
Inductive regex : Type :=
| Eps
| Chr (p : N -> bool)
| Seq (r1 r2 : regex)
| Alt (r1 r2 : regex)
| Opt (r : regex)                    (* r?            *)
| Star (greedy : bool) (r : regex)   (* r*  and  r*?  *)
| Grp (n : nat) (r : regex)          (* capturing group number n *)
| Bos                                (* ^  (no MULTILINE) *)
| Eol                                (* $  (no MULTILINE) *)
| Eos                                (* \Z *)
| Ahead (r : regex).                 (* (?=r) *)

(** r+ and r+? *)
Definition Plus (greedy : bool) (r : regex) : regex := Seq r (Star greedy r).

(** A matching configuration: the position in the subject, the text from
    there on, and the groups captured so far. *)
Record cfg : Type := Cfg { pos : nat; rest : str; caps : list (nat * str) }.

Definition set_cap (n : nat) (s : str) (c : cfg) : cfg :=
  Cfg (pos c) (rest c) ((n, s) :: caps c).

(** Iteration of a body matcher.  An iteration that consumes nothing is not
    repeated.  The results are listed in the order in which the
    backtracking engine tries them. *)
Fixpoint star_with (body : cfg -> list cfg) (greedy : bool)
         (fuel : nat) (c : cfg) : list cfg :=
  match fuel with
  | O => [c]
  | S f =>
      let more :=
        flat_map (fun c' => if pos c <? pos c' then star_with body greedy f c'
                            else [])
                 (body c) in
      if greedy then more ++ [c] else c :: more
  end.

(** All the ways [r] matches at configuration [c], in preference order. *)
Fixpoint m (r : regex) (c : cfg) : list cfg :=
  match r with
  | Eps => [c]
  | Chr p =>
      match rest c with
      | x :: s => if p x then [Cfg (S (pos c)) s (caps c)] else []
      | [] => []
      end
  | Seq r1 r2 => flat_map (m r2) (m r1 c)
  | Alt r1 r2 => m r1 c ++ m r2 c
  | Opt r1 => m r1 c ++ [c]
  | Star g r1 => star_with (m r1) g (S (length (rest c))) c
  | Grp n r1 =>
      map (fun c' => set_cap n (firstn (pos c' - pos c) (rest c)) c')
          (m r1 c)
  | Bos => if pos c =? 0 then [c] else []
  | Eol =>
      match rest c with
      | [] => [c]
      | [x] => if (x =? 10)%N then [c] else []
      | _ => []
      end
  | Eos => match rest c with [] => [c] | _ => [] end
  | Ahead r1 => match m r1 c with [] => [] | _ :: _ => [c] end
  end.

(** A match object: where it starts and the final configuration. *)
Record mtch : Type := Mtch { m_start : nat; m_end : cfg }.

(** [m.group(n)] for a group that took part in the match. *)
Fixpoint assoc (n : nat) (l : list (nat * str)) : str :=
  match l with
  | [] => []
  | (k, s) :: l' => if k =? n then s else assoc n l'
  end.

Definition group (n : nat) (x : mtch) : str := assoc n (caps (m_end x)).

(** The first match at or after the current position. *)
Fixpoint search_from (r : regex) (p : nat) (s : str) : option mtch :=
  match m r (Cfg p s []) with
  | c :: _ => Some (Mtch p c)
  | [] =>
      match s with
      | [] => None
      | _ :: s' => search_from r (S p) s'
      end
  end.

(** [re.search(r, s)] *)
Definition search (r : regex) (s : str) : option mtch := search_from r 0 s.

(** The successive non-overlapping matches, left to right.  [skip] counts
    the characters still covered by the previous match. *)
Fixpoint finditer_from (r : regex) (p : nat) (s : str) (skip : nat)
  : list mtch :=
  match skip with
  | S k =>
      match s with
      | [] => []
      | _ :: s' => finditer_from r (S p) s' k
      end
  | O =>
      match m r (Cfg p s []) with
      | c :: _ =>
          Mtch p c ::
          match s with
          | [] => []
          | _ :: s' => finditer_from r (S p) s' (pos c - p - 1)
          end
      | [] =>
          match s with
          | [] => []
          | _ :: s' => finditer_from r (S p) s' 0
          end
      end
  end.

(** [re.findall(r, s)] for a pattern with exactly one group. *)
Definition findall (r : regex) (s : str) : list str :=
  map (group 1) (finditer_from r 0 s 0).

(** [re.sub(r, repl, s)] for a replacement without group references. *)
Fixpoint sub_from (r : regex) (repl : str) (p : nat) (s : str) (skip : nat)
  : str :=
  match skip with
  | S k =>
      match s with
      | [] => []
      | _ :: s' => sub_from r repl (S p) s' k
      end
  | O =>
      match m r (Cfg p s []) with
      | c :: _ =>
          repl ++
          match s with
          | [] => []
          | x :: s' =>
              if pos c =? p then x :: sub_from r repl (S p) s' 0
              else sub_from r repl (S p) s' (pos c - p - 1)
          end
      | [] =>
          match s with
          | [] => []
          | x :: s' => x :: sub_from r repl (S p) s' 0
          end
      end
  end.

Definition sub (r : regex) (repl : str) (s : str) : str :=
  sub_from r repl 0 s 0.

(** *** Character tests *)

Definition lit (c : N) : regex := Chr (N.eqb c).
Definition any : regex := Chr (fun _ => true).   (* any character *)
Definition dot : regex := Chr (fun c => negb (c =? 10)%N).    (* any but newline *)
Definition ws : regex := Chr is_space.                        (* whitespace *)
Definition digit : regex := Chr is_digit.                     (* decimal digit *)
Definition cls (cs : str) : regex := Chr (fun c => mem c cs).
Definition ncls (cs : str) : regex := Chr (fun c => negb (mem c cs)).

(** A literal under IGNORECASE.  For an ASCII letter the engine accepts both
    cases and the characters whose case folding meets them: dotted capital I
    and dotless i for [i], long s for [s], the Kelvin sign for [k]. *)
Definition is_upper (c : N) : bool := ((65 <=? c) && (c <=? 90))%N.
Definition is_lower (c : N) : bool := ((97 <=? c) && (c <=? 122))%N.
Definition to_lower (c : N) : N := if is_upper c then (c + 32)%N else c.

Definition ci_eqb (a x : N) : bool :=
  let l := to_lower a in
  if is_lower l then
    (x =? l)%N || (x =? l - 32)%N
    || (l =? 105)%N && ((x =? 304)%N || (x =? 305)%N)
    || (l =? 115)%N && (x =? 383)%N
    || (l =? 107)%N && (x =? 8490)%N
  else (x =? a)%N.

Definition lit_i (c : N) : regex := Chr (ci_eqb c).

Fixpoint seq_of (rs : list regex) : regex :=
  match rs with
  | [] => Eps
  | [r] => r
  | r :: rs' => Seq r (seq_of rs')
  end.

(** A literal string, case-sensitive and under IGNORECASE. *)
Definition word (s : str) : regex := seq_of (map lit s).
Definition word_i (s : str) : regex := seq_of (map lit_i s).

End Re.

Import Re.

(* ===================================================================== *)
(** ** The values of [json.load] *)
(* ===================================================================== *)

Module Json.

(** A dict is kept as the list of its items in insertion order.  A float
    is [m * 2^e]; no operation of the pipeline looks at more than its type
    and whether it is zero. *)
#[warnings="-register-all"]
Inductive json : Type :=
| JNull
| JBool (b : bool)
| JInt (z : Z)
| JFloat (mant : Z) (exp : Z)
| JStr (s : str)
| JList (l : list json)
| JDict (d : list (str * json)).

Definition dict := list (str * json).

(** [d.get(k)], with [None] of Rocq for Python's [None] *)
Fixpoint get (k : str) (d : dict) : option json :=
  match d with
  | [] => None
  | (k', v) :: d' => if PyStr.eqb k' k then Some v else get k d'
  end.

(** [d.get(k, dflt)] *)
Definition get_default (k : str) (dflt : json) (d : dict) : json :=
  match get k d with Some v => v | None => dflt end.

(** [k in d] *)
Definition has (k : str) (d : dict) : bool :=
  match get k d with Some _ => true | None => false end.

(** [d[k] = v]: an existing key keeps its place, a new one goes last. *)
Fixpoint set (k : str) (v : json) (d : dict) : dict :=
  match d with
  | [] => [(k, v)]
  | (k', v') :: d' =>
      if PyStr.eqb k' k then (k', v) :: d' else (k', v') :: set k v d'
  end.

(** [d.update(other)] *)
Definition update (d other : dict) : dict :=
  fold_left (fun acc kv => set (fst kv) (snd kv) acc) other d.

(** [bool(x)] *)
Definition truthy (x : json) : bool :=
  match x with
  | JNull => false
  | JBool b => b
  | JInt z => negb (z =? 0)%Z
  | JFloat mant _ => negb (mant =? 0)%Z
  | JStr s => negb (Nat.eqb (List.length s) 0)
  | JList l => negb (Nat.eqb (List.length l) 0)
  | JDict d => negb (Nat.eqb (List.length d) 0)
  end.

(** [bool(d.get(k))] *)
Definition truthy_at (k : str) (d : dict) : bool :=
  match get k d with Some v => truthy v | None => false end.

(** [len(x)]; [None] when [x] has no length (TypeError). *)
Definition py_len (x : json) : option nat :=
  match x with
  | JStr s => Some (List.length s)
  | JList l => Some (List.length l)
  | JDict d => Some (List.length d)
  | _ => None
  end.

(** The items a [for] loop or a comprehension sees; [None] when [x] is not
    iterable (TypeError). *)
Definition iterate (x : json) : option (list json) :=
  match x with
  | JList l => Some l
  | JStr s => Some (map (fun c => JStr [c]) s)
  | JDict d => Some (map (fun kv => JStr (fst kv)) d)
  | _ => None
  end.

(** [x[:n]]; [None] when [x] cannot be sliced. *)
Definition slice_to (n : nat) (x : json) : option json :=
  match x with
  | JList l => Some (JList (firstn n l))
  | JStr s => Some (JStr (firstn n s))
  | _ => None
  end.

(** [type(x).__name__] *)
Definition type_name (x : json) : str :=
  match x with
  | JNull => u "NoneType"
  | JBool _ => u "bool"
  | JInt _ => u "int"
  | JFloat _ _ => u "float"
  | JStr _ => u "str"
  | JList _ => u "list"
  | JDict _ => u "dict"
  end.

(** Sequencing of computations that may raise. *)
Definition bind {A B : Type} (x : option A) (f : A -> option B) : option B :=
  match x with Some a => f a | None => None end.

Fixpoint mapM {A B : Type} (f : A -> option B) (l : list A)
  : option (list B) :=
  match l with
  | [] => Some []
  | a :: l' =>
      bind (f a) (fun b => bind (mapM f l') (fun bs => Some (b :: bs)))
  end.

End Json.

Import Json.

Notation "x <- e ;; k" := (Json.bind e (fun x => k))
  (at level 61, e at next level, right associativity).

(** [l[a:b]] on a list, for [0 <= a] and [0 <= b]. *)
Definition slice {A : Type} (a b : nat) (l : list A) : list A :=
  skipn a (firstn b l).

(* ===================================================================== *)
(** ** yt/import_summaries.py *)
(* ===================================================================== *)

Module ImportSummaries.

Definition nl : regex := lit 10.

(** The patterns, element by element.  In the comments a pattern fragment
    is spaced out where its text would otherwise close the comment. *)

(** The SUMMARY pattern of [parse_markdown_summary], compiled with
    IGNORECASE and DOTALL. *)
Definition re_tldr : regex :=
  seq_of
    [ Alt Bos nl;                                   (* (?:^|\n)        *)
      Alt (seq_of [ Opt (lit 62);                   (* (?: >?          *)
                    Star true ws;                   (*     \s*         *)
                    Opt (lit 42); Opt (lit 42);     (*     \*?\*?      *)
                    word_i (u "SUMMARY");           (*     SUMMARY     *)
                    Opt (lit 42); Opt (lit 42) ])   (*     \*?\*?      *)
          (word_i (u "# SUMMARY"));                 (*   | # SUMMARY ) *)
      Star true ws;                                 (* \s*             *)
      Plus true nl;                                 (* \n+             *)
      Opt (lit 62);                                 (* >?              *)
      Star true ws;                                 (* \s*             *)
      Grp 1 (Plus false any);                       (* (.+?)           *)
      Ahead (Alt (Seq nl nl) (Seq nl (lit 35))) ].  (* (?=\n\n|\n#)    *)

(** [:\s] *)
Definition colon_or_space : regex :=
  Chr (fun c => (c =? 58)%N || is_space c).

(** The pattern of a list section, compiled with IGNORECASE; [emoji] is the
    optional decoration and [name] the keyword of the heading. *)
Definition re_section (emoji name : str) : regex :=
  seq_of
    [ lit 35;                                       (* #               *)
      Star true ws;                                 (* \s*             *)
      Opt (Seq (word_i emoji) (Star true ws));      (* (?: emoji \s* )? *)
      word_i name;                                  (* NAME            *)
      Star true colon_or_space;                     (* [:\s]*          *)
      Plus true nl;                                 (* \n+             *)
      Grp 1 (Plus false any);                       (* ([\s\S]+?)      *)
      Ahead (Alt (Seq nl (lit 35)) Eos) ].          (* (?=\n#|\Z)      *)

Definition re_ideas : regex := re_section (u "💡") (u "IDEAS").
Definition re_insights : regex := re_section (u "🧠") (u "INSIGHTS").
Definition re_quotes : regex := re_section (u "🗣️") (u "QUOTES").
Definition re_facts : regex := re_section (u "🧪") (u "FACTS").

(** The TAKEAWAY pattern, compiled with IGNORECASE. *)
Definition re_takeaway : regex :=
  seq_of
    [ lit 35;                                       (* #               *)
      Star true ws;                                 (* \s*             *)
      Opt (Seq (word_i (u "🚀")) (Star true ws));   (* (?: 🚀 \s* )?   *)
      Opt (seq_of [ word_i (u "ONE");               (* (?: ONE         *)
                    cls (u "- ");                   (*     [- ]        *)
                    word_i (u "SENTENCE");          (*     SENTENCE    *)
                    Star true ws ]);                (*     \s* )?      *)
      word_i (u "TAKEAWAY");                        (* TAKEAWAY        *)
      Star true colon_or_space;                     (* [:\s]*          *)
      Plus true nl;                                 (* \n+             *)
      Grp 1 (Plus false dot);                       (* (.+?)           *)
      Ahead (Alt (Seq nl (lit 35))
                 (Alt (Seq nl nl) Eos)) ].          (* (?=\n#|\n\n|\Z) *)

(** The bullet marker at the start of a line and the blanks after it. *)
Definition re_bullet : regex :=
  seq_of [ Bos;                                     (* ^               *)
           cls (u "-*•");                           (* [-*•]           *)
           Star true ws ].                          (* \s*             *)

(** The inline timestamp that [idea_of_line] looks for. *)
Definition re_ts : regex :=
  seq_of [ lit 91; Opt (lit 91);                    (* \[\[?           *)
           Grp 1 (Plus true digit);                 (* (\d+)           *)
           lit 58;                                  (* :               *)
           Grp 2 (Plus true digit);                 (* (\d+)           *)
           Opt (lit 93); lit 93 ].                  (* \]?\]           *)

(** The timestamp with its link, which the cleanup removes. *)
Definition re_ts_link : regex :=
  seq_of [ Star true ws;                            (* \s*             *)
           lit 91; Opt (lit 91);                    (* \[\[?           *)
           Plus true digit; lit 58; Plus true digit; (* \d+:\d+        *)
           Opt (lit 93); lit 93;                    (* \]?\]           *)
           lit 40;                                  (* \(              *)
           Plus true (ncls (u ")"));                (* [^)]+           *)
           lit 41 ].                                (* \)              *)

(** The speaker attribution at the end of a quote. *)
Definition re_speaker : regex :=
  seq_of [ Star true ws; lit 45; Star true ws;      (* \s*-\s*         *)
           word (u "Speaker");                      (* Speaker         *)
           Star true dot; Eol ].                    (* .*$             *)

(** The bracketed timestamp at the end of a quote. *)
Definition re_quote_ts : regex :=
  seq_of [ Star true ws;                            (* \s*             *)
           lit 91; Plus true digit; lit 58;
           Plus true digit; lit 93;                 (* \[\d+:\d+\]     *)
           Star true dot; Eol ].                    (* .*$             *)

(** The test of a bullet line: it starts with one of the three markers. *)
Definition is_bullet (line : str) : bool :=
  startswith_any [u "-"; u "*"; u "•"] line.

(** What the loop over the lines of the IDEAS section appends for a bullet
    line whose marker was removed: the timestamp is looked for, and the
    text is cleaned when there is one. *)
Definition idea_of_text (text : str) : list json :=
  match search re_ts text with
  | Some ts_match =>
      let mins := int_of_digits (group 1 ts_match) in
      let secs := int_of_digits (group 2 ts_match) in
      let timestamp := (mins * 60 + secs)%Z in
      let text := strip (sub re_ts_link [] text) in
      [JDict [(u "text", JStr text); (u "timestamp", JInt timestamp)]]
  | None =>
      [JDict [(u "text", JStr text); (u "timestamp", JNull)]]
  end.

(** The body of the loop over the lines of the IDEAS section: the items the
    line appends to [ideas]. *)
Definition idea_of_line (line0 : str) : list json :=
  let line := strip line0 in
  if is_bullet line then idea_of_text (sub re_bullet [] line) else [].

(** The same for INSIGHTS. *)
Definition insight_of_line (line0 : str) : list json :=
  let line := strip line0 in
  if is_bullet line then
    let text := sub re_bullet [] line in
    let text := strip (sub re_ts_link [] text) in
    if truthy (JStr text) then [JStr text] else []
  else [].

(** The same for QUOTES. *)
Definition quote_of_line (line0 : str) : list json :=
  let line := strip line0 in
  if is_bullet line then
    let text := sub re_bullet [] line in
    let text := sub re_speaker [] text in
    let text := sub re_quote_ts [] text in
    let text := strip_chars [34; 39]%N text in
    if truthy (JStr text) then [JStr text] else []
  else [].

(** The same for FACTS. *)
Definition fact_of_line (line0 : str) : list json :=
  let line := strip line0 in
  if is_bullet line then
    let text := strip (sub re_bullet [] line) in
    if truthy (JStr text) then [JStr text] else []
  else [].

(** The lines a section loop runs over: [match.group(1).strip().split('\n')] *)
Definition section_lines (x : mtch) : list str :=
  split 10 (strip (group 1 x)).

(** One list section: the items before the cap is applied. *)
Definition section_items (r : regex) (of_line : str -> list json)
           (content : str) : option (list json) :=
  match search r content with
  | Some x => Some (flat_map of_line (section_lines x))
  | None => None
  end.

(** [summary[key] = items[:cap]] when the section was found. *)
Definition put_section (key : str) (cap : nat) (items : option (list json))
           (summary : dict) : dict :=
  match items with
  | Some l => set key (JList (firstn cap l)) summary
  | None => summary
  end.

Definition put_tldr (content : str) (summary : dict) : dict :=
  match search re_tldr content with
  | Some tldr_match =>
      set (u "tldr")
          (JStr (strip_chars (u ">") (strip (group 1 tldr_match)))) summary
  | None => summary
  end.

Definition put_takeaway (content : str) (summary : dict) : dict :=
  match search re_takeaway content with
  | Some takeaway_match =>
      set (u "takeaway") (JStr (strip (group 1 takeaway_match))) summary
  | None => summary
  end.

Definition parse_markdown_summary (content video_id : str) : dict :=
  let summary := [(u "videoId", JStr video_id)] in
  let summary := put_tldr content summary in
  let summary :=
    put_section (u "ideas") 15
                (section_items re_ideas idea_of_line content) summary in
  let summary :=
    put_section (u "insights") 10
                (section_items re_insights insight_of_line content) summary in
  let summary :=
    put_section (u "quotes") 5
                (section_items re_quotes quote_of_line content) summary in
  let summary :=
    put_section (u "facts") 8
                (section_items re_facts fact_of_line content) summary in
  put_takeaway content summary.

(** An entry of the summary directory, as the loop of [main] sees it: a
    file [stem.md] with its text, a directory with the text of its
    [summary.txt] when there is one, or anything else. *)
Inductive item : Type :=
| MdFile (stem : str) (text : str)
| Dir (name : str) (summary_txt : option str)
| Other.

(** [video_id] and [content] after the first [if] of the loop body. *)
Definition item_source (it : item) : option str * option str :=
  match it with
  | MdFile stem text => (Some (hd [] (split 95 stem)), Some text)
  | Dir name txt => (Some name, txt)
  | Other => (None, None)
  end.

Definition truthy_opt (x : option str) : bool :=
  match x with Some s => truthy (JStr s) | None => false end.

(** A key a dict accepts. *)
Definition hashable (x : json) : bool :=
  match x with JList _ | JDict _ => false | _ => true end.

(** [{v["id"]: i for i, v in enumerate(videos)}].  Only the string keys are
    kept: [main] looks up strings, which equal no key of another type. *)
Fixpoint build_video_map (i : nat) (videos : list json) (acc : dict)
  : option dict :=
  match videos with
  | [] => Some acc
  | v :: videos' =>
      match v with
      | JDict d =>
          k <- get (u "id") d ;;
          if hashable k then
            build_video_map (S i) videos'
              (match k with
               | JStr s => set s (JInt (Z.of_nat i)) acc
               | _ => acc
               end)
          else None
      | _ => None
      end
  end.

(** [l[i] = v] for an index in range *)
Fixpoint list_set {A : Type} (i : nat) (v : A) (l : list A) : list A :=
  match l, i with
  | [], _ => []
  | _ :: l', O => v :: l'
  | x :: l', S i' => x :: list_set i' v l'
  end.

(** One turn of the loop of [main] over the directory: the videos after
    it, or [None] when it raises. *)
Definition process_item (video_map : dict) (videos : option (list json))
           (it : item) : option (list json) :=
  videos <- videos ;;
  match item_source it with
  | (Some video_id, Some content) =>
      if truthy (JStr video_id) && truthy (JStr content) then
        match get video_id video_map with
        | Some (JInt z) =>
            let idx := Z.to_nat z in
            match nth_error videos idx with
            | Some (JDict video) =>
                if negb (has (u "summary") video)
                   || negb (truthy_at (u "summary") video)
                then
                  let summary := parse_markdown_summary content video_id in
                  if truthy_at (u "ideas") summary
                     || truthy_at (u "insights") summary
                  then
                    let video :=
                      set (u "summary") (JDict summary) video in
                    n <- py_len (get_default (u "ideas") (JList []) summary) ;;
                    let video :=
                      set (u "insights_count") (JInt (Z.of_nat n)) video in
                    title <- get (u "title") video ;;
                    _ <- slice_to 40 title ;;
                    Some (list_set idx (JDict video) videos)
                  else Some videos
                else Some videos
            | _ => None
            end
        | _ => Some videos
        end
      else Some videos
  | _ => Some videos
  end.

(** [main]: from the data read from the store and the entries of the
    summary directory to the data written back; [None] when an exception
    ends the run before anything is written. *)
Definition main (data : json) (items : list item) : option json :=
  match data with
  | JDict top =>
      vs <- get (u "videos") top ;;
      videos <- iterate vs ;;
      video_map <- build_video_map 0 videos [] ;;
      videos' <- fold_left (process_item video_map) items (Some videos) ;;
      match vs with
      | JList _ => Some (JDict (set (u "videos") (JList videos') top))
      | _ => Some data
      end
  | _ => None
  end.

(** The store after a run. *)
Definition store_after (data : json) (items : list item) : json :=
  match main data items with Some data' => data' | None => data end.

End ImportSummaries.

(* ===================================================================== *)
(** ** yt/record_video.py *)
(* ===================================================================== *)

Module RecordVideo.

Definition REQUIRED_SUMMARY_FIELDS : list str :=
  [u "tldr"; u "ideas"; u "insights"].

Definition metadata_fields : list str :=
  [u "status"; u "video_id"; u "title"; u "channel"; u "duration";
   u "views"; u "likes"].

Definition mem_str (k : str) (ks : list str) : bool :=
  existsb (PyStr.eqb k) ks.

(** The [ValueError]s of [validate_summary], by what their message says:
    "Summary must be a dict, got T", "Summary missing required fields: S"
    (S a set, kept here in the order of the required fields), "tldr must be
    a non-empty string", "ideas must be a list", "insights must be a
    list". *)
Inductive ValueError : Type :=
| MustBeDict (got : str)
| MissingFields (missing : list str)
| TldrNotNonEmptyString
| IdeasNotList
| InsightsNotList.

(** A line printed to standard error. *)
Definition warn_flattened (video_id : str) : str :=
  u "[WARN] Flattened nested summary structure for " ++ video_id.

(** The block of [validate_summary] that handles a nested summary: the
    summary the checks go on with, and the lines printed to standard
    error. *)
Definition flatten_nested (summary : dict) (video_id : str)
  : dict * list str :=
  match get (u "summary") summary with
  | Some (JDict inner) =>
      if existsb (fun field => has field inner) REQUIRED_SUMMARY_FIELDS then
        let result := filter (fun kv => mem_str (fst kv) metadata_fields)
                             summary in
        let result := update result inner in
        (result, [warn_flattened video_id])
      else (summary, [])
  | _ => (summary, [])
  end.

Definition is_str (x : option json) : bool :=
  match x with Some (JStr _) => true | _ => false end.
Definition is_list (x : option json) : bool :=
  match x with Some (JList _) => true | _ => false end.

(** [not summary["tldr"].strip()] for a [tldr] that is a string *)
Definition blank_tldr (x : option json) : bool :=
  match x with
  | Some (JStr s) => negb (truthy (JStr (strip s)))
  | _ => true
  end.

(** The checks after the nested summary was handled. *)
Definition check_summary (summary : dict) (video_id : str)
  : ValueError + dict :=
  let missing :=
    filter (fun f => negb (has f summary)) REQUIRED_SUMMARY_FIELDS in
  match missing with
  | _ :: _ => inl (MissingFields missing)
  | [] =>
  if negb (is_str (get (u "tldr") summary))
          || blank_tldr (get (u "tldr") summary)
  then inl TldrNotNonEmptyString
  else if negb (is_list (get (u "ideas") summary)) then inl IdeasNotList
  else if negb (is_list (get (u "insights") summary))
  then inl InsightsNotList
  else inr (set (u "videoId") (JStr video_id) summary)
  end.

(** [validate_summary]: what it raises or returns, and what it printed to
    standard error before. *)
Definition validate_summary (summary : json) (video_id : str)
  : (ValueError + dict) * list str :=
  match summary with
  | JDict d =>
      let (d', warnings) := flatten_nested d video_id in
      (check_summary d' video_id, warnings)
  | _ => (inl (MustBeDict (type_name summary)), [])
  end.

(** What the option [--summary] names, as the block of [main] that loads
    the summary finds it: a file that cannot be opened ([open] raises an
    [OSError]), a text that is not JSON ([json.load] raises a
    [JSONDecodeError], or, for bytes that are not UTF-8, another
    [ValueError]), or the value read.  The standard input, named [-], is
    never of the first kind. *)
Inductive summary_file : Type :=
| Unreadable
| NotJson
| Holds (raw : json).

(** The command line of [record_video.py] after [argparse]: the positional
    arguments, and the options.  [summary_arg] is [None] without the option
    (or with an empty path). *)
Record args : Type := Args {
  video_id : str;
  title : str;
  channel : str;
  duration : Z;
  view_count : Z;
  like_count : Z;
  insights_count : Z;
  summary_arg : option summary_file;
  thumbnail : option str;
  source_url : option str
}.

(** How a run of [main] ends: the data written to the store, the exit with
    status 1 that follows one of the two error messages of [main], or an
    exception that nothing catches (the interpreter then prints a traceback
    and ends with status 1 as well); nothing is written in the last two
    cases. *)
Inductive outcome : Type :=
| Saved (data : json)
| Exited
| Raised.

(** How the block of [main] that loads the summary ends: with the value of
    [summary], by the exit with status 1, or by an exception that the block
    does not catch. *)
Inductive load_result : Type :=
| Loaded (summary : option dict)
| LoadExited
| LoadRaised.

(** The block of [main] that loads the summary.  Only [JSONDecodeError] and
    [ValueError] are caught. *)
Definition load_summary (a : args) : load_result :=
  match summary_arg a with
  | None => Loaded None
  | Some Unreadable => LoadRaised
  | Some NotJson => LoadExited
  | Some (Holds raw_summary) =>
      if truthy raw_summary then
        match fst (validate_summary raw_summary (video_id a)) with
        | inr summary => Loaded (Some summary)
        | inl _ => LoadExited
        end
      else Loaded None
  end.

(** [d[k] = v] under a condition on an optional string argument *)
Definition set_if_given (k : str) (x : option str) (d : dict) : dict :=
  match x with
  | Some s => if truthy (JStr s) then set k (JStr s) d else d
  | None => d
  end.

(** The entry built from the command line, at the time [now] in
    milliseconds. *)
Definition video_entry (a : args) (now : Z) (summary : option dict) : dict :=
  let entry :=
    [(u "id", JStr (video_id a));
     (u "title", JStr (title a));
     (u "channel", JStr (channel a));
     (u "duration", JInt (duration a));
     (u "view_count", JInt (view_count a));
     (u "like_count", JInt (like_count a));
     (u "insights_count", JInt (insights_count a));
     (u "analyzed_at", JInt now)] in
  let entry := set_if_given (u "thumbnail") (thumbnail a) entry in
  let entry := set_if_given (u "source_url") (source_url a) entry in
  match summary with
  | Some summary =>
      if truthy (JDict summary) then set (u "summary") (JDict summary) entry
      else entry
  | None => entry
  end.

(** [x == s] for a string [s] *)
Definition eq_str (x : json) (s : str) : bool :=
  match x with
  | JStr t => PyStr.eqb t s
  | _ => false
  end.

(** The loop that looks for the video: the index of the first record whose
    [id] is the given one, [Some None] when there is none, and [None] when a
    record before it has no [id] to read. *)
Fixpoint find_existing (vid : str) (i : nat) (videos : list json)
  : option (option nat) :=
  match videos with
  | [] => Some None
  | v :: videos' =>
      match v with
      | JDict d =>
          match get (u "id") d with
          | Some x =>
              if eq_str x vid then Some (Some i)
              else find_existing vid (S i) videos'
          | None => None
          end
      | _ => None
      end
  end.

(** [summary] is falsy. *)
Definition no_summary (summary : option dict) : bool :=
  match summary with
  | Some summary => negb (truthy (JDict summary))
  | None => true
  end.

(** The update of the list of videos. *)
Definition upsert (a : args) (now : Z) (summary : option dict)
           (videos : json) : option json :=
  items <- iterate videos ;;
  existing_idx <- find_existing (video_id a) 0 items ;;
  let entry := video_entry a now summary in
  match existing_idx, videos with
  | Some idx, JList l =>
      match nth_error l idx with
      | Some (JDict old) =>
          let entry :=
            if no_summary summary && has (u "summary") old
            then set (u "summary") (get_default (u "summary") JNull old) entry
            else entry in
          Some (JList (ImportSummaries.list_set idx (JDict entry) l))
      | _ => None
      end
  | None, JList l => Some (JList (l ++ [JDict entry]))
  | _, _ => None
  end.

(** [main], from the data that its first lines load: [stored] is the value
    that the data file holds when it exists, [analyzed_at] and [updated_at]
    are the two readings of the clock.  The summary is loaded next, before
    anything of the data is looked at. *)
Definition main (a : args) (stored : option json)
           (analyzed_at updated_at : Z) : outcome :=
  let data :=
    match stored with
    | Some data => data
    | None => JDict [(u "videos", JList []); (u "updated_at", JNull)]
    end in
  match load_summary a with
  | LoadExited => Exited
  | LoadRaised => Raised
  | Loaded summary =>
      match data with
      | JDict top =>
          match get (u "videos") top with
          | Some videos =>
              match upsert a analyzed_at summary videos with
              | Some videos' =>
                  Saved (JDict (set (u "updated_at") (JInt updated_at)
                                    (set (u "videos") videos' top)))
              | None => Raised
              end
          | None => Raised
          end
      | _ => Raised
      end
  end.

End RecordVideo.

(* ===================================================================== *)
(** ** scripts/generate_viz.py *)
(* ===================================================================== *)

Module GenerateViz.

(** [i['text'] if isinstance(i, dict) else i]; a dict without the key
    raises. *)
Definition idea_text (i : json) : option json :=
  match i with
  | JDict d => get (u "text") d
  | _ => Some i
  end.

(** [[i['text'] if isinstance(i, dict) else i for i in ideas]] *)
Definition idea_texts (ideas : json) : option (list json) :=
  items <- iterate ideas ;;
  mapM idea_text items.

Definition branch (label : str) (children : json) : json :=
  JDict [(u "label", JStr label); (u "children", children)].

(** The root label:
    [tldr[:30] + "..." if len(tldr) > 30 else tldr if tldr else "视频总结"] *)
Definition mindmap_root (tldr : json) : option json :=
  n <- py_len tldr ;;
  if 30 <? n then
    match tldr with
    | JStr t => Some (JStr (firstn 30 t ++ u "..."))
    | _ => None
    end
  else Some (if truthy tldr then tldr else JStr (u "视频总结")).

Definition generate_mindmap (summary : dict) : option json :=
  let ideas := get_default (u "ideas") (JList []) summary in
  let insights := get_default (u "insights") (JList []) summary in
  let takeaway := get_default (u "takeaway") (JStr []) summary in
  let tldr := get_default (u "tldr") (JStr []) summary in
  idea_texts <- idea_texts ideas ;;
  let children := [] in
  let children :=
    if 3 <=? List.length idea_texts then
      let third := List.length idea_texts / 3 in
      children
        ++ [branch (u "核心观点")
                   (JList (firstn 3 (slice 0 third idea_texts)))]
        ++ [branch (u "关键论据")
                   (JList (firstn 3 (slice third (2 * third) idea_texts)))]
        ++ [branch (u "延伸思考")
                   (JList (firstn 3 (skipn (2 * third) idea_texts)))]
    else children in
  children <-
    (if truthy insights then
       first3 <- slice_to 3 insights ;;
       Some (children ++ [branch (u "深度洞察") first3])
     else Some children) ;;
  let children :=
    if truthy takeaway then
      children ++ [branch (u "核心结论") (JList [takeaway])]
    else children in
  root <- mindmap_root tldr ;;
  Some (JDict [(u "root", root); (u "children", JList children)]).

(** One extracted statistic, the dict [{"value": .., "label": ..}]. *)
Record stat : Type := Stat { value : str; label : str }.

Definition stat_json (s : stat) : json :=
  JDict [(u "value", JStr (value s)); (u "label", JStr (label s))].

(** \d+(?:\.\d+)? *)
Definition re_number : regex :=
  Seq (Plus true digit) (Opt (Seq (lit 46) (Plus true digit))).

(** The pattern table of [extract_stats]: each pattern with its suffix. *)
Definition patterns : list (regex * str) :=
  [ (seq_of [Grp 1 re_number; Star true ws; word (u "万")], u "万");
    (seq_of [Grp 1 re_number; Star true ws; word (u "亿")], u "亿");
    (seq_of [Grp 1 re_number; Star true ws; lit 37], u "%");
    (Seq (lit 36) (Grp 1 (Seq re_number (Opt (cls (u "KMB"))))), u "$");
    (seq_of [Grp 1 (Seq (Plus true digit)
                        (Opt (Seq (lit 45) (Plus true digit))));
             Star true ws; word (u "年")], u "年");
    (seq_of [Grp 1 re_number; Star true ws; word (u "倍")], u "倍") ].

(** [f"{m}{suffix}" if suffix != '$' else f"${m}"] *)
Definition stat_value (m suffix : str) : str :=
  if negb (PyStr.eqb suffix (u "$")) then m ++ suffix else u "$" ++ m.

(** The state of the scan: [stats] and [seen]. *)
Definition scan_state : Type := (list stat * list str)%type.

(** The innermost loop body, for one match [m] of a pattern in [text]. *)
Definition accept (text suffix : str) (st : scan_state) (m : str)
  : scan_state :=
  let (stats, seen) := st in
  let val := stat_value m suffix in
  if negb (RecordVideo.mem_str val seen) && (List.length stats <? 6) then
    let context := strip (firstn 20 text) in
    (stats ++ [Stat val context], val :: seen)
  else st.

(** The loop over the matches of one pattern. *)
Definition scan_pattern (text : str) (st : scan_state) (ps : regex * str)
  : scan_state :=
  fold_left (accept text (snd ps)) (findall (fst ps) text) st.

(** The loop over the patterns for one text; a text that is not a string
    makes [re.findall] raise. *)
Definition scan_text (st : option scan_state) (text : json)
  : option scan_state :=
  st <- st ;;
  match text with
  | JStr t => Some (fold_left (scan_pattern t) patterns st)
  | _ => None
  end.

(** [facts + [i['text'] if isinstance(i, dict) else i for i in ideas]] *)
Definition all_text (summary : dict) : option (list json) :=
  let facts := get_default (u "facts") (JList []) summary in
  let ideas := get_default (u "ideas") (JList []) summary in
  texts <- idea_texts ideas ;;
  match facts with
  | JList fs => Some (fs ++ texts)
  | _ => None
  end.

Definition extract_stats (summary : dict) : option (list stat) :=
  texts <- all_text summary ;;
  st <- fold_left scan_text texts (Some ([], [])) ;;
  Some (firstn 6 (fst st)).

Definition comparison_keywords : list str :=
  [u "vs"; u "VS"; u "对比"; u "相比"; u "优势"; u "劣势"; u "传统";
   u "新型"; u "地面"; u "太空"; u "之前"; u "之后"].

Definition as_str (x : json) : option str :=
  match x with JStr s => Some s | _ => None end.

(** [' '.join(..)] raises on an item that is not a string. *)
Definition joined_idea_texts (summary : dict) : option str :=
  let ideas := get_default (u "ideas") (JList []) summary in
  texts <- idea_texts ideas ;;
  strs <- mapM as_str texts ;;
  Some (join (u " ") strs).

Definition detect_comparison (summary : dict) : option bool :=
  all_text <- joined_idea_texts summary ;;
  Some (existsb (fun kw => contains kw all_text) comparison_keywords).

(** [mindmap['children']] of a mindmap built by [generate_mindmap] *)
Definition mindmap_children (mindmap : json) : json :=
  match mindmap with
  | JDict d => get_default (u "children") JNull d
  | _ => JNull
  end.

Definition generate_viz_data (summary : dict) : option (dict * list str) :=
  let viz_data := [] in
  let suggested_viz := [] in
  mindmap <- generate_mindmap summary ;;
  let viz_data :=
    if truthy (mindmap_children mindmap)
    then set (u "mindmap") mindmap viz_data else viz_data in
  stats <- extract_stats summary ;;
  let '(viz_data, suggested_viz) :=
    if truthy (JList (map stat_json stats))
    then (set (u "stats") (JList (map stat_json stats)) viz_data,
          suggested_viz ++ [u "stats"])
    else (viz_data, suggested_viz) in
  cmp <- detect_comparison summary ;;
  let suggested_viz :=
    if cmp then suggested_viz ++ [u "comparison"] else suggested_viz in
  Some (viz_data, suggested_viz).

(** The body of the loop of [main] for one video: the video after it, or
    [None] when it raises. *)
Definition process_video (video : json) : option json :=
  match video with
  | JDict v =>
      match get_default (u "summary") (JDict []) v with
      | JDict summary =>
          if truthy_at (u "viz_data") summary then Some video
          else if negb (truthy_at (u "ideas") summary)
                  && negb (truthy_at (u "insights") summary)
          then Some video
          else
            r <- generate_viz_data summary ;;
            let (viz_data, suggested_viz) := r in
            if truthy (JDict viz_data) then
              let summary := set (u "viz_data") (JDict viz_data) summary in
              let summary :=
                if truthy (JList (map JStr suggested_viz))
                then set (u "suggested_viz")
                         (JList (map JStr suggested_viz)) summary
                else summary in
              let v := set (u "summary") (JDict summary) v in
              _ <- get (u "id") v ;;
              _ <- slice_to 40 (get_default (u "title")
                                            (JStr (u "Unknown")) v) ;;
              Some (JDict v)
            else Some video
      | _ => None
      end
  | _ => None
  end.

(** [main]: from the data read from the store to the data written back;
    [None] when an exception ends the run before anything is written. *)
Definition main (data : json) : option json :=
  match data with
  | JDict top =>
      vs <- get (u "videos") top ;;
      videos <- iterate vs ;;
      videos' <- mapM process_video videos ;;
      match vs with
      | JList _ => Some (JDict (set (u "videos") (JList videos') top))
      | _ => Some data
      end
  | _ => None
  end.

(** The store after a run. *)
Definition store_after (data : json) : json :=
  match main data with Some data' => data' | None => data end.

End GenerateViz.

(* ===================================================================== *)
(** ** import_history.py *)
(* ===================================================================== *)

Module ImportHistory.

(** [get_video_metadata].  [result] is what running the download tool gave:
    [None] when the call raised (a timeout included), else the return code
    and the standard output parsed as JSON, [None] when it is not JSON.  Every
    exception is caught and gives [None]. *)
Definition get_video_metadata (result : option (Z * option json))
  : option dict :=
  match result with
  | Some (returncode, Some (JDict data)) =>
      if (returncode =? 0)%Z then
        Some [(u "title", get_default (u "title") (JStr (u "Unknown")) data);
              (u "channel",
               get_default (u "channel")
                 (get_default (u "uploader") (JStr (u "Unknown")) data) data);
              (u "duration", get_default (u "duration") (JInt 0) data);
              (u "view_count", get_default (u "view_count") (JInt 0) data);
              (u "like_count", get_default (u "like_count") (JInt 0) data)]
      else None
  | _ => None
  end.

(** An entry of the transcript cache: its name, whether it is a directory,
    whether it holds [transcript.txt], and the modification time of that
    file in milliseconds, truncated. *)
Record entry : Type := Entry {
  name : str;
  is_dir : bool;
  has_transcript : bool;
  mtime : Z
}.

(** The test of the directory scan. *)
Definition is_cached_video (e : entry) : bool :=
  is_dir e && negb (PyStr.eqb (name e) (u ".gitkeep"))
  && Nat.eqb (List.length (name e)) 11 && has_transcript e.

(** [{v["id"] for v in videos}]: the ids, or [None] when a record has no id
    or an id that a set cannot hold. *)
Definition existing_ids (videos : list json) : option (list json) :=
  mapM (fun v =>
          match v with
          | JDict d =>
              k <- get (u "id") d ;;
              if ImportSummaries.hashable k then Some k else None
          | _ => None
          end) videos.

(** [vid in existing_ids] for a string [vid] *)
Definition known (vid : str) (ids : list json) : bool :=
  existsb (fun k => RecordVideo.eq_str k vid) ids.

Definition video_entry (e : entry) (metadata : dict) : dict :=
  [(u "id", JStr (name e));
   (u "title", get_default (u "title") JNull metadata);
   (u "channel", get_default (u "channel") JNull metadata);
   (u "duration", get_default (u "duration") JNull metadata);
   (u "view_count", get_default (u "view_count") JNull metadata);
   (u "like_count", get_default (u "like_count") JNull metadata);
   (u "insights_count", JInt 0);
   (u "analyzed_at", JInt (mtime e))].

(** One turn of the loop over the new videos; [run] is the download tool.
    Appending needs the videos to be a list, and the line printed after it
    needs a title that can be sliced. *)
Definition import_one (run : str -> option (Z * option json))
           (videos : option json) (e : entry) : option json :=
  videos <- videos ;;
  match get_video_metadata (run (name e)) with
  | Some metadata =>
      match videos with
      | JList l =>
          let videos := JList (l ++ [JDict (video_entry e metadata)]) in
          _ <- slice_to 50 (get_default (u "title") JNull metadata) ;;
          Some videos
      | _ => None
      end
  | None => Some videos
  end.

(** [main]: from the stored data (when the file exists), the entries of the
    transcript cache and the clock to the data written, or [None] when an
    exception ends the run before anything is written.  The run starts from
    a cache directory that can be listed; without one [iterdir] raises and
    nothing is written. *)
Definition main (run : str -> option (Z * option json))
           (stored : option json) (cache : list entry) (updated_at : Z)
  : option json :=
  let data :=
    match stored with
    | Some data => data
    | None => JDict [(u "videos", JList []); (u "updated_at", JNull)]
    end in
  match data with
  | JDict top =>
      videos <- get (u "videos") top ;;
      items <- iterate videos ;;
      ids <- existing_ids items ;;
      let video_ids := filter is_cached_video cache in
      let new_videos :=
        filter (fun e => negb (known (name e) ids)) video_ids in
      videos' <- fold_left (import_one run) new_videos (Some videos) ;;
      Some (JDict (set (u "updated_at") (JInt updated_at)
                       (set (u "videos") videos' top)))
  | _ => None
  end.

End ImportHistory.

(* ===================================================================== *)
(** ** The vocabulary of the statements *)
(* ===================================================================== *)

Import RecordVideo ImportSummaries GenerateViz.

(** The shape the validator asks of a candidate, in the words of the
    specification: [tldr] a string that is not empty once trimmed, [ideas]
    and [insights] sequences. *)
Definition tldr_ok (d : dict) : Prop :=
  exists s, get (u "tldr") d = Some (JStr s) /\ strip s <> [].
Definition ideas_ok (d : dict) : Prop :=
  exists l, get (u "ideas") d = Some (JList l).
Definition insights_ok (d : dict) : Prop :=
  exists l, get (u "insights") d = Some (JList l).
Definition well_shaped (d : dict) : Prop :=
  tldr_ok d /\ ideas_ok d /\ insights_ok d.

(** The candidate after the repair step. *)
Definition repaired (d : dict) (video_id : str) : dict :=
  fst (flatten_nested d video_id).

(** The required fields absent from a dict. *)
Definition missing_fields (d : dict) : list str :=
  filter (fun f => negb (has f d)) REQUIRED_SUMMARY_FIELDS.

Definition example_inner : dict :=
  [(u "tldr", JStr (u "x")); (u "status", JStr (u "done"))].

Definition example_outer : dict :=
  [(u "status", JStr (u "ok")); (u "likes", JInt 3); (u "note", JNull);
   (u "summary", JDict example_inner)].

(** The value stored for a list section: absent when the section was not
    found, else the first [cap] items. *)
Definition capped (cap : nat) (items : option (list json)) : option json :=
  match items with
  | Some l => Some (JList (firstn cap l))
  | None => None
  end.

(** The statistic a match [m] of a pattern with the given suffix proposes
    for [text]. *)
Definition candidate (text suffix m : str) : stat :=
  Stat (stat_value m suffix) (strip (firstn 20 text)).

(** The candidates of one text, pattern by pattern in the order of the
    table, match by match within a pattern. *)
Definition candidates_of_text (text : str) : list stat :=
  flat_map (fun ps => map (candidate text (snd ps)) (findall (fst ps) text))
           patterns.

(** The candidates of a run, in scan order. *)
Definition candidates (texts : list str) : list stat :=
  flat_map candidates_of_text texts.

(** Exact-string deduplication, the first occurrence winning. *)
Fixpoint dedup_first (seen : list str) (l : list stat) : list stat :=
  match l with
  | [] => []
  | c :: l' =>
      if mem_str (value c) seen then dedup_first seen l'
      else c :: dedup_first (value c :: seen) l'
  end.

(** The loop body, on a candidate. *)
Definition take (st : scan_state) (c : stat) : scan_state :=
  let (stats, seen) := st in
  if negb (mem_str (value c) seen) && (List.length stats <? 6)
  then (stats ++ [c], value c :: seen)
  else st.

Definition example_stats_summary : dict :=
  [(u "facts", JList [JStr (u "营收增长 30%，用户达到12万");
                      JStr (u "融资 $4.5M，占比30 %")]);
   (u "ideas", JList [JDict [(u "text", JStr (u "2020-2023年增长3.5倍，12万用户"));
                             (u "timestamp", JNull)];
                      JStr (u "成本下降 30%")])].

(** An idea record as the normalizer builds it. *)
Definition idea (text : str) (timestamp : json) : json :=
  JDict [(u "text", JStr text); (u "timestamp", timestamp)].

(** The summaries whose fields have the types of a StructuredSummary: the
    idea texts and the facts are strings, the insights a list, the tldr a
    string.  On these no step of the synthesis raises. *)
Definition synthesizable (s : dict) : Prop :=
  (exists texts, idea_texts (get_default (u "ideas") (JList []) s)
                 = Some (map JStr texts))
  /\ (exists facts, get_default (u "facts") (JList []) s
                    = JList (map JStr facts))
  /\ (exists l, get_default (u "insights") (JList []) s = JList l)
  /\ (exists t, get_default (u "tldr") (JStr []) s = JStr t).

Definition three_ideas : dict :=
  [(u "tldr", JStr (u "x"));
   (u "ideas", JList [idea (u "a") JNull; idea (u "b") (JInt 725);
                      idea (u "c") JNull]);
   (u "insights", JList [])].

Definition two_ideas : dict :=
  [(u "tldr", JStr (u "x"));
   (u "ideas", JList [idea (u "a") JNull; idea (u "b") (JInt 725)]);
   (u "insights", JList [])].

(** The videos of a store. *)
Definition videos_of (data : json) : list json :=
  match data with
  | JDict top =>
      match get (u "videos") top with
      | Some (JList l) => l
      | _ => []
      end
  | _ => []
  end.

(** The videos that a run must not touch keep their place and value. *)
Definition kept (videos vs : list json) : Prop :=
  forall i v,
    nth_error videos i = Some (JDict v) ->
    truthy_at (u "summary") v = true ->
    nth_error vs i = Some (JDict v).

(** A stored summary with ideas or insights that are not empty. *)
Definition has_content (sm : dict) : Prop :=
  truthy_at (u "ideas") sm = true \/ truthy_at (u "insights") sm = true.

Definition stored_video : dict :=
  [(u "id", JStr (u "abc")); (u "title", JStr (u "T"));
   (u "summary",
    JDict [(u "videoId", JStr (u "abc")); (u "tldr", JStr (u "x"));
           (u "ideas", JList [idea (u "a") JNull; idea (u "b") JNull;
                              idea (u "c") JNull]);
           (u "insights", JList []);
           (u "viz_data", JDict [(u "stats", JList [])])])].

Definition stored_data : json :=
  JDict [(u "videos", JList [JDict stored_video]);
         (u "updated_at", JNull)].

(** A stored record whose summary has ideas and a [viz_data] field that is
    present but empty: the synthesis stage does not skip it and writes new
    visualisation data over the stored field. *)
Definition empty_viz_video : dict :=
  [(u "id", JStr (u "abc")); (u "title", JStr (u "T"));
   (u "summary",
    JDict [(u "videoId", JStr (u "abc")); (u "tldr", JStr (u "x"));
           (u "ideas", JList [idea (u "a") JNull; idea (u "b") JNull;
                              idea (u "c") JNull]);
           (u "insights", JList []);
           (u "viz_data", JDict [])])].

Definition is_idea_record (x : json) : Prop :=
  exists t ts, x = idea t ts.

Definition is_nonempty_str (x : json) : Prop :=
  exists t, x = JStr t /\ t <> [].

(** A document whose IDEAS section has fifteen bare bullet markers and then
    a sixteenth bullet with a text. *)
Definition bare_bullets_document : str :=
  u "# IDEAS" ++ [10%N]
    ++ concat (repeat (u "-" ++ [10%N]) 15)
    ++ u "- the sixteenth".

(** A document with a bare bullet marker between two items in each list
    section. *)
Definition bare_bullet_in_each_section : str :=
  u "# IDEAS" ++ [10%N] ++ u "- a" ++ [10%N] ++ u "-" ++ [10%N] ++ u "- b"
    ++ [10%N] ++
  u "# INSIGHTS" ++ [10%N] ++ u "- a" ++ [10%N] ++ u "-" ++ [10%N] ++ u "- b"
    ++ [10%N] ++
  u "# QUOTES" ++ [10%N] ++ u "- a" ++ [10%N] ++ u "-" ++ [10%N] ++ u "- b"
    ++ [10%N] ++
  u "# FACTS" ++ [10%N] ++ u "- a" ++ [10%N] ++ u "-" ++ [10%N] ++ u "- b".

(** A text at which a character test fails: it is empty or starts with a
    character that fails the test. *)
Definition stops (p : N -> bool) (s : str) : Prop :=
  match s with
  | [] => True
  | x :: _ => p x = false
  end.

(** The configurations a greedy iteration of a character test goes through
    on a run [w] of matching characters, the longest first. *)
Fixpoint unwind (n : nat) (w s : str) (cs : list (nat * str)) : list cfg :=
  match w with
  | [] => [Cfg n s cs]
  | x :: w' => unwind (S n) w' s cs ++ [Cfg n (x :: w' ++ s) cs]
  end.

(** [first r c c']: the engine's first way of matching [r] at [c] ends at
    [c']. *)
Definition first (r : regex) (c c' : cfg) : Prop :=
  exists tl, m r c = c' :: tl.

(** No match of [r] starts inside [a], the text going on with [s]. *)
Fixpoint no_match_in (r : regex) (p : nat) (a s : str) : Prop :=
  match a with
  | [] => True
  | x :: a' => m r (Cfg p (a ++ s) []) = [] /\ no_match_in r (S p) a' s
  end.

(** The inline timestamp: [mm:ss] in brackets, each bracket single or
    doubled. *)
Definition ts_token (open2 close2 : bool) (mm ss : str) : str :=
  [91%N] ++ (if open2 then [91%N] else []) ++ mm ++ [58%N] ++ ss
         ++ (if close2 then [93%N] else []) ++ [93%N].

(** The link that follows a timestamp: a target in parentheses. *)
Definition md_link (url : str) : str := [40%N] ++ url ++ [41%N].

(** A string of decimal digits that is not empty. *)
Definition digits (s : str) : Prop :=
  s <> [] /\ Forall (fun x => is_digit x = true) s.

(** A text without an opening bracket. *)
Definition no_bracket (s : str) : Prop := Forall (fun x => x <> 91%N) s.

(** A text that does not end with a blank. *)
Fixpoint ends_nonblank (s : str) : Prop :=
  match s with
  | [] => True
  | [x] => is_space x = false
  | _ :: s' => ends_nonblank s'
  end.

Fixpoint takewhile (p : N -> bool) (s : str) : str :=
  match s with
  | [] => []
  | x :: s' => if p x then x :: takewhile p s' else []
  end.

(** What follows the blanks in [re_ts_link]. *)
Definition re_ts_link_tail : regex :=
  seq_of [ lit 91; Opt (lit 91); Plus true digit; lit 58; Plus true digit;
           Opt (lit 93); lit 93; lit 40; Plus true (ncls (u ")")); lit 41 ].

(** A text at which [re_ts_link] cannot start: after its leading blanks it
    ends or goes on with something else than a bracket. *)
Definition no_token_start (t : str) : Prop :=
  match dropwhile is_space t with
  | [] => True
  | x :: _ => x <> 91%N
  end.

(** What may follow a timestamp that has no link: anything but a
    parenthesis or one more closing bracket. *)
Definition no_link_after (post : str) : Prop :=
  match post with
  | [] => True
  | x :: _ => x <> 40%N /\ x <> 93%N
  end.

(** The data a run of [record_video.py] starts from. *)
Definition initial_data (stored : option json) : json :=
  match stored with
  | Some data => data
  | None => JDict [(u "videos", JList []); (u "updated_at", JNull)]
  end.

(** The record a run stores in place of the record [old]. *)
Definition replacing_entry (a : args) (now : Z) (summary : option dict)
           (old : dict) : dict :=
  if no_summary summary && has (u "summary") old
  then set (u "summary") (get_default (u "summary") JNull old)
           (RecordVideo.video_entry a now summary)
  else RecordVideo.video_entry a now summary.

(** The summaries that [record_video.py] rejects: the option names a text
    that is not JSON, or a value that is truthy and is not, once repaired,
    a well-shaped dict. *)
Definition rejected (a : args) : Prop :=
  summary_arg a = Some NotJson
  \/ exists raw,
       summary_arg a = Some (Holds raw) /\ truthy raw = true
       /\ forall d, raw = JDict d -> ~ well_shaped (repaired d (video_id a)).

(** No summary comes with the command line: the option is absent, or the
    value read is falsy (an empty dict, null). *)
Definition no_summary_given (a : args) : Prop :=
  summary_arg a = None
  \/ exists raw, summary_arg a = Some (Holds raw) /\ truthy raw = false.

(** [idx] is the index of the first record of [videos] whose id is [vid],
    and [d] is this record. *)
Definition first_with_id (vid : str) (videos : list json) (idx : nat)
           (d : dict) : Prop :=
  nth_error videos idx = Some (JDict d)
  /\ get (u "id") d = Some (JStr vid)
  /\ forall j, j < idx ->
       exists dj x, nth_error videos j = Some (JDict dj)
                    /\ get (u "id") dj = Some x /\ x <> JStr vid.

(** Every record of [videos] has an id, and none has the id [vid]. *)
Definition without_id (vid : str) (videos : list json) : Prop :=
  forall v, In v videos ->
    exists d x, v = JDict d /\ get (u "id") d = Some x /\ x <> JStr vid.

(** A record that has an [id]. *)
Definition has_id (v : json) : Prop :=
  exists d x, v = JDict d /\ get (u "id") d = Some x.

(** A store as the scripts write it: a dict whose [videos] is a list of
    records that have an [id]. *)
Definition well_formed_store (data : json) : Prop :=
  exists top l,
    data = JDict top /\ get (u "videos") top = Some (JList l)
    /\ Forall has_id l.

(** The optional string of the command line as the entry holds it. *)
Definition given (x : option str) : option json :=
  match x with
  | Some (c :: s) => Some (JStr (c :: s))
  | _ => None
  end.

Definition example_args : args :=
  Args (u "abc") (u "T2") (u "C") 60 1 2 3 None None None.

(** The fields a record written by [record_video.py] can have. *)
Definition entry_fields : list str :=
  [u "id"; u "title"; u "channel"; u "duration"; u "view_count";
   u "like_count"; u "insights_count"; u "analyzed_at"; u "thumbnail";
   u "source_url"; u "summary"].

(** A summary that passes the validation as it is. *)
Definition example_summary : dict :=
  [(u "tldr", JStr (u "x")); (u "ideas", JList []); (u "insights", JList [])].

Definition example_args_summary : args :=
  Args (u "abc") (u "T2") (u "C") 60 1 2 3
       (Some (Holds (JDict example_summary))) None None.

(** What one turn of the loop of [import_history.py] appends for an entry
    of the cache. *)
Definition fetched (run : str -> option (Z * option json))
           (e : ImportHistory.entry) : list json :=
  match ImportHistory.get_video_metadata (run (ImportHistory.name e)) with
  | Some metadata => [JDict (ImportHistory.video_entry e metadata)]
  | None => []
  end.

(** The record that [import_history.py] stores for an entry of the cache
    and the JSON object the download tool printed for it. *)
Definition imported_record (e : ImportHistory.entry) (data : dict) : json :=
  JDict
    [(u "id", JStr (ImportHistory.name e));
     (u "title", get_default (u "title") (JStr (u "Unknown")) data);
     (u "channel",
      match get (u "channel") data with
      | Some c => c
      | None => get_default (u "uploader") (JStr (u "Unknown")) data
      end);
     (u "duration", get_default (u "duration") (JInt 0) data);
     (u "view_count", get_default (u "view_count") (JInt 0) data);
     (u "like_count", get_default (u "like_count") (JInt 0) data);
     (u "insights_count", JInt 0);
     (u "analyzed_at", JInt (ImportHistory.mtime e))].

(** The video of a cache entry is in a list of records. *)
Definition recorded (vid : str) (videos : list json) : Prop :=
  exists d, In (JDict d) videos /\ get (u "id") d = Some (JStr vid).

(** A download tool that knows one video. *)
Definition example_run (vid : str) : option (Z * option json) :=
  if PyStr.eqb vid (u "dQw4w9WgXcQ")
  then Some (0%Z, Some (JDict [(u "title", JStr (u "T"));
                               (u "uploader", JStr (u "U"));
                               (u "duration", JInt 212)]))
  else Some (1%Z, None).

Definition example_cache : list ImportHistory.entry :=
  [ImportHistory.Entry (u ".gitkeep") false false 0;
   ImportHistory.Entry (u "dQw4w9WgXcQ") true true 1700000000000;
   ImportHistory.Entry (u "aaaaaaaaaaa") true true 1700000000001;
   ImportHistory.Entry (u "bbbbbbbbbbb") true false 0].

(** The ids of the records the loop of [import_history.py] appends for the
    entries [es]. *)
Definition fetched_ids (run : str -> option (Z * option json))
           (es : list ImportHistory.entry) : list json :=
  map (fun e => JStr (ImportHistory.name e))
      (filter (fun e =>
                 match ImportHistory.get_video_metadata
                         (run (ImportHistory.name e)) with
                 | Some _ => true
                 | None => false
                 end) es).

(** A store with the record of another video before the record of the
    video of [example_args]. *)
Definition other_video : dict :=
  [(u "id", JStr (u "xyz")); (u "title", JStr (u "O"));
   (u "summary", JDict [(u "tldr", JStr (u "other"))])].

Definition two_videos : json :=
  JDict [(u "videos", JList [JDict other_video; JDict stored_video]);
         (u "updated_at", JNull)].

(** The store after [example_args] was recorded in [two_videos], and the
    record of the video. *)
Definition example_saved : json :=
  Eval vm_compute in
    match RecordVideo.main example_args (Some two_videos) 5 6 with
    | Saved d => d
    | _ => JNull
    end.

Definition example_entry : dict :=
  Eval vm_compute in
    match nth_error (videos_of example_saved) 1 with
    | Some (JDict e) => e
    | _ => []
    end.

(** The same with the summary of [example_args_summary]. *)
Definition example_saved_summary : json :=
  Eval vm_compute in
    match RecordVideo.main example_args_summary (Some two_videos) 5 6 with
    | Saved d => d
    | _ => JNull
    end.

Definition example_entry_summary : dict :=
  Eval vm_compute in
    match nth_error (videos_of example_saved_summary) 1 with
    | Some (JDict e) => e
    | _ => []
    end.

(** The store after the import of [example_cache] into [stored_data]. *)
Definition example_imported : json :=
  Eval vm_compute in
    match ImportHistory.main example_run (Some stored_data) example_cache 9
    with
    | Some d => d
    | None => JNull
    end.

(** A text holds one of the comparison keywords. *)
Definition has_keyword (t : str) : bool :=
  existsb (fun kw => contains kw t) comparison_keywords.

(** A keyword that a join with spaces cannot create: it is not empty and
    has no space. *)
Definition plain_keyword (kw : str) : bool :=
  negb (Nat.eqb (List.length kw) 0) && forallb (fun c => negb (c =? 32)%N) kw.

(** The labels of the branches of a mindmap, in the order of the branches. *)
Definition branch_labels : list str :=
  [u "核心观点"; u "关键论据"; u "延伸思考"; u "深度洞察"; u "核心结论"].

(** A branch of a mindmap with one of the five labels and at most three
    children. *)
Definition small_branch (c : json) : Prop :=
  exists lab items n,
    c = branch lab items /\ In lab branch_labels
    /\ py_len items = Some n /\ n <= 3.

(** What the synthesis stage may do to a record: nothing, or give its
    summary the visualisation data computed from it, which are not empty,
    and the suggested tags when there are some. *)
Definition viz_added (v v' : json) : Prop :=
  v' = v
  \/ exists d sm viz tags,
       v = JDict d
       /\ get (u "summary") d = Some (JDict sm)
       /\ truthy_at (u "viz_data") sm = false
       /\ generate_viz_data sm = Some (viz, tags)
       /\ viz <> []
       /\ exists d' sm',
            v' = JDict d'
            /\ (forall k, k <> u "summary" -> get k d' = get k d)
            /\ get (u "summary") d' = Some (JDict sm')
            /\ get (u "viz_data") sm' = Some (JDict viz)
            /\ get (u "suggested_viz") sm'
               = (if truthy (JList (map JStr tags))
                  then Some (JList (map JStr tags))
                  else get (u "suggested_viz") sm)
            /\ forall k, k <> u "viz_data" -> k <> u "suggested_viz" ->
                         get k sm' = get k sm.

(** What the import stage may do to a record: nothing, or give a record
    without a summary (or with an empty one) the summary parsed from an
    entry of the directory named after its [id], when that summary has
    ideas or insights, and set [insights_count] to the number of its
    ideas. *)
Definition summary_added (items : list ImportSummaries.item) (v v' : json)
  : Prop :=
  v' = v
  \/ exists d vid content n,
       v = JDict d
       /\ get (u "id") d = Some (JStr vid)
       /\ truthy_at (u "summary") d = false
       /\ In (Some vid, Some content) (map ImportSummaries.item_source items)
       /\ has_content (parse_markdown_summary content vid)
       /\ py_len (get_default (u "ideas") (JList [])
                              (parse_markdown_summary content vid)) = Some n
       /\ exists d',
            v' = JDict d'
            /\ get (u "summary") d'
               = Some (JDict (parse_markdown_summary content vid))
            /\ get (u "insights_count") d' = Some (JInt (Z.of_nat n))
            /\ forall k, k <> u "summary" -> k <> u "insights_count" ->
                         get k d' = get k d.

(** The videos in the course of a run of the import stage, against the
    videos it started from. *)
Definition evolved (items : list ImportSummaries.item)
           (videos vs : list json) : Prop :=
  List.length vs = List.length videos
  /\ forall i v, nth_error videos i = Some v ->
       exists v', nth_error vs i = Some v' /\ summary_added items v v'.

(** A record without a summary, and a directory with a summary for it. *)
Definition bare_data : json :=
  JDict [(u "videos",
          JList [JDict [(u "id", JStr (u "abc")); (u "title", JStr (u "T"))]]);
         (u "updated_at", JNull)].

Definition example_items : list ImportSummaries.item :=
  [ImportSummaries.Other;
   ImportSummaries.MdFile (u "abc_1") bare_bullet_in_each_section].

(** The part of the loop body of [import_summaries.py] that follows the
    lookup of the video: what it does at the index found. *)
Definition import_at (idx : nat) (video_id content : str)
           (videos : list json) : option (list json) :=
  match nth_error videos idx with
  | Some (JDict video) =>
      if negb (has (u "summary") video)
         || negb (truthy_at (u "summary") video)
      then
        let summary := parse_markdown_summary content video_id in
        if truthy_at (u "ideas") summary || truthy_at (u "insights") summary
        then
          let video := set (u "summary") (JDict summary) video in
          n <- py_len (get_default (u "ideas") (JList []) summary) ;;
          let video := set (u "insights_count") (JInt (Z.of_nat n)) video in
          title <- get (u "title") video ;;
          _ <- slice_to 40 title ;;
          Some (ImportSummaries.list_set idx (JDict video) videos)
        else Some videos
      else Some videos
  | _ => None
  end.

(** Two records with the same [id]. *)
Definition same_id (v v' : json) : Prop :=
  v' = v
  \/ exists d d', v = JDict d /\ v' = JDict d'
                  /\ get (u "id") d' = get (u "id") d.

(** An idea whose text is not a string: an item that is neither a string
    nor a dict, a dict without [text], or a dict whose [text] is not a
    string. *)
Definition no_text (i : json) : Prop :=
  forall s, idea_text i <> Some (JStr s).

(** A summary that the validator accepts and on which the synthesis
    raises. *)
Definition number_idea_summary : dict :=
  [(u "tldr", JStr (u "x")); (u "ideas", JList [JInt 1]);
   (u "insights", JList [])].

(** A dict that holds no nested summary that the validator would
    flatten. *)
Definition flat (d : dict) : Prop :=
  forall inner, get (u "summary") d = Some (JDict inner) ->
    existsb (fun field => has field inner) REQUIRED_SUMMARY_FIELDS = false.

(** A text without blanks at its ends. *)
Definition trimmed (s : str) : Prop := strip s = s.

(** An idea record with a trimmed text and a timestamp that is absent or a
    number of seconds. *)
Definition clean_idea (x : json) : Prop :=
  exists t ts,
    x = idea t ts /\ trimmed t
    /\ (ts = JNull \/ exists z, ts = JInt z /\ (0 <= z)%Z).

(** A string that is not empty and is trimmed. *)
Definition clean_str (x : json) : Prop :=
  exists t, x = JStr t /\ t <> [] /\ trimmed t.

(** A directory of summaries that holds files only. *)
Definition files_only (items : list ImportSummaries.item) : Prop :=
  forall name txt, ~ In (ImportSummaries.Dir name txt) items.

(** A record whose id has an underscore, and a summary file named after
    it. *)
Definition underscore_data : json :=
  JDict [(u "videos",
          JList [JDict [(u "id", JStr (u "a_bcdefghij"));
                        (u "title", JStr (u "T"))]])].

Definition underscore_items : list ImportSummaries.item :=
  [ImportSummaries.MdFile (u "a_bcdefghij") bare_bullet_in_each_section].

(** A text without a decimal digit. *)
Definition no_digit (s : str) : Prop := Forall (fun c => is_digit c = false) s.

(** A pattern that matches nowhere in a text without a digit. *)
Definition needs_digit (r : regex) : Prop :=
  forall p s, no_digit s -> m r (Cfg p s []) = [].

(** The count of ideas and the two fields that give the mindmap a
    branch. *)
Definition has_branch (sm : dict) (texts : list json) : Prop :=
  3 <= List.length texts
  \/ truthy (get_default (u "insights") (JList []) sm) = true
  \/ truthy (get_default (u "takeaway") (JStr []) sm) = true.

(* ===================================================================== *)
(** ** Facts about strings and dicts *)
(* ===================================================================== *)

Section DictFacts.

Lemma eqb_eq (a b : str) : PyStr.eqb a b = true <-> a = b.
Proof.
  revert b; induction a as [|x a IH]; intros [|y b]; simpl;
    try (split; congruence).
  rewrite andb_true_iff, N.eqb_eq, IH. split.
  - intros [-> ->]; reflexivity.
  - intros E; inversion E; auto.
Qed.

Lemma eqb_refl (a : str) : PyStr.eqb a a = true.
Proof. apply eqb_eq; reflexivity. Qed.

Lemma eqb_neq (a b : str) : PyStr.eqb a b = false <-> a <> b.
Proof.
  rewrite <- eqb_eq. destruct (PyStr.eqb a b); split; congruence.
Qed.

Lemma get_set_same (k : str) (v : json) (d : dict) :
  get k (set k v d) = Some v.
Proof.
  induction d as [|[k' v'] d IH]; simpl.
  - rewrite eqb_refl; reflexivity.
  - destruct (PyStr.eqb k' k) eqn:E; simpl; rewrite E; auto.
Qed.

Lemma get_set_other (k k' : str) (v : json) (d : dict) :
  k <> k' -> get k' (set k v d) = get k' d.
Proof.
  intros Hne. induction d as [|[k0 v0] d IH]; simpl.
  - apply eqb_neq in Hne. rewrite Hne; reflexivity.
  - destruct (PyStr.eqb k0 k) eqn:E; simpl.
    + apply eqb_eq in E; subst k0.
      apply eqb_neq in Hne. rewrite Hne; reflexivity.
    + destruct (PyStr.eqb k0 k'); auto.
Qed.

Lemma get_set (k k' : str) (v : json) (d : dict) :
  get k' (set k v d) = if PyStr.eqb k k' then Some v else get k' d.
Proof.
  destruct (PyStr.eqb k k') eqn:E.
  - apply eqb_eq in E; subst; apply get_set_same.
  - apply eqb_neq in E; apply get_set_other; assumption.
Qed.

Lemma get_In (k : str) (v : json) (d : dict) :
  get k d = Some v -> In (k, v) d.
Proof.
  induction d as [|[k' v'] d IH]; simpl; [discriminate|].
  destruct (PyStr.eqb k' k) eqn:E.
  - apply eqb_eq in E; subst. intros [= ->]; auto.
  - auto.
Qed.

Lemma get_None_notin (k : str) (d : dict) :
  get k d = None <-> ~ In k (map fst d).
Proof.
  induction d as [|[k' v'] d IH]; simpl; [tauto|].
  destruct (PyStr.eqb k' k) eqn:E.
  - apply eqb_eq in E; subst. split; [discriminate | tauto].
  - apply eqb_neq in E. rewrite IH. tauto.
Qed.

(** Looking a key up in a dict whose keys are distinct. *)
Lemma In_get (k : str) (v : json) (d : dict) :
  NoDup (map fst d) -> In (k, v) d -> get k d = Some v.
Proof.
  induction d as [|[k' v'] d IH]; simpl; [tauto|].
  intros Hnd [E|Hin].
  - inversion E; subst. rewrite eqb_refl; reflexivity.
  - inversion Hnd as [|? ? Hnotin Hnd']; subst.
    destruct (PyStr.eqb k' k) eqn:E.
    + apply eqb_eq in E; subst. exfalso; apply Hnotin.
      apply (in_map fst) in Hin; exact Hin.
    + auto.
Qed.

Lemma get_filter (p : str -> bool) (k : str) (d : dict) :
  get k (filter (fun kv => p (fst kv)) d) = if p k then get k d else None.
Proof.
  induction d as [|[k' v'] d IH]; simpl.
  - destruct (p k); reflexivity.
  - destruct (p k') eqn:Ep; simpl;
      destruct (PyStr.eqb k' k) eqn:E; auto.
    + apply eqb_eq in E; subst. rewrite Ep; reflexivity.
    + apply eqb_eq in E; subst. rewrite IH, Ep; reflexivity.
Qed.

(** [d.update(other)]: the items of [other] win. *)
Lemma get_update (k : str) (d other : dict) :
  NoDup (map fst other) ->
  get k (update d other) =
  match get k other with Some v => Some v | None => get k d end.
Proof.
  unfold update. revert d.
  induction other as [|[k' v'] other IH]; intros d Hnd; simpl; auto.
  inversion Hnd as [|? ? Hnotin Hnd']; subst.
  rewrite IH by assumption.
  destruct (PyStr.eqb k' k) eqn:E.
  - apply eqb_eq in E; subst.
    apply get_None_notin in Hnotin. rewrite Hnotin. apply get_set_same.
  - apply eqb_neq in E. rewrite get_set_other by assumption. reflexivity.
Qed.

Lemma has_get (k : str) (d : dict) :
  has k d = true <-> exists v, get k d = Some v.
Proof.
  unfold has. destruct (get k d); split; eauto; try discriminate.
  intros [v [=]].
Qed.

End DictFacts.
(* ===================================================================== *)
(** ** The validator: [validate_summary] *)
(* ===================================================================== *)

Section Validator.

Import RecordVideo.

Lemma truthy_str_nonempty (s : str) : truthy (JStr s) = true <-> s <> [].
Proof. destruct s; simpl; split; congruence. Qed.

Lemma tldr_ok_iff (d : dict) :
  tldr_ok d <->
  negb (is_str (get (u "tldr") d)) || blank_tldr (get (u "tldr") d) = false.
Proof.
  unfold tldr_ok.
  destruct (get (u "tldr") d) as [[| | | |s| |]|];
    try (split; [intros (s0 & [=] & _) | discriminate]).
  unfold is_str, blank_tldr. cbn [negb orb].
  rewrite negb_false_iff, truthy_str_nonempty. split.
  - intros (s0 & [= <-] & H); exact H.
  - intros H; exists s; auto.
Qed.

Lemma ideas_ok_iff (d : dict) :
  ideas_ok d <-> negb (is_list (get (u "ideas") d)) = false.
Proof.
  unfold ideas_ok.
  destruct (get (u "ideas") d) as [[| | | | |l|]|]; simpl;
    try (split; [intros (l0 & [=]) | discriminate]).
  split; eauto.
Qed.

Lemma insights_ok_iff (d : dict) :
  insights_ok d <-> negb (is_list (get (u "insights") d)) = false.
Proof.
  unfold insights_ok.
  destruct (get (u "insights") d) as [[| | | | |l|]|]; simpl;
    try (split; [intros (l0 & [=]) | discriminate]).
  split; eauto.
Qed.

Lemma nothing_missing (d : dict) :
  well_shaped d -> missing_fields d = [].
Proof.
  intros ((s & Ht & _) & (l1 & Hi) & (l2 & Hn)).
  unfold missing_fields, REQUIRED_SUMMARY_FIELDS, has; simpl.
  rewrite Ht, Hi, Hn; reflexivity.
Qed.

(** What [check_summary] answers, by the first check that fails. *)
Lemma check_summary_cases (d : dict) (video_id : str) :
  (missing_fields d <> [] /\
   check_summary d video_id = inl (MissingFields (missing_fields d)))
  \/ (missing_fields d = [] /\ ~ tldr_ok d /\
      check_summary d video_id = inl TldrNotNonEmptyString)
  \/ (missing_fields d = [] /\ tldr_ok d /\ ~ ideas_ok d /\
      check_summary d video_id = inl IdeasNotList)
  \/ (missing_fields d = [] /\ tldr_ok d /\ ideas_ok d /\ ~ insights_ok d /\
      check_summary d video_id = inl InsightsNotList)
  \/ (well_shaped d /\
      check_summary d video_id = inr (set (u "videoId") (JStr video_id) d)).
Proof.
  unfold check_summary. fold (missing_fields d).
  destruct (missing_fields d) as [|f fs] eqn:Hm.
  2: { left; split; [discriminate | reflexivity]. }
  right.
  destruct (negb (is_str (get (u "tldr") d)) || blank_tldr (get (u "tldr") d))
    eqn:Ht.
  { left. repeat split; auto. rewrite tldr_ok_iff; congruence. }
  apply tldr_ok_iff in Ht. right.
  destruct (negb (is_list (get (u "ideas") d))) eqn:Hi.
  { left. repeat split; auto. rewrite ideas_ok_iff; congruence. }
  apply ideas_ok_iff in Hi. right.
  destruct (negb (is_list (get (u "insights") d))) eqn:Hn.
  { left. repeat split; auto. rewrite insights_ok_iff; congruence. }
  apply insights_ok_iff in Hn. right.
  repeat split; auto.
Qed.

Lemma validate_summary_dict (d : dict) (video_id : str) :
  fst (validate_summary (JDict d) video_id)
  = check_summary (repaired d video_id) video_id.
Proof.
  unfold validate_summary, repaired.
  destruct (flatten_nested d video_id); reflexivity.
Qed.

(** C1. [validate_summary] succeeds exactly on the candidates that, once
    repaired, are a mapping with a [tldr] string that is not blank and with
    [ideas] and [insights] lists.  On success the result is the repaired
    candidate with [videoId] set to the given identifier, whatever the
    candidate held there.  Each failure raises the error of the first check
    that fails: not a mapping, required fields missing (with the missing
    ones), [tldr], [ideas], [insights]. *)
Theorem C1_validate_summary_iff_well_shaped :
  forall (candidate : json) (video_id : str),
    ((exists r, fst (validate_summary candidate video_id) = inr r) <->
     (exists d, candidate = JDict d /\ well_shaped (repaired d video_id)))
    /\
    (forall r, fst (validate_summary candidate video_id) = inr r ->
       get (u "videoId") r = Some (JStr video_id) /\
       exists d, candidate = JDict d /\
                 r = set (u "videoId") (JStr video_id) (repaired d video_id) /\
                 forall k, k <> u "videoId" ->
                           get k r = get k (repaired d video_id))
    /\
    (forall e, fst (validate_summary candidate video_id) = inl e ->
       match candidate with
       | JDict d =>
           let d' := repaired d video_id in
           (missing_fields d' <> [] /\ e = MissingFields (missing_fields d'))
           \/ (missing_fields d' = [] /\ ~ tldr_ok d' /\
               e = TldrNotNonEmptyString)
           \/ (missing_fields d' = [] /\ tldr_ok d' /\ ~ ideas_ok d' /\
               e = IdeasNotList)
           \/ (missing_fields d' = [] /\ tldr_ok d' /\ ideas_ok d' /\
               ~ insights_ok d' /\ e = InsightsNotList)
       | _ => e = MustBeDict (type_name candidate)
       end).
Proof.
  intros candidate video_id.
  destruct candidate as [| b | z | mant ex | s | l | d];
    try (simpl; split;
         [ split; [intros (r & [=]) | intros (d0 & [=] & _)]
         | split; [intros r [=] | intros e [= <-]; reflexivity] ]).
  rewrite validate_summary_dict.
  pose proof (check_summary_cases (repaired d video_id) video_id) as Hc.
  split; [split | split].
  - intros (r & Hr).
    exists d; split; [reflexivity|].
    destruct Hc as [(_ & E)|[(_ & _ & E)|[(_ & _ & _ & E)|
                   [(_ & _ & _ & _ & E)|(Hw & _)]]]]; congruence || exact Hw.
  - intros (d0 & [= <-] & Hw).
    destruct Hc as [(Hm & _)|[(_ & Hn & _)|[(_ & _ & Hn & _)|
                   [(_ & _ & _ & Hn & _)|(_ & E)]]]].
    + rewrite (nothing_missing Hw) in Hm; congruence.
    + destruct Hn; apply Hw.
    + destruct Hn; apply Hw.
    + destruct Hn; apply Hw.
    + eauto.
  - intros r H.
    destruct Hc as [(_ & E)|[(_ & _ & E)|[(_ & _ & _ & E)|
                   [(_ & _ & _ & _ & E)|(_ & E)]]]]; try congruence.
    rewrite E in H. injection H as <-.
    split; [apply get_set_same|].
    exists d. split; [reflexivity|]. split; [reflexivity|].
    intros k Hk. apply get_set_other. congruence.
  - intros e He. cbv zeta.
    destruct Hc as [(Hm & E)|[(Hm & Hn & E)|[(Hm & Ht & Hn & E)|
                   [(Hm & Ht & Hi & Hn & E)|(_ & E)]]]];
      rewrite E in He; try discriminate; injection He as <-; tauto.
Qed.

(** C5. When the repair triggers (the candidate holds under [summary] a
    dict with at least one required field), the repaired candidate maps a
    key to the inner value when the inner dict has one, else to the outer
    value when the key is one of the seven metadata fields, else to
    nothing; and one warning line goes to standard error, whether the
    checks then pass or not.  On the candidate of the specification the
    validation succeeds with [tldr], [ideas], [insights] at top level and
    [status] kept. *)
Theorem C5_flatten_nested_merges :
  forall (outer inner : dict) (video_id : str),
    get (u "summary") outer = Some (JDict inner) ->
    NoDup (map fst inner) ->
    (exists f, In f REQUIRED_SUMMARY_FIELDS /\ has f inner = true) ->
    (forall k,
        get k (repaired outer video_id) =
        match get k inner with
        | Some v => Some v
        | None => if mem_str k metadata_fields then get k outer else None
        end)
    /\ snd (flatten_nested outer video_id) = [warn_flattened video_id]
    /\ snd (validate_summary (JDict outer) video_id)
       = [warn_flattened video_id]
    /\ validate_summary
         (JDict [(u "status", JStr (u "ok"));
                 (u "summary", JDict [(u "tldr", JStr (u "x"));
                                      (u "ideas", JList []);
                                      (u "insights", JList [])])])
         video_id
       = (inr [(u "status", JStr (u "ok")); (u "tldr", JStr (u "x"));
               (u "ideas", JList []); (u "insights", JList []);
               (u "videoId", JStr video_id)],
          [warn_flattened video_id]).
Proof.
  intros outer inner video_id Hs Hnd (f & Hf & Hhas).
  assert (Hany : existsb (fun field => has field inner)
                         REQUIRED_SUMMARY_FIELDS = true).
  { apply existsb_exists. exists f; auto. }
  assert (Hflat : flatten_nested outer video_id =
                  (update (filter (fun kv => mem_str (fst kv) metadata_fields)
                                  outer) inner,
                   [warn_flattened video_id])).
  { unfold flatten_nested. rewrite Hs, Hany. reflexivity. }
  repeat split.
  - intros k. unfold repaired. rewrite Hflat. simpl.
    rewrite get_update by assumption.
    rewrite (get_filter (fun k0 => mem_str k0 metadata_fields)).
    reflexivity.
  - rewrite Hflat; reflexivity.
  - unfold validate_summary. rewrite Hflat. reflexivity.
Qed.

Lemma C5_flatten_nested_merges_witness :
  get (u "summary") example_outer = Some (JDict example_inner) /\
  get (u "status") (repaired example_outer (u "abc"))
  = Some (JStr (u "done")) /\
  get (u "likes") (repaired example_outer (u "abc")) = Some (JInt 3) /\
  get (u "note") (repaired example_outer (u "abc")) = None /\
  snd (validate_summary (JDict example_outer) (u "abc"))
  = [warn_flattened (u "abc")].
Proof.
  assert (H1 : get (u "summary") example_outer = Some (JDict example_inner))
    by reflexivity.
  assert (H2 : NoDup (map fst example_inner))
    by (repeat constructor; simpl; intuition discriminate).
  assert (H3 : exists f, In f REQUIRED_SUMMARY_FIELDS /\
                         has f example_inner = true)
    by (exists (u "tldr"); split; [simpl; auto | reflexivity]).
  destruct (@C5_flatten_nested_merges example_outer example_inner (u "abc")
                                      H1 H2 H3) as (Hget & _ & Hwarn & _).
  split; [exact H1|].
  rewrite !Hget. repeat split; try reflexivity; exact Hwarn.
Defined.

End Validator.
(* ===================================================================== *)
(** ** The normalizer: [parse_markdown_summary] *)
(* ===================================================================== *)

Section Normalizer.

Import ImportSummaries.

Lemma get_put_section (k key : str) (cap : nat) (items : option (list json))
      (d : dict) :
  get k (put_section key cap items d) =
  if PyStr.eqb key k
  then match items with Some _ => capped cap items | None => get k d end
  else get k d.
Proof.
  unfold put_section, capped. destruct items as [l|].
  - apply get_set.
  - destruct (PyStr.eqb key k); reflexivity.
Qed.

Lemma get_put_tldr_other (k : str) (content : str) (d : dict) :
  k <> u "tldr" -> get k (put_tldr content d) = get k d.
Proof.
  intros Hk. unfold put_tldr.
  destruct (search re_tldr content); auto.
  apply get_set_other; congruence.
Qed.

Lemma get_put_takeaway_other (k : str) (content : str) (d : dict) :
  k <> u "takeaway" -> get k (put_takeaway content d) = get k d.
Proof.
  intros Hk. unfold put_takeaway.
  destruct (search re_takeaway content); auto.
  apply get_set_other; congruence.
Qed.


Lemma parse_ideas (content video_id : str) :
  get (u "ideas") (parse_markdown_summary content video_id)
  = capped 15 (section_items re_ideas idea_of_line content).
Proof.
  unfold parse_markdown_summary.
  rewrite get_put_takeaway_other by discriminate.
  rewrite !get_put_section.
  change (PyStr.eqb (u "facts") (u "ideas")) with false.
  change (PyStr.eqb (u "quotes") (u "ideas")) with false.
  change (PyStr.eqb (u "insights") (u "ideas")) with false.
  change (PyStr.eqb (u "ideas") (u "ideas")) with true.
  cbv iota.
  rewrite get_put_tldr_other by discriminate.
  destruct (section_items re_ideas idea_of_line content); reflexivity.
Qed.

Lemma parse_insights (content video_id : str) :
  get (u "insights") (parse_markdown_summary content video_id)
  = capped 10 (section_items re_insights insight_of_line content).
Proof.
  unfold parse_markdown_summary.
  rewrite get_put_takeaway_other by discriminate.
  rewrite !get_put_section.
  change (PyStr.eqb (u "facts") (u "insights")) with false.
  change (PyStr.eqb (u "quotes") (u "insights")) with false.
  change (PyStr.eqb (u "insights") (u "insights")) with true.
  change (PyStr.eqb (u "ideas") (u "insights")) with false.
  cbv iota.
  rewrite get_put_tldr_other by discriminate.
  destruct (section_items re_insights insight_of_line content); reflexivity.
Qed.

Lemma parse_quotes (content video_id : str) :
  get (u "quotes") (parse_markdown_summary content video_id)
  = capped 5 (section_items re_quotes quote_of_line content).
Proof.
  unfold parse_markdown_summary.
  rewrite get_put_takeaway_other by discriminate.
  rewrite !get_put_section.
  change (PyStr.eqb (u "facts") (u "quotes")) with false.
  change (PyStr.eqb (u "quotes") (u "quotes")) with true.
  change (PyStr.eqb (u "insights") (u "quotes")) with false.
  change (PyStr.eqb (u "ideas") (u "quotes")) with false.
  cbv iota.
  rewrite get_put_tldr_other by discriminate.
  destruct (section_items re_quotes quote_of_line content); reflexivity.
Qed.

Lemma parse_facts (content video_id : str) :
  get (u "facts") (parse_markdown_summary content video_id)
  = capped 8 (section_items re_facts fact_of_line content).
Proof.
  unfold parse_markdown_summary.
  rewrite get_put_takeaway_other by discriminate.
  rewrite !get_put_section.
  change (PyStr.eqb (u "facts") (u "facts")) with true.
  change (PyStr.eqb (u "quotes") (u "facts")) with false.
  change (PyStr.eqb (u "insights") (u "facts")) with false.
  change (PyStr.eqb (u "ideas") (u "facts")) with false.
  cbv iota.
  rewrite get_put_tldr_other by discriminate.
  destruct (section_items re_facts fact_of_line content); reflexivity.
Qed.

Lemma capped_length (cap : nat) (items : option (list json)) (l : list json) :
  capped cap items = Some (JList l) -> List.length l <= cap.
Proof.
  destruct items as [l0|]; cbn [capped]; [|discriminate].
  intros E. assert (El : l = firstn cap l0) by congruence.
  rewrite El. apply firstn_le_length.
Qed.

End Normalizer.
(* ===================================================================== *)
(** ** The synthesizer: statistics *)
(* ===================================================================== *)

Section Stats.

Import RecordVideo GenerateViz.

Lemma accept_take (text suffix : str) (st : scan_state) (m : str) :
  accept text suffix st m = take st (candidate text suffix m).
Proof. destruct st; reflexivity. Qed.

Lemma fold_left_map {A B C : Type} (f : A -> C -> A) (g : B -> C)
      (l : list B) (a : A) :
  fold_left (fun acc b => f acc (g b)) l a = fold_left f (map g l) a.
Proof. revert a; induction l; simpl; auto. Qed.

Lemma fold_left_flat_map {A B C : Type} (f : A -> C -> A) (g : B -> list C)
      (l : list B) (a : A) :
  fold_left (fun acc b => fold_left f (g b) acc) l a
  = fold_left f (flat_map g l) a.
Proof.
  revert a; induction l as [|b l IH]; intros a; simpl; auto.
  rewrite fold_left_app. apply IH.
Qed.

Lemma fold_left_ext {A B : Type} (f g : A -> B -> A) (l : list B) (a : A) :
  (forall x y, f x y = g x y) -> fold_left f l a = fold_left g l a.
Proof.
  intros H. revert a; induction l; simpl; intros; auto.
  rewrite H; auto.
Qed.

Lemma scan_pattern_take (text : str) (st : scan_state) (ps : regex * str) :
  scan_pattern text st ps
  = fold_left take (map (candidate text (snd ps)) (findall (fst ps) text)) st.
Proof.
  unfold scan_pattern. rewrite <- fold_left_map.
  apply fold_left_ext. intros; apply accept_take.
Qed.

Lemma scan_one_text (text : str) (st : scan_state) :
  fold_left (scan_pattern text) patterns st
  = fold_left take (candidates_of_text text) st.
Proof.
  unfold candidates_of_text.
  rewrite <- fold_left_flat_map.
  apply fold_left_ext. intros; apply scan_pattern_take.
Qed.

Lemma scan_texts (texts : list str) (st : scan_state) :
  fold_left scan_text (map JStr texts) (Some st)
  = Some (fold_left take (candidates texts) st).
Proof.
  revert st. induction texts as [|t texts IH]; intros st; [reflexivity|].
  cbn [map fold_left].
  change (scan_text (Some st) (JStr t))
    with (Some (fold_left (scan_pattern t) patterns st)).
  rewrite scan_one_text, IH. unfold candidates. cbn [flat_map].
  rewrite fold_left_app. reflexivity.
Qed.

(** The loop computes the first six of the deduplicated candidates. *)
Lemma take_step (stats : list stat) (seen : list str) (c : stat) :
  take (stats, seen) c =
  if negb (mem_str (value c) seen) && (List.length stats <? 6)
  then (stats ++ [c], value c :: seen)
  else (stats, seen).
Proof. reflexivity. Qed.

Lemma take_firstn (cands : list stat) (stats : list stat) (seen : list str) :
  List.length stats <= 6 ->
  fst (fold_left take cands (stats, seen))
  = stats ++ firstn (6 - List.length stats) (dedup_first seen cands).
Proof.
  revert stats seen.
  induction cands as [|c cands IH]; intros stats seen Hlen.
  - cbn [fold_left dedup_first fst]. rewrite firstn_nil, app_nil_r.
    reflexivity.
  - cbn [fold_left dedup_first]. rewrite take_step.
    destruct (mem_str (value c) seen) eqn:Hmem; cbn [negb andb].
    + apply IH; assumption.
    + destruct (List.length stats <? 6) eqn:Hlt.
      * apply Nat.ltb_lt in Hlt.
        rewrite IH by (rewrite length_app; cbn [List.length]; lia).
        rewrite length_app; cbn [List.length].
        replace (6 - List.length stats) with (S (6 - (List.length stats + 1)))
          by lia.
        rewrite firstn_cons, <- app_assoc. reflexivity.
      * apply Nat.ltb_ge in Hlt.
        rewrite IH by assumption.
        replace (6 - List.length stats) with 0 by lia.
        reflexivity.
Qed.

Lemma mem_str_In (k : str) (ks : list str) :
  mem_str k ks = true <-> In k ks.
Proof.
  unfold mem_str. rewrite existsb_exists. split.
  - intros (x & Hin & E). apply eqb_eq in E; subst; assumption.
  - intros H; exists k; split; [assumption | apply eqb_refl].
Qed.

Lemma dedup_first_fresh (seen : list str) (l : list stat) (c : stat) :
  In c (dedup_first seen l) -> ~ In (value c) seen /\ In c l.
Proof.
  revert seen; induction l as [|x l IH]; intros seen; simpl; [tauto|].
  destruct (mem_str (value x) seen) eqn:Hmem.
  - intros H; apply IH in H. tauto.
  - intros [<-|H].
    + split; [|auto]. rewrite <- mem_str_In, Hmem. discriminate.
    + apply IH in H. simpl in H. tauto.
Qed.

Lemma dedup_first_NoDup (seen : list str) (l : list stat) :
  NoDup (map value (dedup_first seen l)).
Proof.
  revert seen; induction l as [|x l IH]; intros seen; simpl.
  - constructor.
  - destruct (mem_str (value x) seen); [apply IH|].
    simpl. constructor; [|apply IH].
    rewrite in_map_iff. intros (c & Hv & Hin).
    apply dedup_first_fresh in Hin. destruct Hin as [Hn _].
    apply Hn. rewrite Hv. simpl; auto.
Qed.

Lemma In_firstn_In {A : Type} (n : nat) (l : list A) (x : A) :
  In x (firstn n l) -> In x l.
Proof.
  revert n; induction l as [|y l IH]; intros [|n]; simpl; try tauto.
  intros [E|H]; eauto.
Qed.

Lemma NoDup_firstn {A : Type} (n : nat) (l : list A) :
  NoDup l -> NoDup (firstn n l).
Proof.
  intros H. revert n; induction H as [|x l Hx Hl IH]; intros [|n]; simpl;
    try constructor; auto.
  intros Hin. apply Hx. eapply In_firstn_In; eauto.
Qed.

(** A value kept by the deduplication is the value of no earlier
    candidate. *)
Lemma dedup_first_first (l : list stat) (c : stat) :
  In c (dedup_first [] l) ->
  exists l1 l2, l = l1 ++ c :: l2 /\ ~ In (value c) (map value l1).
Proof.
  assert (G : forall seen, In c (dedup_first seen l) ->
            exists l1 l2, l = l1 ++ c :: l2 /\ ~ In (value c) (map value l1)).
  { induction l as [|x l IH]; intros seen; simpl; [tauto|].
    destruct (mem_str (value x) seen) eqn:Hmem.
    - intros H.
      pose proof (dedup_first_fresh _ _ _ H) as [Hfresh _].
      destruct (IH _ H) as (l1 & l2 & -> & Hn).
      exists (x :: l1), l2. split; [reflexivity|].
      simpl. intros [E|E]; [|tauto].
      apply Hfresh. rewrite <- E. apply mem_str_In. assumption.
    - intros [<-|H].
      + exists [], l. split; [reflexivity | simpl; tauto].
      + pose proof (dedup_first_fresh _ _ _ H) as [Hfresh _].
        destruct (IH _ H) as (l1 & l2 & -> & Hn).
        exists (x :: l1), l2. split; [reflexivity|].
        simpl. intros [E|E]; [|tauto].
        apply Hfresh. simpl; auto. }
  apply G.
Qed.

End Stats.
Section StatsResults.

Import RecordVideo GenerateViz.

Lemma mapM_map_Some {A B : Type} (f : A -> option B) (g : B -> A)
      (l : list B) :
  (forall b, f (g b) = Some b) -> mapM f (map g l) = Some l.
Proof.
  intros H. induction l as [|b l IH]; simpl; auto.
  rewrite H; simpl. rewrite IH; reflexivity.
Qed.

Lemma extract_stats_of_texts (summary : dict) (texts : list str) :
  all_text summary = Some (map JStr texts) ->
  extract_stats summary
  = Some (firstn 6 (dedup_first [] (candidates texts))).
Proof.
  intros H. unfold extract_stats. rewrite H. cbn [bind].
  rewrite scan_texts. cbn [bind].
  rewrite take_firstn by (simpl; lia).
  cbn [List.length app]. rewrite Nat.sub_0_r.
  rewrite firstn_firstn. reflexivity.
Qed.

Lemma all_text_app (summary : dict) (facts ideas : list str) :
  get_default (u "facts") (JList []) summary = JList (map JStr facts) ->
  idea_texts (get_default (u "ideas") (JList []) summary)
  = Some (map JStr ideas) ->
  all_text summary = Some (map JStr (facts ++ ideas)).
Proof.
  intros Hf Hi. unfold all_text. rewrite Hi, Hf. cbn [bind].
  rewrite map_app. reflexivity.
Qed.

(** C6. The statistics of a run are the first six of the candidates left
    after exact-string deduplication of their values, the first occurrence
    winning, where the candidates are listed in scan order: those of the
    facts before those of the idea texts, text by text, and within a text
    pattern by pattern in the order of the table.  Hence the values are
    pairwise distinct and there are at most six.  A value is the match
    followed by the suffix of its pattern, except for the currency pattern,
    whose value is the match preceded by the dollar sign. *)
Theorem C6_extract_stats_dedup_scan_order :
  forall (summary : dict) (facts ideas : list str),
    get_default (u "facts") (JList []) summary = JList (map JStr facts) ->
    idea_texts (get_default (u "ideas") (JList []) summary)
    = Some (map JStr ideas) ->
    exists stats,
      extract_stats summary = Some stats
      /\ stats = firstn 6 (dedup_first []
                             (flat_map candidates_of_text facts
                              ++ flat_map candidates_of_text ideas))
      /\ NoDup (map value stats)
      /\ List.length stats <= 6
      /\ (forall c, In c stats ->
            exists before after,
              candidates (facts ++ ideas) = before ++ c :: after
              /\ ~ In (value c) (map value before))
      /\ (forall text,
            candidates_of_text text
            = flat_map (fun ps => map (candidate text (snd ps))
                                      (findall (fst ps) text)) patterns)
      /\ map snd patterns
         = [u "万"; u "亿"; u "%"; u "$"; u "年"; u "倍"]
      /\ (forall text suffix m,
            label (candidate text suffix m) = strip (firstn 20 text)
            /\ (suffix <> u "$" ->
                value (candidate text suffix m) = m ++ suffix)
            /\ (suffix = u "$" ->
                value (candidate text suffix m) = u "$" ++ m)).
Proof.
  intros summary facts ideas Hf Hi.
  pose proof (@all_text_app summary facts ideas Hf Hi) as Hall.
  exists (firstn 6 (dedup_first [] (candidates (facts ++ ideas)))).
  split; [apply extract_stats_of_texts; assumption|].
  split; [unfold candidates; rewrite flat_map_app; reflexivity|].
  split; [rewrite <- firstn_map; apply NoDup_firstn, dedup_first_NoDup|].
  split; [apply firstn_le_length|].
  split.
  { intros c Hc. apply In_firstn_In in Hc.
    apply dedup_first_first in Hc. exact Hc. }
  split; [reflexivity|].
  split; [reflexivity|].
  intros text suffix m. split; [reflexivity|]. split.
  - intros Hne. apply eqb_neq in Hne.
    unfold candidate, stat_value; cbn [value]. rewrite Hne. reflexivity.
  - intros ->. reflexivity.
Qed.

Lemma C6_extract_stats_dedup_scan_order_witness :
  extract_stats example_stats_summary
  = Some [Stat (u "12万") (u "营收增长 30%，用户达到12万");
          Stat (u "30%") (u "营收增长 30%，用户达到12万");
          Stat (u "$4.5M") (u "融资 $4.5M，占比30 %");
          Stat (u "2020-2023年") (u "2020-2023年增长3.5倍，12万");
          Stat (u "3.5倍") (u "2020-2023年增长3.5倍，12万")].
Proof.
  destruct (@C6_extract_stats_dedup_scan_order
              example_stats_summary
              [u "营收增长 30%，用户达到12万"; u "融资 $4.5M，占比30 %"]
              [u "2020-2023年增长3.5倍，12万用户"; u "成本下降 30%"]
              eq_refl eq_refl) as (stats & -> & -> & _).
  vm_compute. reflexivity.
Defined.

End StatsResults.
(* ===================================================================== *)
(** ** The synthesizer: mindmap, comparison and tags *)
(* ===================================================================== *)

Section Synthesizer.

Import RecordVideo GenerateViz.

Lemma mindmap_root_str (t : str) : exists r, mindmap_root (JStr t) = Some r.
Proof.
  unfold mindmap_root; cbn [py_len bind].
  destruct (30 <? List.length t); eauto.
Qed.

Lemma generate_mindmap_total (s : dict) :
  synthesizable s -> exists mm, generate_mindmap s = Some mm.
Proof.
  intros ((texts & Ht) & _ & (l & Hl) & (t & Htl)).
  unfold generate_mindmap. rewrite Ht, Hl, Htl. cbn [bind].
  destruct (mindmap_root_str t) as (r & Hr). rewrite Hr.
  destruct (truthy (JList l)); cbn [slice_to bind]; eauto.
Qed.

Lemma detect_comparison_total (s : dict) :
  synthesizable s -> exists b, detect_comparison s = Some b.
Proof.
  intros ((texts & Ht) & _).
  unfold detect_comparison, joined_idea_texts. rewrite Ht. cbn [bind].
  rewrite (mapM_map_Some as_str JStr) by reflexivity.
  cbn [bind]. eauto.
Qed.

Lemma extract_stats_total (s : dict) :
  synthesizable s -> exists stats, extract_stats s = Some stats.
Proof.
  intros ((texts & Ht) & (facts & Hf) & _).
  rewrite (@extract_stats_of_texts s (facts ++ texts)
             (@all_text_app s facts texts Hf Ht)).
  eauto.
Qed.

Lemma generate_viz_data_total (s : dict) :
  synthesizable s -> exists viz tags, generate_viz_data s = Some (viz, tags).
Proof.
  intros H.
  destruct (@generate_mindmap_total s H) as (mm & Hmm).
  destruct (@extract_stats_total s H) as (stats & Hst).
  destruct (@detect_comparison_total s H) as (b & Hb).
  unfold generate_viz_data. rewrite Hmm, Hst, Hb. cbn [bind].
  destruct (truthy (JList (map stat_json stats))); eauto.
Qed.

(** What [generate_viz_data] returns, by its three parts. *)
Lemma generate_viz_data_inv (s : dict) (viz : dict) (tags : list str) :
  generate_viz_data s = Some (viz, tags) ->
  exists mm stats cmp,
    generate_mindmap s = Some mm
    /\ extract_stats s = Some stats
    /\ detect_comparison s = Some cmp
    /\ tags = (if truthy (JList (map stat_json stats)) then [u "stats"]
               else [])
              ++ (if cmp then [u "comparison"] else [])
    /\ viz = (let v := if truthy (mindmap_children mm)
                       then set (u "mindmap") mm [] else [] in
              if truthy (JList (map stat_json stats))
              then set (u "stats") (JList (map stat_json stats)) v else v).
Proof.
  unfold generate_viz_data.
  destruct (generate_mindmap s) as [mm|]; [|discriminate].
  destruct (extract_stats s) as [stats|]; [|discriminate].
  cbn [bind].
  destruct (truthy (JList (map stat_json stats))) eqn:Et;
    cbv beta iota zeta;
    (destruct (detect_comparison s) as [cmp|]; [|discriminate]);
    cbn [bind]; intros H; exists mm, stats, cmp;
    repeat (split; [reflexivity|]); rewrite Et;
    destruct cmp; injection H as <- <-; split; reflexivity.
Qed.

Lemma truthy_stats (stats : list stat) :
  truthy (JList (map stat_json stats)) = true <-> stats <> [].
Proof. destruct stats; simpl; split; congruence. Qed.

Lemma In_tags (t : str) (with_stats cmp : bool) :
  In t ((if with_stats then [u "stats"] else [])
        ++ (if cmp then [u "comparison"] else []))
  <-> (with_stats = true /\ t = u "stats")
      \/ (cmp = true /\ t = u "comparison").
Proof.
  destruct with_stats, cmp; cbn [app In];
    intuition (try discriminate; auto).
Qed.

Lemma get_stats_viz (mm : json) (stats : list stat) :
  get (u "stats")
      (let v := if truthy (mindmap_children mm)
                then set (u "mindmap") mm [] else [] in
       if truthy (JList (map stat_json stats))
       then set (u "stats") (JList (map stat_json stats)) v else v)
  = if truthy (JList (map stat_json stats))
    then Some (JList (map stat_json stats)) else None.
Proof.
  cbv zeta.
  destruct (truthy (JList (map stat_json stats)));
    [apply get_set_same|].
  destruct (truthy (mindmap_children mm)); reflexivity.
Qed.

(** C8. Whenever the synthesis returns, the tag "stats" is among the tags
    exactly when the extracted statistics are not empty, and the tag
    "comparison" exactly when a keyword of the lexicon occurs in the idea
    texts joined by single spaces; there is no other tag, so the mindmap
    adds none.  The synthesis returns on every summary whose fields have
    the types of a StructuredSummary.  The idea texts of the
    specification's example yield "comparison". *)
Theorem C8_suggested_viz_tags :
  forall (s : dict),
    (forall viz tags,
        generate_viz_data s = Some (viz, tags) ->
        exists stats joined,
          extract_stats s = Some stats
          /\ joined_idea_texts s = Some joined
          /\ (In (u "stats") tags <-> stats <> [])
          /\ (In (u "comparison") tags <->
              exists kw, In kw comparison_keywords
                         /\ contains kw joined = true)
          /\ (forall t, In t tags -> t = u "stats" \/ t = u "comparison")
          /\ (get (u "stats") viz = Some (JList (map stat_json stats))
              <-> stats <> []))
    /\ (synthesizable s ->
        exists viz tags, generate_viz_data s = Some (viz, tags))
    /\ (forall ts1 ts2,
           exists viz tags,
             generate_viz_data
               [(u "tldr", JStr (u "x"));
                (u "ideas", JList [idea (u "传统方案成本更高") ts1;
                                   idea (u "新型方案更高效") ts2]);
                (u "insights", JList [])]
             = Some (viz, tags)
             /\ In (u "comparison") tags).
Proof.
  intros s. split; [|split].
  - intros viz tags H.
    destruct (@generate_viz_data_inv s viz tags H)
      as (mm & stats & cmp & Hmm & Hst & Hcmp & -> & ->).
    unfold detect_comparison in Hcmp.
    destruct (joined_idea_texts s) as [joined|] eqn:Hj; [|discriminate].
    assert (Hcmp' : existsb (fun kw => contains kw joined)
                            comparison_keywords = cmp)
      by (cbn [bind] in Hcmp; congruence).
    exists stats, joined. split; [exact Hst|]. split; [reflexivity|].
    pose proof (truthy_stats stats) as Hts.
    assert (Hkw : cmp = true <->
                  exists kw, In kw comparison_keywords
                             /\ contains kw joined = true).
    { rewrite <- Hcmp'. apply existsb_exists. }
    split; [|split; [|split]].
    + rewrite In_tags, <- Hts. split.
      * intros [[E _]|[_ E]]; [exact E | discriminate E].
      * intros E. left. split; [exact E | reflexivity].
    + rewrite In_tags, <- Hkw. split.
      * intros [[_ E]|[E _]]; [discriminate E | exact E].
      * intros E. right. split; [exact E | reflexivity].
    + intros t Ht. apply In_tags in Ht.
      destruct Ht as [[_ E]|[_ E]]; [left | right]; exact E.
    + rewrite get_stats_viz, <- Hts.
      destruct (truthy (JList (map stat_json stats))); split;
        congruence.
  - apply generate_viz_data_total.
  - intros ts1 ts2. exists [], [u "comparison"].
    split; [reflexivity | left; reflexivity].
Qed.

Lemma example_stats_run :
  extract_stats example_stats_summary
  = Some [Stat (u "12万") (u "营收增长 30%，用户达到12万");
          Stat (u "30%") (u "营收增长 30%，用户达到12万");
          Stat (u "$4.5M") (u "融资 $4.5M，占比30 %");
          Stat (u "2020-2023年") (u "2020-2023年增长3.5倍，12万");
          Stat (u "3.5倍") (u "2020-2023年增长3.5倍，12万")].
Proof. vm_compute. reflexivity. Qed.

Lemma C8_suggested_viz_tags_witness :
  exists viz tags,
    generate_viz_data example_stats_summary = Some (viz, tags)
    /\ In (u "stats") tags /\ ~ In (u "comparison") tags.
Proof.
  destruct (@C8_suggested_viz_tags example_stats_summary) as (Hret & Htot & _).
  destruct Htot as (viz & tags & Hgen).
  { repeat split.
    - exists [u "2020-2023年增长3.5倍，12万用户"; u "成本下降 30%"]. reflexivity.
    - exists [u "营收增长 30%，用户达到12万"; u "融资 $4.5M，占比30 %"].
      reflexivity.
    - exists []. reflexivity.
    - exists []. reflexivity. }
  exists viz, tags. split; [exact Hgen|].
  destruct (Hret viz tags Hgen)
    as (stats & joined & Hst & Hj & Hs & Hc & _).
  rewrite example_stats_run in Hst.
  injection Hst as <-. injection Hj as <-.
  split.
  - apply Hs. discriminate.
  - intros Hin. apply Hc in Hin. destruct Hin as (kw & Hkw & Hcontains).
    simpl in Hkw.
    repeat (destruct Hkw as [<-|Hkw]; [vm_compute in Hcontains; discriminate|]).
    exact Hkw.
Defined.

End Synthesizer.
Section Mindmap.

Import GenerateViz.

Lemma get_mindmap_viz (mm : json) (stats : list stat) :
  get (u "mindmap")
      (let v := if truthy (mindmap_children mm)
                then set (u "mindmap") mm [] else [] in
       if truthy (JList (map stat_json stats))
       then set (u "stats") (JList (map stat_json stats)) v else v)
  = if truthy (mindmap_children mm) then Some mm else None.
Proof.
  cbv zeta.
  destruct (truthy (JList (map stat_json stats)));
    [rewrite get_set_other by discriminate|];
    destruct (truthy (mindmap_children mm)); reflexivity.
Qed.

(** C4, as the code has it.  For a summary without insights and without a
    takeaway: with exactly two ideas the mindmap has no branch and is left
    out of the visualisation data; with exactly three ideas it has three
    branches, "核心观点", "关键论据" and "延伸思考" in this order, holding
    the first, the second and the third idea text respectively, and it is
    part of the visualisation data. *)
Theorem C4_mindmap_threshold_thirds :
  forall (s : dict) (i1 i2 i3 x1 x2 x3 root : json),
    truthy (get_default (u "insights") (JList []) s) = false ->
    truthy (get_default (u "takeaway") (JStr []) s) = false ->
    mindmap_root (get_default (u "tldr") (JStr []) s) = Some root ->
    idea_text i1 = Some x1 ->
    idea_text i2 = Some x2 ->
    idea_text i3 = Some x3 ->
    (get_default (u "ideas") (JList []) s = JList [i1; i2] ->
     generate_mindmap s
     = Some (JDict [(u "root", root); (u "children", JList [])])
     /\ forall viz tags, generate_viz_data s = Some (viz, tags) ->
                         get (u "mindmap") viz = None)
    /\
    (get_default (u "ideas") (JList []) s = JList [i1; i2; i3] ->
     generate_mindmap s
     = Some (JDict [(u "root", root);
                    (u "children",
                     JList [branch (u "核心观点") (JList [x1]);
                            branch (u "关键论据") (JList [x2]);
                            branch (u "延伸思考") (JList [x3])])])
     /\ forall viz tags, generate_viz_data s = Some (viz, tags) ->
          get (u "mindmap") viz
          = Some (JDict [(u "root", root);
                         (u "children",
                          JList [branch (u "核心观点") (JList [x1]);
                                 branch (u "关键论据") (JList [x2]);
                                 branch (u "延伸思考") (JList [x3])])])).
Proof.
  intros s i1 i2 i3 x1 x2 x3 root Hins Htk Hroot H1 H2 H3.
  split; intros Hideas.
  - assert (Hmm : generate_mindmap s
                  = Some (JDict [(u "root", root); (u "children", JList [])])).
    { unfold generate_mindmap, idea_texts.
      rewrite Hideas, Hins, Htk, Hroot. cbn [iterate bind mapM].
      rewrite H1, H2. reflexivity. }
    split; [exact Hmm|].
    intros viz tags Hgen.
    destruct (@generate_viz_data_inv s viz tags Hgen)
      as (mm & stats & cmp & Hmm' & _ & _ & _ & ->).
    rewrite Hmm in Hmm'. injection Hmm' as <-.
    rewrite get_mindmap_viz. reflexivity.
  - assert (Hmm : generate_mindmap s
                  = Some (JDict [(u "root", root);
                    (u "children",
                     JList [branch (u "核心观点") (JList [x1]);
                            branch (u "关键论据") (JList [x2]);
                            branch (u "延伸思考") (JList [x3])])])).
    { unfold generate_mindmap, idea_texts.
      rewrite Hideas, Hins, Htk, Hroot. cbn [iterate bind mapM].
      rewrite H1, H2, H3. reflexivity. }
    split; [exact Hmm|].
    intros viz tags Hgen.
    destruct (@generate_viz_data_inv s viz tags Hgen)
      as (mm & stats & cmp & Hmm' & _ & _ & _ & ->).
    rewrite Hmm in Hmm'. injection Hmm' as <-.
    rewrite get_mindmap_viz. reflexivity.
Qed.

Lemma C4_mindmap_threshold_thirds_witness :
  generate_mindmap two_ideas
  = Some (JDict [(u "root", JStr (u "x")); (u "children", JList [])])
  /\ generate_mindmap three_ideas
     = Some (JDict [(u "root", JStr (u "x"));
                    (u "children",
                     JList [branch (u "核心观点") (JList [JStr (u "a")]);
                            branch (u "关键论据") (JList [JStr (u "b")]);
                            branch (u "延伸思考") (JList [JStr (u "c")])])]).
Proof.
  split.
  - exact (proj1 (proj1 (@C4_mindmap_threshold_thirds
                           two_ideas (idea (u "a") JNull)
                           (idea (u "b") (JInt 725)) (idea (u "c") JNull)
                           (JStr (u "a")) (JStr (u "b")) (JStr (u "c"))
                           (JStr (u "x"))
                           eq_refl eq_refl eq_refl eq_refl eq_refl eq_refl)
                        eq_refl)).
  - exact (proj1 (proj2 (@C4_mindmap_threshold_thirds
                           three_ideas (idea (u "a") JNull)
                           (idea (u "b") (JInt 725)) (idea (u "c") JNull)
                           (JStr (u "a")) (JStr (u "b")) (JStr (u "c"))
                           (JStr (u "x"))
                           eq_refl eq_refl eq_refl eq_refl eq_refl eq_refl)
                        eq_refl)).
Defined.

(** With exactly three ideas and neither insights nor takeaway the mindmap
    is not a single branch holding the three ideas: it has three branches
    of one idea each. *)
Lemma C4_three_ideas_counterexample :
  generate_viz_data three_ideas
  = Some ([(u "mindmap",
            JDict [(u "root", JStr (u "x"));
                   (u "children",
                    JList [branch (u "核心观点") (JList [JStr (u "a")]);
                           branch (u "关键论据") (JList [JStr (u "b")]);
                           branch (u "延伸思考") (JList [JStr (u "c")])])])],
          [])
  /\ generate_mindmap three_ideas
     <> Some (JDict [(u "root", JStr (u "x"));
                     (u "children",
                      JList [branch (u "核心观点")
                                    (JList [JStr (u "a"); JStr (u "b");
                                            JStr (u "c")])])]).
Proof.
  split; [vm_compute; reflexivity|].
  vm_compute. discriminate.
Qed.

End Mindmap.
(* ===================================================================== *)
(** ** The drivers: what a run leaves untouched *)
(* ===================================================================== *)

Section Drivers.

Lemma videos_of_set (top : dict) (l : list json) :
  videos_of (JDict (set (u "videos") (JList l) top)) = l.
Proof. unfold videos_of. rewrite get_set_same. reflexivity. Qed.

Lemma truthy_at_has (k : str) (d : dict) :
  truthy_at k d = true -> has k d = true.
Proof. unfold truthy_at, has. destruct (get k d); auto. Qed.

Lemma nth_error_list_set {A : Type} (idx i : nat) (x : A) (l : list A) :
  i <> idx ->
  nth_error (ImportSummaries.list_set idx x l) i = nth_error l i.
Proof.
  revert idx i; induction l as [|y l IH]; intros [|idx] [|i] H; simpl;
    auto; try congruence.
Qed.

(** *** import_summaries.py *)

Section ImportStage.

Import ImportSummaries.

Variable video_map : dict.

Lemma process_item_kept (videos vs vs' : list json) (it : item) :
  kept videos vs ->
  process_item video_map (Some vs) it = Some vs' ->
  kept videos vs'.
Proof.
  intros Hk. unfold process_item. cbn [bind].
  destruct (item_source it) as [[video_id|] [content|]];
    try (intros [= <-]; exact Hk).
  destruct (truthy (JStr video_id) && truthy (JStr content));
    [|intros [= <-]; exact Hk].
  destruct (get video_id video_map) as [[| | z | | | |]|];
    try (intros [= <-]; exact Hk).
  destruct (nth_error vs (Z.to_nat z)) as [[| | | | | |video]|] eqn:Hnth;
    try discriminate.
  destruct (negb (has (u "summary") video)
            || negb (truthy_at (u "summary") video)) eqn:Hguard;
    [|intros [= <-]; exact Hk].
  destruct (truthy_at (u "ideas") (parse_markdown_summary content video_id)
            || truthy_at (u "insights")
                         (parse_markdown_summary content video_id));
    [|intros [= <-]; exact Hk].
  destruct (py_len _) as [n|]; [|discriminate]. cbn [bind].
  destruct (get (u "title") _) as [title|]; [|discriminate]. cbn [bind].
  destruct (slice_to 40 title); [|discriminate]. cbn [bind].
  intros [= <-]. intros i v Hv Ht.
  destruct (Nat.eq_dec i (Z.to_nat z)) as [->|Hne].
  - pose proof (Hk _ _ Hv Ht) as Hcur. rewrite Hnth in Hcur.
    injection Hcur as ->.
    rewrite Ht, (truthy_at_has _ _ Ht) in Hguard. discriminate.
  - rewrite nth_error_list_set by assumption. apply Hk; assumption.
Qed.

Lemma process_item_None (its : list item) :
  fold_left (process_item video_map) its None = None.
Proof. induction its; cbn [fold_left]; auto. Qed.

Lemma process_items_kept (videos : list json) (its : list item)
      (vs vs' : list json) :
  kept videos vs ->
  fold_left (process_item video_map) its (Some vs) = Some vs' ->
  kept videos vs'.
Proof.
  revert vs; induction its as [|it its IH]; intros vs Hk;
    cbn [fold_left].
  - intros [= <-]; exact Hk.
  - destruct (process_item video_map (Some vs) it) as [vs1|] eqn:E.
    + apply IH. eapply process_item_kept; eauto.
    + rewrite process_item_None. discriminate.
Qed.

End ImportStage.

Lemma import_run_keeps (data : json) (items : list ImportSummaries.item)
      (i : nat) (v : dict) :
  nth_error (videos_of data) i = Some (JDict v) ->
  truthy_at (u "summary") v = true ->
  nth_error (videos_of (ImportSummaries.store_after data items)) i
  = Some (JDict v).
Proof.
  intros Hv Ht. unfold ImportSummaries.store_after, ImportSummaries.main.
  destruct data as [| | | | | |top]; try exact Hv.
  destruct (get (u "videos") top) as [vs|] eqn:Hvs; [|exact Hv].
  cbn [bind].
  destruct (iterate vs) as [videos|] eqn:Hit; [|exact Hv]. cbn [bind].
  destruct (ImportSummaries.build_video_map 0 videos []) as [vmap|];
    [|exact Hv].
  cbn [bind].
  destruct (fold_left (ImportSummaries.process_item vmap) items (Some videos))
    as [videos'|] eqn:Hfold; [|exact Hv].
  cbn [bind].
  destruct vs; try exact Hv.
  rewrite videos_of_set.
  injection Hit as <-.
  unfold videos_of in Hv. rewrite Hvs in Hv.
  eapply process_items_kept; [|exact Hfold|exact Hv|exact Ht].
  intros j w Hw _. exact Hw.
Qed.

(** *** generate_viz.py *)

Lemma process_video_skips (v sm : dict) :
  get (u "summary") v = Some (JDict sm) ->
  truthy_at (u "viz_data") sm = true ->
  GenerateViz.process_video (JDict v) = Some (JDict v).
Proof.
  intros Hs Hviz. unfold GenerateViz.process_video, get_default.
  rewrite Hs, Hviz. reflexivity.
Qed.

Lemma mapM_nth_error {A B : Type} (f : A -> option B) (l : list A)
      (l' : list B) (i : nat) (a : A) :
  mapM f l = Some l' -> nth_error l i = Some a ->
  exists b, f a = Some b /\ nth_error l' i = Some b.
Proof.
  revert l' i; induction l as [|x l IH]; intros l' i; simpl.
  - destruct i; discriminate.
  - destruct (f x) as [b|] eqn:Hfx; [|discriminate]. cbn [bind].
    destruct (mapM f l) as [bs|]; [|discriminate]. cbn [bind].
    intros [= <-]. destruct i as [|i]; simpl.
    + intros [= <-]. eauto.
    + intros H. eapply IH; eauto.
Qed.

Lemma viz_run_keeps (data : json) (i : nat) (v sm : dict) :
  nth_error (videos_of data) i = Some (JDict v) ->
  get (u "summary") v = Some (JDict sm) ->
  truthy_at (u "viz_data") sm = true ->
  nth_error (videos_of (GenerateViz.store_after data)) i = Some (JDict v).
Proof.
  intros Hv Hs Hviz. unfold GenerateViz.store_after, GenerateViz.main.
  destruct data as [| | | | | |top]; try exact Hv.
  destruct (get (u "videos") top) as [vs|] eqn:Hvs; [|exact Hv].
  cbn [bind].
  destruct (iterate vs) as [videos|] eqn:Hit; [|exact Hv]. cbn [bind].
  destruct (mapM GenerateViz.process_video videos) as [videos'|] eqn:Hmap;
    [|exact Hv].
  cbn [bind].
  destruct vs; try exact Hv.
  rewrite videos_of_set.
  injection Hit as <-.
  unfold videos_of in Hv. rewrite Hvs in Hv.
  destruct (mapM_nth_error _ _ _ Hmap Hv) as (b & Hb & Hnth).
  rewrite (process_video_skips _ Hs Hviz) in Hb.
  injection Hb as <-. exact Hnth.
Qed.

Lemma has_content_truthy (v sm : dict) :
  get (u "summary") v = Some (JDict sm) -> has_content sm ->
  truthy_at (u "summary") v = true.
Proof.
  intros Hs Hc. unfold truthy_at. rewrite Hs.
  destruct sm as [|kv sm]; [|reflexivity].
  destruct Hc as [Hc|Hc]; discriminate Hc.
Qed.

(** C9, as the code has it.  A run of the import stage leaves unchanged
    every stored record that carries a summary with ideas or insights that
    are not empty.  A run of the synthesis stage leaves unchanged every
    stored record whose summary carries visualisation data that are not
    empty. *)
Theorem C9_rerun_keeps_stored_records :
  forall (data : json) (items : list ImportSummaries.item)
         (i : nat) (v sm : dict),
    nth_error (videos_of data) i = Some (JDict v) ->
    get (u "summary") v = Some (JDict sm) ->
    (has_content sm ->
     nth_error (videos_of (ImportSummaries.store_after data items)) i
     = Some (JDict v))
    /\ (truthy_at (u "viz_data") sm = true ->
        nth_error (videos_of (GenerateViz.store_after data)) i
        = Some (JDict v)).
Proof.
  intros data items i v sm Hv Hs. split.
  - intros Hc. apply import_run_keeps; [exact Hv|].
    eapply has_content_truthy; eauto.
  - intros Hviz. eapply viz_run_keeps; eauto.
Qed.

Lemma C9_rerun_keeps_stored_records_witness :
  nth_error
    (videos_of (ImportSummaries.store_after
                  stored_data
                  [ImportSummaries.MdFile (u "abc_1")
                     (u "# IDEAS" ++ [10%N] ++ u "- another idea")]))
    0
  = Some (JDict stored_video)
  /\ nth_error (videos_of (GenerateViz.store_after stored_data)) 0
     = Some (JDict stored_video).
Proof.
  pose proof (@C9_rerun_keeps_stored_records
                stored_data
                [ImportSummaries.MdFile (u "abc_1")
                   (u "# IDEAS" ++ [10%N] ++ u "- another idea")]
                0 stored_video
                [(u "videoId", JStr (u "abc")); (u "tldr", JStr (u "x"));
                 (u "ideas", JList [idea (u "a") JNull; idea (u "b") JNull;
                                    idea (u "c") JNull]);
                 (u "insights", JList []);
                 (u "viz_data", JDict [(u "stats", JList [])])]
                eq_refl eq_refl) as [Himport Hviz].
  split.
  - apply Himport. left. reflexivity.
  - apply Hviz. reflexivity.
Defined.

Lemma C9_present_viz_data_counterexample :
  has (u "viz_data")
      [(u "videoId", JStr (u "abc")); (u "tldr", JStr (u "x"));
       (u "ideas", JList [idea (u "a") JNull; idea (u "b") JNull;
                          idea (u "c") JNull]);
       (u "insights", JList []);
       (u "viz_data", JDict [])] = true
  /\ nth_error
       (videos_of
          (GenerateViz.store_after
             (JDict [(u "videos", JList [JDict empty_viz_video])]))) 0
     = Some (JDict
          [(u "id", JStr (u "abc")); (u "title", JStr (u "T"));
           (u "summary",
            JDict [(u "videoId", JStr (u "abc")); (u "tldr", JStr (u "x"));
                   (u "ideas", JList [idea (u "a") JNull; idea (u "b") JNull;
                                      idea (u "c") JNull]);
                   (u "insights", JList []);
                   (u "viz_data",
                    JDict [(u "mindmap",
                            JDict [(u "root", JStr (u "x"));
                                   (u "children",
                                    JList [GenerateViz.branch (u "核心观点")
                                             (JList [JStr (u "a")]);
                                           GenerateViz.branch (u "关键论据")
                                             (JList [JStr (u "b")]);
                                           GenerateViz.branch (u "延伸思考")
                                             (JList [JStr (u "c")])])])])])])
  /\ nth_error
       (videos_of
          (GenerateViz.store_after
             (JDict [(u "videos", JList [JDict empty_viz_video])]))) 0
     <> Some (JDict empty_viz_video).
Proof.
  split; [reflexivity|]. split; [vm_compute; reflexivity|].
  vm_compute. discriminate.
Qed.

End Drivers.
Section NormalizerCaps.

Import ImportSummaries.

Lemma idea_of_line_shape (line : str) :
  Forall is_idea_record (idea_of_line line).
Proof.
  unfold idea_of_line, idea_of_text.
  destruct (is_bullet (strip line)); [|constructor].
  destruct (search re_ts _); repeat constructor; unfold is_idea_record, idea;
    eauto.
Qed.

Lemma kept_if_nonempty (t : str) :
  Forall is_nonempty_str (if truthy (JStr t) then [JStr t] else []).
Proof.
  destruct (truthy (JStr t)) eqn:E; repeat constructor.
  exists t. split; [reflexivity|]. apply truthy_str_nonempty; exact E.
Qed.

Lemma insight_of_line_shape (line : str) :
  Forall is_nonempty_str (insight_of_line line).
Proof.
  unfold insight_of_line.
  destruct (is_bullet (strip line)); [apply kept_if_nonempty|constructor].
Qed.

Lemma quote_of_line_shape (line : str) :
  Forall is_nonempty_str (quote_of_line line).
Proof.
  unfold quote_of_line.
  destruct (is_bullet (strip line)); [apply kept_if_nonempty|constructor].
Qed.

Lemma fact_of_line_shape (line : str) :
  Forall is_nonempty_str (fact_of_line line).
Proof.
  unfold fact_of_line.
  destruct (is_bullet (strip line)); [apply kept_if_nonempty|constructor].
Qed.

Lemma Forall_firstn {A : Type} (P : A -> Prop) (n : nat) (l : list A) :
  Forall P l -> Forall P (firstn n l).
Proof.
  intros H. apply Forall_forall. intros x Hx.
  apply In_firstn_In in Hx. revert x Hx. apply Forall_forall. exact H.
Qed.

(** The items of a stored list section all come from the line function. *)
Lemma capped_Forall (P : json -> Prop) (r : regex)
      (of_line : str -> list json) (cap : nat) (content : str)
      (l : list json) :
  (forall line, Forall P (of_line line)) ->
  capped cap (section_items r of_line content) = Some (JList l) ->
  Forall P l.
Proof.
  intros Hline. unfold section_items, capped.
  destruct (search r content) as [x|]; [|discriminate].
  intros E.
  assert (El : l = firstn cap (flat_map of_line (section_lines x)))
    by congruence.
  rewrite El. apply Forall_firstn.
  apply Forall_flat_map. apply Forall_forall. intros; apply Hline.
Qed.

Lemma idea_records_texts (l : list json) :
  Forall is_idea_record l ->
  exists texts, GenerateViz.idea_texts (JList l) = Some (map JStr texts).
Proof.
  unfold GenerateViz.idea_texts. cbn [iterate bind].
  induction 1 as [|x l (t & ts & ->) _ (texts & IH)].
  - exists []. reflexivity.
  - exists (t :: texts). cbn [mapM]. rewrite IH. reflexivity.
Qed.

Lemma nonempty_strs (l : list json) :
  Forall is_nonempty_str l -> exists texts, l = map JStr texts.
Proof.
  induction 1 as [|x l (t & -> & _) _ (texts & ->)].
  - exists []. reflexivity.
  - exists (t :: texts). reflexivity.
Qed.

Lemma get_parse_tldr_str (content video_id : str) :
  exists t, get_default (u "tldr") (JStr [])
                        (parse_markdown_summary content video_id) = JStr t.
Proof.
  unfold get_default, parse_markdown_summary.
  rewrite get_put_takeaway_other by discriminate.
  rewrite !get_put_section.
  change (PyStr.eqb (u "facts") (u "tldr")) with false.
  change (PyStr.eqb (u "quotes") (u "tldr")) with false.
  change (PyStr.eqb (u "insights") (u "tldr")) with false.
  change (PyStr.eqb (u "ideas") (u "tldr")) with false.
  cbv iota. unfold put_tldr.
  destruct (search re_tldr content).
  - rewrite get_set_same. eauto.
  - cbn. eauto.
Qed.

(** The synthesis never raises on what the normalizer returns. *)
Lemma parse_synthesizable (content video_id : str) :
  synthesizable (parse_markdown_summary content video_id).
Proof.
  unfold synthesizable, get_default.
  rewrite parse_ideas, parse_facts, parse_insights.
  split; [|split; [|split]].
  - destruct (capped 15 _) as [x|] eqn:E.
    + unfold capped in E.
      destruct (section_items re_ideas idea_of_line content) as [l|] eqn:El;
        [|discriminate].
      assert (Ex : x = JList (firstn 15 l)) by congruence. subst x.
      apply idea_records_texts.
      apply (@capped_Forall is_idea_record re_ideas idea_of_line 15 content).
      * apply idea_of_line_shape.
      * rewrite El. reflexivity.
    + exists []. reflexivity.
  - destruct (capped 8 _) as [x|] eqn:E.
    + unfold capped in E.
      destruct (section_items re_facts fact_of_line content) as [l|] eqn:El;
        [|discriminate].
      assert (Ex : x = JList (firstn 8 l)) by congruence. subst x.
      assert (Hf : Forall is_nonempty_str (firstn 8 l)).
      { apply (@capped_Forall is_nonempty_str re_facts fact_of_line 8
                              content).
        - apply fact_of_line_shape.
        - rewrite El. reflexivity. }
      destruct (@nonempty_strs (firstn 8 l) Hf) as (texts & Ht).
      exists texts. rewrite Ht. reflexivity.
    + exists []. reflexivity.
  - destruct (capped 10 _) as [x|] eqn:E.
    + unfold capped in E.
      destruct (section_items re_insights insight_of_line content) as [l|];
        [|discriminate].
      assert (Ex : x = JList (firstn 10 l)) by congruence. subst x.
      eauto.
    + eauto.
  - apply get_parse_tldr_str.
Qed.

(** C2. What the normalizer stores for IDEAS, INSIGHTS, QUOTES and FACTS is
    the first 15, 10, 5 and 8 of the items of the section, in the order of
    the lines they come from, so the stored lists have at most that many
    items.  The statistics extracted from any summary are at most 6, and
    they are extracted, without an error, from every summary the normalizer
    returns. *)
Theorem C2_hard_caps :
  forall (content video_id : str),
    (get (u "ideas") (parse_markdown_summary content video_id)
     = capped 15 (section_items re_ideas idea_of_line content)
     /\ get (u "insights") (parse_markdown_summary content video_id)
        = capped 10 (section_items re_insights insight_of_line content)
     /\ get (u "quotes") (parse_markdown_summary content video_id)
        = capped 5 (section_items re_quotes quote_of_line content)
     /\ get (u "facts") (parse_markdown_summary content video_id)
        = capped 8 (section_items re_facts fact_of_line content))
    /\ (forall key cap l,
           In (key, cap) [(u "ideas", 15); (u "insights", 10);
                          (u "quotes", 5); (u "facts", 8)] ->
           get key (parse_markdown_summary content video_id)
           = Some (JList l) ->
           List.length l <= cap)
    /\ (forall (s : dict) stats,
           GenerateViz.extract_stats s = Some stats ->
           List.length stats <= 6)
    /\ (exists stats,
           GenerateViz.extract_stats
             (parse_markdown_summary content video_id) = Some stats
           /\ List.length stats <= 6).
Proof.
  intros content video_id.
  assert (Hstats : forall (s : dict) stats,
             GenerateViz.extract_stats s = Some stats ->
             List.length stats <= 6).
  { intros s stats. unfold GenerateViz.extract_stats.
    destruct (GenerateViz.all_text s); [|discriminate]. cbn [bind].
    destruct (fold_left _ _ _) as [st|]; [|discriminate]. cbn [bind].
    intros E.
    assert (Es : stats = firstn 6 (fst st)) by congruence.
    rewrite Es. apply firstn_le_length. }
  split; [|split; [|split]].
  - repeat split;
      [apply parse_ideas | apply parse_insights | apply parse_quotes
      | apply parse_facts].
  - intros key cap l Hin Hget.
    cbn [In] in Hin.
    destruct Hin as [E|[E|[E|[E|[]]]]]; injection E as <- <-.
    + rewrite parse_ideas in Hget. eapply capped_length; eauto.
    + rewrite parse_insights in Hget. eapply capped_length; eauto.
    + rewrite parse_quotes in Hget. eapply capped_length; eauto.
    + rewrite parse_facts in Hget. eapply capped_length; eauto.
  - exact Hstats.
  - destruct (@extract_stats_total (parse_markdown_summary content video_id)
                (parse_synthesizable content video_id)) as (stats & Hs).
    exists stats. split; [exact Hs | eapply Hstats; eauto].
Qed.

End NormalizerCaps.
Section NormalizerItems.

Import ImportSummaries.

Lemma idea_of_line_count (line : str) :
  List.length (idea_of_line line) = if is_bullet (strip line) then 1 else 0.
Proof.
  unfold idea_of_line, idea_of_text.
  destruct (is_bullet (strip line)); [|reflexivity].
  destruct (search re_ts _); reflexivity.
Qed.

Lemma ideas_count (lines : list str) :
  List.length (flat_map idea_of_line lines)
  = List.length (filter (fun l => is_bullet (strip l)) lines).
Proof.
  induction lines as [|l lines IH]; [reflexivity|].
  cbn [flat_map filter]. rewrite length_app, idea_of_line_count, IH.
  destruct (is_bullet (strip l)); reflexivity.
Qed.

(** C10. The items the normalizer stores for INSIGHTS, QUOTES and FACTS are
    strings that are not empty, whereas every bullet line of the IDEAS
    section yields an idea record.  A line that is a bare bullet marker
    yields nothing for insights, quotes and facts, and for ideas a record
    with the empty text and no timestamp, which counts towards the cap of
    15: after fifteen such lines a sixteenth idea is cut off. *)
Theorem C10_empty_items_kept_only_in_ideas :
  forall (content video_id : str),
    (forall key l x,
        In key [u "insights"; u "quotes"; u "facts"] ->
        get key (parse_markdown_summary content video_id) = Some (JList l) ->
        In x l ->
        exists t, x = JStr t /\ t <> [])
    /\ (forall x,
           search re_ideas content = Some x ->
           get (u "ideas") (parse_markdown_summary content video_id)
           = Some (JList (firstn 15 (flat_map idea_of_line
                                              (section_lines x))))
           /\ List.length (flat_map idea_of_line (section_lines x))
              = List.length (filter (fun l => is_bullet (strip l))
                                    (section_lines x)))
    /\ (forall line marker,
           In marker [u "-"; u "*"; u "•"] ->
           strip line = marker ->
           idea_of_line line = [idea [] JNull]
           /\ insight_of_line line = []
           /\ quote_of_line line = []
           /\ fact_of_line line = [])
    /\ parse_markdown_summary bare_bullet_in_each_section video_id
       = [(u "videoId", JStr video_id);
          (u "ideas", JList [idea (u "a") JNull; idea [] JNull;
                             idea (u "b") JNull]);
          (u "insights", JList [JStr (u "a"); JStr (u "b")]);
          (u "quotes", JList [JStr (u "a"); JStr (u "b")]);
          (u "facts", JList [JStr (u "a"); JStr (u "b")])]
    /\ get (u "ideas") (parse_markdown_summary bare_bullets_document video_id)
       = Some (JList (repeat (idea [] JNull) 15)).
Proof.
  intros content video_id.
  split; [|split; [|split; [|split]]].
  - intros key l x Hkey Hget Hx.
    assert (Hall : Forall is_nonempty_str l).
    { cbn [In] in Hkey. destruct Hkey as [<-|[<-|[<-|[]]]].
      - rewrite parse_insights in Hget.
        eapply capped_Forall; [apply insight_of_line_shape | exact Hget].
      - rewrite parse_quotes in Hget.
        eapply capped_Forall; [apply quote_of_line_shape | exact Hget].
      - rewrite parse_facts in Hget.
        eapply capped_Forall; [apply fact_of_line_shape | exact Hget]. }
    rewrite Forall_forall in Hall. apply Hall; assumption.
  - intros x Hx. split.
    + rewrite parse_ideas. unfold section_items. rewrite Hx. reflexivity.
    + apply ideas_count.
  - intros line marker Hm Hs.
    unfold idea_of_line, insight_of_line, quote_of_line, fact_of_line.
    rewrite Hs. cbn [In] in Hm.
    destruct Hm as [<-|[<-|[<-|[]]]]; vm_compute; auto.
  - vm_compute. reflexivity.
  - vm_compute. reflexivity.
Qed.

(** C3 on an idea whose timestamp has no link after it.  The timestamp is
    read: the bullet "- Idea one [[12:05]]" gives 725 seconds.  But the token
    is still in the text that is stored, for the bullet alone and in a parsed
    document: the pattern that finds the timestamp takes the token with or
    without a link after it, while the pattern that cleans the text asks for
    the link in parentheses.  With the link after the token the same idea is
    stored as "Idea one", without the token. *)
Theorem C3_bare_timestamp_left_in_text :
  idea_of_line (u "- Idea one [[12:05]]")
  = [idea (u "Idea one [[12:05]]") (JInt 725)]
  /\ contains (u "[[12:05]]") (u "Idea one [[12:05]]") = true
  /\ get (u "ideas")
         (parse_markdown_summary
            (u "# IDEAS" ++ [10%N] ++ u "- Idea one [[12:05]]") (u "abc"))
     = Some (JList [idea (u "Idea one [[12:05]]") (JInt 725)])
  /\ idea_of_line (u "- Idea one [[12:05]](https://youtu.be/abc?t=725)")
     = [idea (u "Idea one") (JInt 725)]
  /\ contains (u "[[12:05]]") (u "Idea one") = false.
Proof. vm_compute. auto. Qed.

(** C7 on a document whose SUMMARY section runs to the end of the document,
    with or without a final newline: no [tldr] is extracted, although the
    section has a body.  The TAKEAWAY pattern, which ends its body at a
    heading, a blank line or the end of the document, extracts the same
    body.  With a blank line or a heading after the body the [tldr] is
    extracted. *)
Theorem C7_summary_at_end_of_document :
  forall (video_id : str),
    parse_markdown_summary (u "# SUMMARY" ++ [10%N] ++ u "Hello") video_id
    = [(u "videoId", JStr video_id)]
    /\ parse_markdown_summary (u "# SUMMARY" ++ [10%N] ++ u "Hello" ++ [10%N])
                              video_id
       = [(u "videoId", JStr video_id)]
    /\ parse_markdown_summary (u "# TAKEAWAY" ++ [10%N] ++ u "Hello")
                              video_id
       = [(u "videoId", JStr video_id); (u "takeaway", JStr (u "Hello"))]
    /\ parse_markdown_summary
         (u "# SUMMARY" ++ [10%N] ++ u "Hello" ++ [10%N; 10%N]) video_id
       = [(u "videoId", JStr video_id); (u "tldr", JStr (u "Hello"))]
    /\ parse_markdown_summary
         (u "# SUMMARY" ++ [10%N] ++ u "Hello" ++ [10%N] ++ u "# IDEAS"
            ++ [10%N] ++ u "- a") video_id
       = [(u "videoId", JStr video_id); (u "tldr", JStr (u "Hello"));
          (u "ideas", JList [idea (u "a") JNull])].
Proof. intros video_id. vm_compute. repeat split. Qed.

End NormalizerItems.

(* ===================================================================== *)
(** ** Facts about matching *)
(* ===================================================================== *)

Section ReFacts.

Lemma m_seq (r1 r2 : regex) (c : cfg) :
  m (Seq r1 r2) c = flat_map (m r2) (m r1 c).
Proof. reflexivity. Qed.

Lemma m_seq_nil (r1 r2 : regex) (c : cfg) :
  m r1 c = [] -> m (Seq r1 r2) c = [].
Proof. intros H. rewrite m_seq, H. reflexivity. Qed.

Lemma m_chr_cons (p : N -> bool) (n : nat) (x : N) (s : str)
      (cs : list (nat * str)) :
  m (Chr p) (Cfg n (x :: s) cs) = if p x then [Cfg (S n) s cs] else [].
Proof. reflexivity. Qed.

Lemma m_chr_nil (p : N -> bool) (n : nat) (cs : list (nat * str)) :
  m (Chr p) (Cfg n [] cs) = [].
Proof. reflexivity. Qed.

Lemma m_chr_stops (p : N -> bool) (n : nat) (s : str) (cs : list (nat * str)) :
  stops p s -> m (Chr p) (Cfg n s cs) = [].
Proof.
  destruct s as [|x s]; [reflexivity|].
  simpl. intros ->. reflexivity.
Qed.

Lemma star_greedy_class (p : N -> bool) (fuel n : nat) (w s : str)
      (cs : list (nat * str)) :
  List.length w < fuel ->
  Forall (fun x => p x = true) w ->
  stops p s ->
  star_with (m (Chr p)) true fuel (Cfg n (w ++ s) cs) = unwind n w s cs.
Proof.
  revert fuel n. induction w as [|x w IH]; intros fuel n Hfuel Hw Hs.
  - destruct fuel as [|f]; [inversion Hfuel|].
    cbn [star_with app unwind]. rewrite m_chr_stops by exact Hs. reflexivity.
  - destruct fuel as [|f]; [inversion Hfuel|].
    inversion Hw as [|? ? Hx Hw']; subst.
    cbn [star_with app unwind]. rewrite m_chr_cons, Hx.
    cbn [flat_map pos]. rewrite app_nil_r.
    replace (n <? S n) with true by (symmetry; apply Nat.ltb_lt; lia).
    rewrite IH; auto. simpl in Hfuel; lia.
Qed.

Lemma m_star_class (p : N -> bool) (n : nat) (w s : str)
      (cs : list (nat * str)) :
  Forall (fun x => p x = true) w ->
  stops p s ->
  m (Star true (Chr p)) (Cfg n (w ++ s) cs) = unwind n w s cs.
Proof.
  intros Hw Hs. cbn [m rest].
  apply star_greedy_class; auto.
  rewrite length_app. lia.
Qed.

Lemma unwind_head (n : nat) (w s : str) (cs : list (nat * str)) :
  exists tl, unwind n w s cs = Cfg (n + List.length w) s cs :: tl.
Proof.
  revert n; induction w as [|x w IH]; intros n; cbn [unwind List.length].
  - rewrite Nat.add_0_r. eauto.
  - destruct (IH (S n)) as (tl & ->).
    replace (S n + List.length w) with (n + S (List.length w)) by lia.
    eexists. reflexivity.
Qed.

(** When what follows fails on every character of the run, only the longest
    iteration goes on. *)
Lemma unwind_then (r : regex) (n : nat) (w s : str) (cs : list (nat * str)) :
  (forall x s' n', In x w -> m r (Cfg n' (x :: s') cs) = []) ->
  flat_map (m r) (unwind n w s cs) = m r (Cfg (n + List.length w) s cs).
Proof.
  revert n; induction w as [|x w IH]; intros n Hfail;
    cbn [unwind List.length flat_map].
  - rewrite Nat.add_0_r, app_nil_r. reflexivity.
  - rewrite flat_map_app. cbn [flat_map].
    rewrite (Hfail x (w ++ s) n) by (left; reflexivity).
    rewrite !app_nil_r, IH by (intros; apply Hfail; right; assumption).
    f_equal. f_equal. lia.
Qed.

Lemma first_seq (r1 r2 : regex) (c c1 c2 : cfg) :
  first r1 c c1 -> first r2 c1 c2 -> first (Seq r1 r2) c c2.
Proof.
  intros (t1 & H1) (t2 & H2). unfold first.
  rewrite m_seq, H1. cbn [flat_map]. rewrite H2.
  eexists. reflexivity.
Qed.

Lemma first_chr (p : N -> bool) (n : nat) (x : N) (s : str)
      (cs : list (nat * str)) :
  p x = true -> first (Chr p) (Cfg n (x :: s) cs) (Cfg (S n) s cs).
Proof. intros H. exists []. rewrite m_chr_cons, H. reflexivity. Qed.

Lemma first_lit (n : nat) (x : N) (s : str) (cs : list (nat * str)) :
  first (lit x) (Cfg n (x :: s) cs) (Cfg (S n) s cs).
Proof. apply first_chr. apply N.eqb_refl. Qed.

Lemma first_opt_take (r : regex) (c c' : cfg) :
  first r c c' -> first (Opt r) c c'.
Proof. intros (tl & H). exists (tl ++ [c]). cbn [m]. rewrite H. reflexivity. Qed.

Lemma first_opt_skip (r : regex) (c : cfg) :
  m r c = [] -> first (Opt r) c c.
Proof. intros H. exists []. cbn [m]. rewrite H. reflexivity. Qed.

(** An optional character that is there, but whose taking makes the rest
    fail: the engine goes on without it. *)
Lemma first_opt_backtrack (p : N -> bool) (r : regex) (n : nat) (x : N)
      (s : str) (cs : list (nat * str)) (c' : cfg) :
  m r (Cfg (S n) s cs) = [] ->
  first r (Cfg n (x :: s) cs) c' ->
  first (Seq (Opt (Chr p)) r) (Cfg n (x :: s) cs) c'.
Proof.
  intros Hfail (tl & H). unfold first. rewrite m_seq. cbn [m rest pos caps].
  destruct (p x); cbn [app flat_map]; rewrite ?Hfail, H; cbn [app];
    eexists; reflexivity.
Qed.

Lemma first_star_class (p : N -> bool) (n : nat) (w s : str)
      (cs : list (nat * str)) :
  Forall (fun x => p x = true) w ->
  stops p s ->
  first (Star true (Chr p)) (Cfg n (w ++ s) cs) (Cfg (n + List.length w) s cs).
Proof.
  intros Hw Hs. unfold first. rewrite m_star_class by assumption.
  apply unwind_head.
Qed.

Lemma first_plus_class (p : N -> bool) (n : nat) (w s : str)
      (cs : list (nat * str)) :
  w <> [] ->
  Forall (fun x => p x = true) w ->
  stops p s ->
  first (Plus true (Chr p)) (Cfg n (w ++ s) cs) (Cfg (n + List.length w) s cs).
Proof.
  intros Hne Hw Hs. destruct w as [|x w]; [congruence|].
  inversion Hw as [|? ? Hx Hw']; subst.
  unfold Plus. eapply first_seq.
  - cbn [app]. apply first_chr. exact Hx.
  - replace (n + List.length (x :: w)) with (S n + List.length w)
      by (simpl; lia).
    apply first_star_class; assumption.
Qed.

Lemma first_grp (g : nat) (r : regex) (c c' : cfg) :
  first r c c' ->
  first (Grp g r) c (set_cap g (firstn (pos c' - pos c) (rest c)) c').
Proof.
  intros (tl & H). unfold first. cbn [m]. rewrite H. cbn [map].
  eexists. reflexivity.
Qed.

(** A group around a run of a character class. *)
Lemma first_grp_plus_class (g : nat) (p : N -> bool) (n : nat) (w s : str)
      (cs : list (nat * str)) :
  w <> [] ->
  Forall (fun x => p x = true) w ->
  stops p s ->
  first (Grp g (Plus true (Chr p))) (Cfg n (w ++ s) cs)
        (Cfg (n + List.length w) s ((g, w) :: cs)).
Proof.
  intros Hne Hw Hs.
  pose proof (@first_grp g _ _ _ (@first_plus_class p n w s cs Hne Hw Hs)) as H.
  cbn [pos rest] in H. unfold set_cap in H. cbn [pos rest caps] in H.
  replace (n + List.length w - n) with (List.length w) in H by lia.
  rewrite firstn_app, firstn_all, Nat.sub_diag, firstn_0, app_nil_r in H.
  exact H.
Qed.

(** *** Searching and substituting *)

Lemma search_from_skip (r : regex) (p : nat) (a s : str) :
  no_match_in r p a s ->
  search_from r p (a ++ s) = search_from r (p + List.length a) s.
Proof.
  revert p; induction a as [|x a IH]; intros p; cbn [no_match_in].
  - intros _. rewrite Nat.add_0_r. reflexivity.
  - intros [H0 H]. cbn [app search_from]. cbn [app] in H0. rewrite H0.
    rewrite IH by assumption. f_equal. simpl; lia.
Qed.

Lemma search_from_hit (r : regex) (p : nat) (s : str) (c : cfg) :
  first r (Cfg p s []) c -> search_from r p s = Some (Mtch p c).
Proof.
  intros (tl & H). destruct s; cbn [search_from]; rewrite H; reflexivity.
Qed.

Lemma search_from_none (r : regex) (p : nat) (a : str) :
  no_match_in r p a [] -> m r (Cfg (p + List.length a) [] []) = [] ->
  search_from r p a = None.
Proof.
  intros H Hend. rewrite <- (app_nil_r a), search_from_skip by assumption.
  cbn [search_from]. rewrite Hend. reflexivity.
Qed.

Lemma sub_from_skip (r : regex) (repl : str) (p : nat) (a s : str) :
  sub_from r repl p (a ++ s) (List.length a)
  = sub_from r repl (p + List.length a) s 0.
Proof.
  revert p; induction a as [|x a IH]; intros p; cbn [app List.length].
  - rewrite Nat.add_0_r. reflexivity.
  - cbn [sub_from]. rewrite IH. f_equal. lia.
Qed.

Lemma sub_from_copy (r : regex) (repl : str) (p : nat) (a s : str) :
  no_match_in r p a s ->
  sub_from r repl p (a ++ s) 0 = a ++ sub_from r repl (p + List.length a) s 0.
Proof.
  revert p; induction a as [|x a IH]; intros p; cbn [no_match_in].
  - intros _. rewrite Nat.add_0_r. reflexivity.
  - intros [H0 H]. cbn [app sub_from]. cbn [app] in H0. rewrite H0.
    rewrite IH by assumption. cbn [List.length app].
    replace (p + S (List.length a)) with (S p + List.length a) by lia.
    reflexivity.
Qed.

Lemma sub_from_hit (r : regex) (repl : str) (p : nat) (a s : str) (c : cfg) :
  a <> [] ->
  first r (Cfg p (a ++ s) []) c ->
  pos c = p + List.length a ->
  sub_from r repl p (a ++ s) 0
  = repl ++ sub_from r repl (p + List.length a) s 0.
Proof.
  intros Hne (tl & H) Hpos. destruct a as [|x a]; [congruence|].
  cbn [app sub_from]. cbn [app] in H. rewrite H, Hpos.
  cbn [List.length].
  replace (p + S (List.length a) =? p) with false
    by (symmetry; apply Nat.eqb_neq; lia).
  replace (p + S (List.length a) - p - 1) with (List.length a) by lia.
  rewrite sub_from_skip.
  replace (p + S (List.length a)) with (S p + List.length a) by lia.
  reflexivity.
Qed.

Lemma sub_from_end (r : regex) (repl : str) (p : nat) :
  m r (Cfg p [] []) = [] -> sub_from r repl p [] 0 = [].
Proof. intros H. cbn [sub_from]. rewrite H. reflexivity. Qed.

End ReFacts.

(* ===================================================================== *)
(** ** The timestamp of an idea *)
(* ===================================================================== *)

Section Timestamp.

Import ImportSummaries.

Lemma takewhile_dropwhile (p : N -> bool) (s : str) :
  takewhile p s ++ dropwhile p s = s.
Proof.
  induction s as [|x s IH]; [reflexivity|]. simpl.
  destruct (p x); simpl; [rewrite IH|]; reflexivity.
Qed.

Lemma takewhile_all (p : N -> bool) (s : str) :
  Forall (fun x => p x = true) (takewhile p s).
Proof.
  induction s as [|x s IH]; simpl; [constructor|].
  destruct (p x) eqn:E; constructor; assumption.
Qed.

Lemma dropwhile_stops (p : N -> bool) (s : str) : stops p (dropwhile p s).
Proof.
  induction s as [|x s IH]; simpl; [exact I|].
  destruct (p x) eqn:E; [exact IH | exact E].
Qed.

Lemma In_dropwhile (p : N -> bool) (s : str) (x : N) :
  In x (dropwhile p s) -> In x s.
Proof.
  induction s as [|y s IH]; simpl; [tauto|].
  destruct (p y); simpl; tauto.
Qed.

Lemma In_strip (s : str) (x : N) : In x (strip s) -> In x s.
Proof.
  unfold strip, strip_by, rstrip_by, lstrip_by. intros H.
  apply in_rev, In_dropwhile, in_rev, In_dropwhile in H. exact H.
Qed.

Lemma digit_not_bracket (x : N) : is_digit x = true -> x <> 91%N.
Proof. intros H ->. discriminate H. Qed.

Lemma space_not_bracket (x : N) : is_space x = true -> x <> 91%N.
Proof. intros H ->. discriminate H. Qed.

Lemma m_lit_other (a x : N) (n : nat) (s : str) (cs : list (nat * str)) :
  x <> a -> m (lit a) (Cfg n (x :: s) cs) = [].
Proof.
  intros H. unfold lit. rewrite m_chr_cons.
  destruct (N.eqb_spec a x); [congruence | reflexivity].
Qed.

(** *** Finding the timestamp *)

Lemma re_ts_no_match (p : nat) (a s : str) :
  no_bracket a -> no_match_in re_ts p a s.
Proof.
  revert p; induction a as [|x a IH]; intros p H; cbn [no_match_in];
    [exact I|].
  inversion H as [|? ? Hx Ha]; subst. split; [|apply IH; assumption].
  apply m_seq_nil. apply m_lit_other. exact Hx.
Qed.

Lemma re_ts_end (p : nat) : m re_ts (Cfg p [] []) = [].
Proof. reflexivity. Qed.

(** The two brackets that close a timestamp, the first one optional. *)
Lemma first_closing (n : nat) (close2 : bool) (s : str)
      (cs : list (nat * str)) :
  exists c', first (Seq (Opt (lit 93)) (lit 93))
                   (Cfg n ((if close2 then [93%N] else []) ++ [93%N] ++ s) cs)
                   c'
             /\ caps c' = cs.
Proof.
  destruct close2; cbn [app].
  - eexists. split.
    + eapply first_seq; [apply first_opt_take, first_lit | apply first_lit].
    + reflexivity.
  - destruct s as [|y s].
    + eexists. split.
      * apply first_opt_backtrack; [reflexivity | apply first_lit].
      * reflexivity.
    + destruct (N.eqb_spec y 93) as [->|Hy].
      * eexists. split.
        -- eapply first_seq; [apply first_opt_take, first_lit | apply first_lit].
        -- reflexivity.
      * eexists. split.
        -- apply first_opt_backtrack; [apply m_lit_other; exact Hy
                                      | apply first_lit].
        -- reflexivity.
Qed.

Lemma first_re_ts (n : nat) (open2 close2 : bool) (mm ss s : str) :
  digits mm -> digits ss ->
  exists c', first re_ts (Cfg n (ts_token open2 close2 mm ss ++ s) []) c'
             /\ caps c' = [(2, ss); (1, mm)].
Proof.
  intros [Hmm Dmm] [Hss Dss].
  unfold ts_token. rewrite <- !app_assoc.
  destruct (first_closing (S (S n + (if open2 then 1 else 0)
                                + List.length mm) + List.length ss)
                          close2 s [(2, ss); (1, mm)])
    as (c' & Hclose & Hcaps).
  exists c'. split; [|exact Hcaps].
  unfold re_ts. cbn [seq_of].
  eapply first_seq; [apply first_lit|].
  eapply first_seq.
  { instantiate (1 := Cfg (S n + (if open2 then 1 else 0))
                          (mm ++ [58%N] ++ ss
                              ++ (if close2 then [93%N] else []) ++ [93%N] ++ s)
                          []).
    destruct open2; cbn [app].
    - replace (S n + 1) with (S (S n)) by lia.
      apply first_opt_take, first_lit.
    - rewrite Nat.add_0_r. apply first_opt_skip.
      destruct mm as [|d mm]; [congruence|].
      inversion Dmm; subst. apply m_lit_other.
      apply digit_not_bracket; assumption. }
  eapply first_seq.
  { apply first_grp_plus_class; [exact Hmm | exact Dmm | reflexivity]. }
  eapply first_seq; [apply first_lit|].
  eapply first_seq.
  { apply first_grp_plus_class; [exact Hss | exact Dss |].
    destruct close2; reflexivity. }
  exact Hclose.
Qed.

Lemma search_re_ts (open2 close2 : bool) (pre mm ss s : str) :
  no_bracket pre -> digits mm -> digits ss ->
  exists x, search re_ts (pre ++ ts_token open2 close2 mm ss ++ s) = Some x
            /\ group 1 x = mm /\ group 2 x = ss.
Proof.
  intros Hpre Hmm Hss.
  destruct (first_re_ts (0 + List.length pre) open2 close2 s Hmm Hss)
    as (c' & Hfirst & Hcaps).
  exists (Mtch (0 + List.length pre) c'). split.
  - unfold search. rewrite search_from_skip by (apply re_ts_no_match; exact Hpre).
    apply search_from_hit. exact Hfirst.
  - unfold group. cbn [m_end]. rewrite Hcaps. split; reflexivity.
Qed.

Lemma search_re_ts_none (text : str) :
  no_bracket text -> search re_ts text = None.
Proof.
  intros H. unfold search. apply search_from_none.
  - apply re_ts_no_match. exact H.
  - apply re_ts_end.
Qed.

End Timestamp.

Section TimestampLink.

Import ImportSummaries.

Lemma re_ts_link_unfold : re_ts_link = Seq (Star true ws) re_ts_link_tail.
Proof. reflexivity. Qed.

(** Where the pattern is tried, the blanks are skipped first. *)
Lemma m_re_ts_link (p : nat) (t : str) :
  m re_ts_link (Cfg p t [])
  = m re_ts_link_tail
      (Cfg (p + List.length (takewhile is_space t)) (dropwhile is_space t) []).
Proof.
  rewrite re_ts_link_unfold, m_seq.
  rewrite <- (takewhile_dropwhile is_space t) at 1.
  unfold ws. rewrite m_star_class
    by (apply takewhile_all || apply dropwhile_stops).
  apply unwind_then. intros x s' n' Hx.
  apply m_seq_nil, m_lit_other, space_not_bracket.
  pose proof (takewhile_all is_space t) as Hall.
  rewrite Forall_forall in Hall. apply Hall. exact Hx.
Qed.

Lemma re_ts_link_fails (p : nat) (t : str) :
  no_token_start t -> m re_ts_link (Cfg p t []) = [].
Proof.
  unfold no_token_start. intros H. rewrite m_re_ts_link.
  destruct (dropwhile is_space t) as [|x s]; [reflexivity|].
  apply m_seq_nil, m_lit_other. exact H.
Qed.

Lemma no_bracket_no_token_start (t : str) :
  no_bracket t -> no_token_start t.
Proof.
  unfold no_bracket, no_token_start. intros H.
  destruct (dropwhile is_space t) as [|x s] eqn:E; [exact I|].
  rewrite Forall_forall in H. apply H.
  apply (In_dropwhile is_space). rewrite E. left; reflexivity.
Qed.

Lemma no_token_start_inside (a s : str) :
  a <> [] -> no_bracket a -> ends_nonblank a -> no_token_start (a ++ s).
Proof.
  induction a as [|x a IH]; [congruence|]. intros _ Hb He.
  inversion Hb as [|? ? Hx Ha]; subst.
  unfold no_token_start. cbn [app dropwhile].
  destruct (is_space x) eqn:Ex; [|exact Hx].
  destruct a as [|y a]; [simpl in He; congruence|].
  apply IH; [discriminate | exact Ha | exact He].
Qed.

Lemma ends_nonblank_tail (x : N) (a : str) :
  a <> [] -> ends_nonblank (x :: a) -> ends_nonblank a.
Proof. destruct a; [congruence | auto]. Qed.

Lemma re_ts_link_no_match_head (p : nat) (a s : str) :
  no_bracket a -> ends_nonblank a -> no_match_in re_ts_link p a s.
Proof.
  revert p; induction a as [|x a IH]; intros p Hb He; cbn [no_match_in];
    [exact I|].
  split.
  - apply re_ts_link_fails.
    apply (@no_token_start_inside (x :: a) s); [discriminate | exact Hb | exact He].
  - inversion Hb; subst.
    destruct a as [|y a]; [exact I|].
    apply IH; [assumption|]. eapply ends_nonblank_tail; [discriminate|exact He].
Qed.

Lemma re_ts_link_no_match_post (p : nat) (a : str) :
  no_bracket a -> no_match_in re_ts_link p a [].
Proof.
  revert p; induction a as [|x a IH]; intros p Hb; cbn [no_match_in];
    [exact I|].
  split.
  - apply re_ts_link_fails, no_bracket_no_token_start.
    rewrite app_nil_r. exact Hb.
  - inversion Hb; subst. apply IH. assumption.
Qed.

(** The closing brackets before a link. *)
Lemma first_closing_link (n : nat) (close2 : bool) (r : regex) (s : str)
      (c' : cfg) :
  first r (Cfg (S (S n + (if close2 then 1 else 0))) s []) c' ->
  first (Seq (Opt (lit 93)) (Seq (lit 93) (Seq (lit 40) r)))
        (Cfg n ((if close2 then [93%N] else []) ++ [93%N] ++ [40%N] ++ s) [])
        c'.
Proof.
  intros H. destruct close2; cbn [app].
  - eapply first_seq; [apply first_opt_take, first_lit|].
    eapply first_seq; [apply first_lit|].
    eapply first_seq; [apply first_lit|].
    replace (S (S (S n))) with (S (S n + 1)) by lia. exact H.
  - apply first_opt_backtrack.
    + apply m_seq_nil, m_lit_other. discriminate.
    + eapply first_seq; [apply first_lit|].
      eapply first_seq; [apply first_lit|].
      rewrite Nat.add_0_r in H. exact H.
Qed.

Lemma paren_free (url : str) :
  Forall (fun x => x <> 41%N) url ->
  Forall (fun x => negb (mem x (u ")")) = true) url.
Proof.
  intros H. eapply Forall_impl; [|exact H].
  intros x Hx. cbn. destruct (N.eqb_spec x 41); [congruence | reflexivity].
Qed.

(** The pattern matches a timestamp with its link, from the blanks before
    the timestamp to the parenthesis that closes the link. *)
Lemma first_re_ts_link (p : nat) (open2 close2 : bool)
      (blanks mm ss url s : str) :
  Forall (fun x => is_space x = true) blanks ->
  digits mm -> digits ss ->
  url <> [] -> Forall (fun x => x <> 41%N) url ->
  exists c',
    first re_ts_link
          (Cfg p ((blanks ++ ts_token open2 close2 mm ss ++ md_link url) ++ s)
               [])
          c'
    /\ pos c' = p + List.length (blanks ++ ts_token open2 close2 mm ss
                                        ++ md_link url).
Proof.
  intros Hbl [Hmm Dmm] [Hss Dss] Hurl Durl.
  unfold ts_token, md_link. rewrite <- !app_assoc.
  eexists. split.
  - rewrite re_ts_link_unfold.
    eapply first_seq.
    { apply first_star_class; [exact Hbl | reflexivity]. }
    unfold re_ts_link_tail. cbn [seq_of].
    eapply first_seq; [apply first_lit|].
    eapply first_seq.
    { instantiate (1 := Cfg (S (p + List.length blanks)
                             + (if open2 then 1 else 0))
                            (mm ++ [58%N] ++ ss
                                ++ (if close2 then [93%N] else []) ++ [93%N]
                                ++ [40%N] ++ url ++ [41%N] ++ s)
                            []).
      destruct open2; cbn [app].
      - replace (S (p + List.length blanks) + 1)
          with (S (S (p + List.length blanks))) by lia.
        apply first_opt_take, first_lit.
      - rewrite Nat.add_0_r. apply first_opt_skip.
        destruct mm as [|d mm]; [congruence|].
        inversion Dmm; subst. apply m_lit_other.
        apply digit_not_bracket; assumption. }
    eapply first_seq.
    { apply first_plus_class; [exact Hmm | exact Dmm | reflexivity]. }
    eapply first_seq; [apply first_lit|].
    eapply first_seq.
    { apply first_plus_class; [exact Hss | exact Dss |].
      destruct close2; reflexivity. }
    apply first_closing_link.
    eapply first_seq.
    { apply first_plus_class; [exact Hurl | apply paren_free; exact Durl
                              | reflexivity]. }
    apply first_lit.
  - cbn [pos]. rewrite !length_app. cbn [List.length].
    destruct open2, close2; cbn [List.length]; lia.
Qed.

(** The cleanup removes the timestamp with the blanks before it and the link
    after it, and nothing else. *)
Lemma sub_re_ts_link (open2 close2 : bool) (head blanks mm ss url post : str) :
  no_bracket head -> ends_nonblank head ->
  Forall (fun x => is_space x = true) blanks ->
  digits mm -> digits ss ->
  url <> [] -> Forall (fun x => x <> 41%N) url ->
  no_bracket post ->
  sub re_ts_link []
      (head ++ blanks ++ ts_token open2 close2 mm ss ++ md_link url ++ post)
  = head ++ post.
Proof.
  intros Hh He Hbl Hmm Hss Hurl Durl Hpost.
  destruct (@first_re_ts_link (0 + List.length head) open2 close2 blanks mm ss
                              url post Hbl Hmm Hss Hurl Durl)
    as (c' & Hfirst & Hpos).
  unfold sub.
  rewrite sub_from_copy by (apply re_ts_link_no_match_head; assumption).
  f_equal.
  replace (blanks ++ ts_token open2 close2 mm ss ++ md_link url ++ post)
    with ((blanks ++ ts_token open2 close2 mm ss ++ md_link url) ++ post)
    by (rewrite <- !app_assoc; reflexivity).
  rewrite (@sub_from_hit re_ts_link [] (0 + List.length head)
                         (blanks ++ ts_token open2 close2 mm ss ++ md_link url)
                         post c').
  - cbn [app].
    rewrite <- (app_nil_r post) at 1.
    rewrite sub_from_copy by (apply re_ts_link_no_match_post; exact Hpost).
    rewrite sub_from_end by (apply re_ts_link_fails; exact I).
    rewrite app_nil_r. reflexivity.
  - unfold ts_token. destruct blanks; discriminate.
  - exact Hfirst.
  - exact Hpos.
Qed.

End TimestampLink.

Section BareTimestamp.

(** *** Exact results of a greedy run *)

Lemma m_seq_lit_hit (a : N) (r : regex) (n : nat) (s : str)
      (cs : list (nat * str)) :
  m (Seq (lit a) r) (Cfg n (a :: s) cs) = m r (Cfg (S n) s cs).
Proof.
  rewrite m_seq. unfold lit. rewrite m_chr_cons, N.eqb_refl.
  cbn [flat_map]. apply app_nil_r.
Qed.

Lemma m_seq_lit_miss (a x : N) (r : regex) (n : nat) (s : str)
      (cs : list (nat * str)) :
  x <> a -> m (Seq (lit a) r) (Cfg n (x :: s) cs) = [].
Proof. intros H. apply m_seq_nil, m_lit_other. exact H. Qed.

Lemma m_seq_lit_end (a : N) (r : regex) (n : nat) (cs : list (nat * str)) :
  m (Seq (lit a) r) (Cfg n [] cs) = [].
Proof. reflexivity. Qed.

Lemma m_opt_lit_hit (a : N) (n : nat) (s : str) (cs : list (nat * str)) :
  m (Opt (lit a)) (Cfg n (a :: s) cs) = [Cfg (S n) s cs; Cfg n (a :: s) cs].
Proof.
  change (m (Opt (lit a)) (Cfg n (a :: s) cs))
    with (m (lit a) (Cfg n (a :: s) cs) ++ [Cfg n (a :: s) cs]).
  unfold lit. rewrite m_chr_cons, N.eqb_refl. reflexivity.
Qed.

Lemma m_opt_lit_miss (a x : N) (n : nat) (s : str) (cs : list (nat * str)) :
  x <> a ->
  m (Opt (lit a)) (Cfg n (x :: s) cs) = [Cfg n (x :: s) cs].
Proof.
  intros H.
  change (m (Opt (lit a)) (Cfg n (x :: s) cs))
    with (m (lit a) (Cfg n (x :: s) cs) ++ [Cfg n (x :: s) cs]).
  rewrite m_lit_other by exact H. reflexivity.
Qed.

(** A run of a class followed by something that fails on the characters of
    the class: the run is taken whole. *)
Lemma m_plus_class_then (p : N -> bool) (r : regex) (n : nat) (w s : str)
      (cs : list (nat * str)) :
  w <> [] ->
  Forall (fun x => p x = true) w ->
  stops p s ->
  (forall x s' n', In x w -> m r (Cfg n' (x :: s') cs) = []) ->
  m (Seq (Plus true (Chr p)) r) (Cfg n (w ++ s) cs)
  = m r (Cfg (n + List.length w) s cs).
Proof.
  intros Hne Hw Hs Hfail. destruct w as [|x w]; [congruence|].
  inversion Hw as [|? ? Hx Hw']; subst.
  unfold Plus. rewrite !m_seq. cbn [app]. rewrite m_chr_cons, Hx.
  cbn [flat_map]. rewrite app_nil_r.
  rewrite m_star_class by assumption.
  rewrite unwind_then by (intros; apply Hfail; right; assumption).
  cbn [List.length]. f_equal. f_equal. lia.
Qed.

Lemma m_plus_class_miss (p : N -> bool) (r : regex) (n : nat) (s : str)
      (cs : list (nat * str)) :
  stops p s -> m (Seq (Plus true (Chr p)) r) (Cfg n s cs) = [].
Proof.
  intros Hs. apply m_seq_nil. unfold Plus. apply m_seq_nil.
  apply m_chr_stops. exact Hs.
Qed.

(** *** Blanks and digits *)

Lemma is_space_cases (x : N) :
  is_space x = true ->
  In x [9; 10; 11; 12; 13; 28; 29; 30; 31; 32; 133; 160; 5760; 8192; 8193;
        8194; 8195; 8196; 8197; 8198; 8199; 8200; 8201; 8202; 8232; 8233;
        8239; 8287; 12288]%N.
Proof.
  unfold is_space.
  rewrite !orb_true_iff, !andb_true_iff, !N.leb_le, !N.eqb_eq.
  intros H. cbn [In]. lia.
Qed.

Lemma digit_not_space (x : N) : is_digit x = true -> is_space x = false.
Proof.
  intros Hd. destruct (is_space x) eqn:Hs; [|reflexivity].
  apply is_space_cases in Hs. cbn [In] in Hs.
  repeat (destruct Hs as [<-|Hs]; [discriminate Hd|]).
  destruct Hs.
Qed.

Lemma takewhile_app_all (p : N -> bool) (w s : str) :
  Forall (fun x => p x = true) w -> stops p s -> takewhile p (w ++ s) = w.
Proof.
  intros Hw Hs. induction Hw as [|x w Hx Hw IH]; cbn [app].
  - destruct s as [|y s]; [reflexivity|]. cbn [takewhile stops] in *.
    rewrite Hs. reflexivity.
  - cbn [takewhile]. rewrite Hx, IH. reflexivity.
Qed.

Lemma dropwhile_app_all (p : N -> bool) (w s : str) :
  Forall (fun x => p x = true) w -> stops p s -> dropwhile p (w ++ s) = s.
Proof.
  intros Hw Hs. induction Hw as [|x w Hx Hw IH]; cbn [app].
  - destruct s as [|y s]; [reflexivity|]. cbn [dropwhile stops] in *.
    rewrite Hs. reflexivity.
  - cbn [dropwhile]. rewrite Hx, IH. reflexivity.
Qed.

Lemma no_match_in_app (r : regex) (p : nat) (a b s : str) :
  no_match_in r p a (b ++ s) ->
  no_match_in r (p + List.length a) b s ->
  no_match_in r p (a ++ b) s.
Proof.
  revert p; induction a as [|x a IH]; intros p Ha Hb; cbn [app].
  - rewrite Nat.add_0_r in Hb. exact Hb.
  - cbn [no_match_in app] in *. destruct Ha as [H0 Ha]. split.
    + rewrite <- app_assoc. exact H0.
    + apply IH; [exact Ha|].
      replace (S p + List.length a) with (p + List.length (x :: a))
        by (simpl; lia).
      exact Hb.
Qed.

(** No match starts at a character that is neither a blank nor an opening
    bracket. *)
Lemma re_ts_link_no_match_plain (p : nat) (a s : str) :
  Forall (fun x => is_space x = false /\ x <> 91%N) a ->
  no_match_in re_ts_link p a s.
Proof.
  revert p; induction a as [|x a IH]; intros p H; cbn [no_match_in];
    [exact I|].
  inversion H as [|? ? [Hs Hx] Ha]; subst.
  split; [|apply IH; exact Ha].
  apply re_ts_link_fails. unfold no_token_start.
  cbn [app dropwhile]. rewrite Hs. exact Hx.
Qed.

(** *** A timestamp without a link *)

Lemma closing_without_link (n : nat) (close2 : bool) (r : regex) (post : str) :
  no_link_after post ->
  m (Seq (Opt (lit 93)) (Seq (lit 93) (Seq (lit 40) r)))
    (Cfg n ((if close2 then [93%N] else []) ++ [93%N] ++ post) [])
  = [].
Proof.
  intros Hpost. rewrite m_seq.
  destruct close2; cbn [app]; rewrite m_opt_lit_hit; cbn [flat_map];
    rewrite !m_seq_lit_hit.
  - rewrite m_seq_lit_miss by discriminate.
    destruct post as [|y post]; [reflexivity|].
    destruct Hpost as [H40 _]. rewrite m_seq_lit_miss by exact H40.
    reflexivity.
  - destruct post as [|y post]; [reflexivity|].
    destruct Hpost as [H40 H93].
    rewrite m_seq_lit_miss by exact H93.
    rewrite m_seq_lit_miss by exact H40. reflexivity.
Qed.

Lemma digits_then_colon (x : N) (r : regex) (s' : str) (n' : nat) :
  is_digit x = true -> m (Seq (lit 58) r) (Cfg n' (x :: s') []) = [].
Proof.
  intros H. apply m_seq_lit_miss. intros ->. discriminate H.
Qed.

Lemma digits_then_closing (x : N) (r : regex) (s' : str) (n' : nat) :
  is_digit x = true ->
  m (Seq (Opt (lit 93)) (Seq (lit 93) r)) (Cfg n' (x :: s') []) = [].
Proof.
  intros H. assert (Hx : x <> 93%N) by (intros ->; discriminate H).
  rewrite m_seq, m_opt_lit_miss by exact Hx.
  cbn [flat_map]. rewrite m_seq_lit_miss by exact Hx. reflexivity.
Qed.

(** The pattern fails where a timestamp starts that has no link. *)
Lemma re_ts_link_tail_fails (n : nat) (open2 close2 : bool) (mm ss post : str) :
  digits mm -> digits ss -> no_link_after post ->
  m re_ts_link_tail (Cfg n (ts_token open2 close2 mm ss ++ post) []) = [].
Proof.
  intros [Hmm Dmm] [Hss Dss] Hpost.
  assert (Hchain : forall k,
             m (seq_of [ Plus true digit; lit 58; Plus true digit;
                         Opt (lit 93); lit 93; lit 40;
                         Plus true (ncls (u ")")); lit 41 ])
               (Cfg k (mm ++ [58%N] ++ ss
                          ++ (if close2 then [93%N] else []) ++ [93%N] ++ post)
                    [])
             = []).
  { intros k. cbn [seq_of]. unfold digit.
    rewrite m_plus_class_then;
      [|exact Hmm | exact Dmm | reflexivity
       |intros x s' n' Hx; apply digits_then_colon;
        rewrite Forall_forall in Dmm; apply Dmm; exact Hx].
    cbn [app]. rewrite m_seq_lit_hit.
    rewrite m_plus_class_then;
      [|exact Hss | exact Dss | destruct close2; reflexivity
       |intros x s' n' Hx; apply digits_then_closing;
        rewrite Forall_forall in Dss; apply Dss; exact Hx].
    apply closing_without_link. exact Hpost. }
  unfold ts_token, re_ts_link_tail. rewrite <- !app_assoc.
  cbn [seq_of app] in Hchain |- *. rewrite m_seq_lit_hit. rewrite m_seq.
  destruct open2; cbn [app].
  - rewrite m_opt_lit_hit. cbn [flat_map].
    rewrite (Hchain (S (S n))).
    unfold digit. rewrite m_plus_class_miss by reflexivity.
    reflexivity.
  - destruct mm as [|d mm']; [congruence|].
    assert (Hd : d <> 91%N)
      by (inversion Dmm; subst; apply digit_not_bracket; assumption).
    cbn [app]. rewrite m_opt_lit_miss by exact Hd.
    cbn [flat_map]. rewrite app_nil_r.
    apply (Hchain (S n)).
Qed.

Lemma token_chars_plain (close2 : bool) (mm ss : str) :
  digits mm -> digits ss ->
  Forall (fun x => is_space x = false /\ x <> 91%N)
         (mm ++ [58%N] ++ ss ++ (if close2 then [93%N] else []) ++ [93%N]).
Proof.
  intros [_ Dmm] [_ Dss].
  assert (Hd : forall w, Forall (fun x => is_digit x = true) w ->
                         Forall (fun x => is_space x = false /\ x <> 91%N) w).
  { intros w Hw. eapply Forall_impl; [|exact Hw].
    intros x Hx. split; [apply digit_not_space | apply digit_not_bracket];
      exact Hx. }
  assert (H58 : is_space 58 = false /\ 58%N <> 91%N)
    by (split; [reflexivity | discriminate]).
  assert (H93 : is_space 93 = false /\ 93%N <> 91%N)
    by (split; [reflexivity | discriminate]).
  rewrite !Forall_app.
  split; [apply Hd; exact Dmm|].
  split; [constructor; [exact H58 | constructor]|].
  split; [apply Hd; exact Dss|].
  split; [destruct close2; [constructor; [exact H93 | constructor]
                           | constructor]|].
  constructor; [exact H93 | constructor].
Qed.

(** The cleanup leaves a text unchanged whose only timestamp has no link. *)
Lemma sub_re_ts_link_bare (open2 close2 : bool) (head blanks mm ss post : str) :
  no_bracket head -> ends_nonblank head ->
  Forall (fun x => is_space x = true) blanks ->
  digits mm -> digits ss ->
  no_link_after post -> no_bracket post ->
  sub re_ts_link [] (head ++ blanks ++ ts_token open2 close2 mm ss ++ post)
  = head ++ blanks ++ ts_token open2 close2 mm ss ++ post.
Proof.
  intros Hh He Hbl Hmm Hss Hnl Hpost.
  assert (Htok : forall p o,
             m re_ts_link
               (Cfg p (ts_token o close2 mm ss ++ post) []) = []).
  { intros p o. rewrite m_re_ts_link.
    unfold ts_token at 2. cbn [app dropwhile is_space].
    change (91%N :: ((if o then [91%N] else []) ++ mm ++ [58%N] ++ ss
                       ++ (if close2 then [93%N] else []) ++ [93%N]) ++ post)
      with (ts_token o close2 mm ss ++ post).
    apply re_ts_link_tail_fails; assumption. }
  unfold sub.
  rewrite sub_from_copy by (apply re_ts_link_no_match_head; assumption).
  f_equal.
  rewrite <- (app_nil_r (blanks ++ ts_token open2 close2 mm ss ++ post)) at 1.
  rewrite sub_from_copy; [rewrite sub_from_end;
                          [rewrite app_nil_r; reflexivity
                          |apply re_ts_link_fails; exact I]|].
  apply no_match_in_app.
  { (* inside the blanks *)
    rewrite app_nil_r.
    clear Hh He. generalize (0 + List.length head). intros p.
    revert p. induction Hbl as [|b blanks Hb Hbl IH]; intros p;
      cbn [no_match_in]; [exact I|].
    split; [|apply IH].
    rewrite m_re_ts_link.
    change ((b :: blanks) ++ ts_token open2 close2 mm ss ++ post)
      with ((b :: blanks) ++ (ts_token open2 close2 mm ss ++ post)).
    rewrite dropwhile_app_all, takewhile_app_all;
      try (constructor; assumption); try reflexivity.
    apply re_ts_link_tail_fails; assumption. }
  apply no_match_in_app.
  { (* inside the token *)
    rewrite app_nil_r. unfold ts_token at 1.
    cbn [app no_match_in]. split.
    - apply (Htok _ open2).
    - destruct open2; cbn [app no_match_in].
      + split.
        * apply (Htok _ false).
        * apply re_ts_link_no_match_plain, token_chars_plain; assumption.
      + apply re_ts_link_no_match_plain, token_chars_plain; assumption. }
  apply re_ts_link_no_match_post. exact Hpost.
Qed.

End BareTimestamp.

Section IdeaTimestamp.

Import ImportSummaries.

(** *** The bullet marker *)

Lemma re_bullet_only_at_start (p : nat) (a s : str) :
  0 < p -> no_match_in re_bullet p a s.
Proof.
  revert p; induction a as [|x a IH]; intros p Hp; cbn [no_match_in];
    [exact I|].
  split; [|apply IH; lia].
  apply m_seq_nil. cbn [m pos]. destruct p; [lia | reflexivity].
Qed.

Lemma sub_re_bullet (marker : N) (body : str) :
  mem marker (u "-*•") = true ->
  sub re_bullet [] (marker :: body) = dropwhile is_space body.
Proof.
  intros Hm. unfold sub.
  rewrite <- (takewhile_dropwhile is_space body) at 1.
  change (marker :: takewhile is_space body ++ dropwhile is_space body)
    with ((marker :: takewhile is_space body) ++ dropwhile is_space body).
  rewrite (@sub_from_hit re_bullet [] 0 (marker :: takewhile is_space body)
                         (dropwhile is_space body)
                         (Cfg (1 + List.length (takewhile is_space body))
                              (dropwhile is_space body) [])).
  - cbn [app].
    rewrite <- (app_nil_r (dropwhile is_space body)) at 1.
    rewrite sub_from_copy by (apply re_bullet_only_at_start; simpl; lia).
    rewrite sub_from_end; [apply app_nil_r|].
    apply m_seq_nil. reflexivity.
  - discriminate.
  - unfold re_bullet. cbn [seq_of app].
    eapply first_seq; [exists []; reflexivity|].
    eapply first_seq; [apply first_chr; exact Hm|].
    apply first_star_class; [apply takewhile_all | apply dropwhile_stops].
  - reflexivity.
Qed.

Lemma idea_of_bullet_line (line : str) (marker : N) (body : str) :
  In marker [45%N; 42%N; 8226%N] ->
  strip line = marker :: body ->
  idea_of_line line = idea_of_text (dropwhile is_space body).
Proof.
  intros Hm Hs. unfold idea_of_line. rewrite Hs.
  cbn [In] in Hm.
  destruct Hm as [<-|[<-|[<-|[]]]];
    (rewrite sub_re_bullet by reflexivity); reflexivity.
Qed.

(** *** The idea of a text *)

Lemma contains_head (x : N) (kw s : str) :
  contains (x :: kw) s = true -> In x s.
Proof.
  induction s as [|y s IH]; cbn [contains startswith].
  - discriminate.
  - destruct (N.eqb_spec x y) as [->|Hne]; cbn [andb orb].
    + intros _. left; reflexivity.
    + intros H. right. apply IH. exact H.
Qed.

Lemma no_bracket_app (a b : str) :
  no_bracket a -> no_bracket b -> no_bracket (a ++ b).
Proof. apply Forall_app_intro || (intros; apply Forall_app; auto). Qed.

Lemma blanks_no_bracket (blanks : str) :
  Forall (fun x => is_space x = true) blanks -> no_bracket blanks.
Proof.
  intros H. eapply Forall_impl; [|exact H].
  intros x. apply space_not_bracket.
Qed.

(** Checking the side conditions on a given text. *)
Lemma all_differ_check (a : N) (s : str) :
  forallb (fun x => negb (x =? a)%N) s = true ->
  Forall (fun x => x <> a) s.
Proof.
  intros H. apply Forall_forall. intros x Hx.
  rewrite forallb_forall in H. specialize (H x Hx).
  destruct (N.eqb_spec x a); [discriminate | assumption].
Qed.

Lemma all_check (p : N -> bool) (s : str) :
  forallb p s = true -> Forall (fun x => p x = true) s.
Proof.
  intros H. apply Forall_forall. rewrite forallb_forall in H. exact H.
Qed.

(** X27. For an idea text whose first opening bracket starts a timestamp
    [mm:ss] in brackets, each single or doubled (the text before the token
    has no opening bracket), the timestamp stored is mm * 60 + ss, whatever
    follows the token.  When the token is directly followed by a link in
    parentheses that is not empty, and the text after the link has no
    opening bracket, the token is removed from the stored text together
    with the blanks before it and the link, so that no bracket is left in
    the text.  When what follows the token has no opening bracket and starts
    neither with a parenthesis nor with a closing bracket, the text is
    stored as it is, trimmed, with the token in it.  A text without an
    opening bracket is stored unchanged with no timestamp.  The text of a
    bullet line is what follows the marker and the blanks after it. *)
Theorem X27_idea_timestamp_token :
  forall (open2 close2 : bool) (head blanks mm ss url post : str),
    no_bracket head ->
    ends_nonblank head ->
    Forall (fun x => is_space x = true) blanks ->
    digits mm ->
    digits ss ->
    url <> [] ->
    Forall (fun x => x <> 41%N) url ->
    no_bracket post ->
    (forall rest,
        exists text',
          idea_of_text (head ++ blanks ++ ts_token open2 close2 mm ss ++ rest)
          = [idea text' (JInt (int_of_digits mm * 60 + int_of_digits ss))])
    /\ idea_of_text
         (head ++ blanks ++ ts_token open2 close2 mm ss ++ md_link url ++ post)
       = [idea (strip (head ++ post))
               (JInt (int_of_digits mm * 60 + int_of_digits ss))]
    /\ ~ In 91%N (strip (head ++ post))
    /\ contains (ts_token open2 close2 mm ss) (strip (head ++ post)) = false
    /\ (forall post',
           no_bracket post' ->
           no_link_after post' ->
           idea_of_text
             (head ++ blanks ++ ts_token open2 close2 mm ss ++ post')
           = [idea (strip (head ++ blanks ++ ts_token open2 close2 mm ss
                                ++ post'))
                   (JInt (int_of_digits mm * 60 + int_of_digits ss))])
    /\ (forall text, no_bracket text -> idea_of_text text = [idea text JNull])
    /\ (forall line marker body,
           In marker [45%N; 42%N; 8226%N] ->
           strip line = marker :: body ->
           idea_of_line line = idea_of_text (dropwhile is_space body))
    /\ idea_of_text (u "Idea [[12:05]](https://youtu.be/abc?t=725)")
       = [idea (u "Idea") (JInt 725)].
Proof.
  intros open2 close2 head blanks mm ss url post
         Hh He Hbl Hmm Hss Hurl Durl Hpost.
  assert (Hpre : no_bracket (head ++ blanks))
    by (apply no_bracket_app; [exact Hh | apply blanks_no_bracket; exact Hbl]).
  assert (Hts : forall rest,
             exists x,
               search re_ts (head ++ blanks ++ ts_token open2 close2 mm ss
                                  ++ rest) = Some x
               /\ group 1 x = mm /\ group 2 x = ss).
  { intros rest. rewrite app_assoc.
    apply search_re_ts; assumption. }
  assert (Hnb : ~ In 91%N (strip (head ++ post))).
  { intros Hin. apply In_strip in Hin.
    pose proof (no_bracket_app Hh Hpost) as Hall.
    unfold no_bracket in Hall. rewrite Forall_forall in Hall.
    apply (Hall _ Hin). reflexivity. }
  split; [|split; [|split; [|split; [|split; [|split; [|split]]]]]].
  - intros rest. destruct (Hts rest) as (x & Hx & H1 & H2).
    unfold idea_of_text. rewrite Hx, H1, H2.
    eexists. reflexivity.
  - destruct (Hts (md_link url ++ post)) as (x & Hx & H1 & H2).
    unfold idea_of_text. rewrite Hx, H1, H2.
    rewrite sub_re_ts_link by assumption. reflexivity.
  - exact Hnb.
  - destruct (contains (ts_token open2 close2 mm ss) (strip (head ++ post)))
      eqn:E; [|reflexivity].
    exfalso. apply Hnb. unfold ts_token in E. cbn [app] in E.
    eapply contains_head. exact E.
  - intros post' Hpost' Hnl. destruct (Hts post') as (x & Hx & H1 & H2).
    unfold idea_of_text. rewrite Hx, H1, H2.
    rewrite sub_re_ts_link_bare by assumption. reflexivity.
  - intros text Ht. unfold idea_of_text.
    rewrite search_re_ts_none by exact Ht. reflexivity.
  - apply idea_of_bullet_line.
  - vm_compute. reflexivity.
Qed.

Lemma X27_idea_timestamp_token_witness :
  idea_of_text (u "Idea one" ++ u " " ++ ts_token true true (u "12") (u "05")
                  ++ md_link (u "https://youtu.be/abc?t=725") ++ u ", more")
  = [idea (u "Idea one, more") (JInt 725)].
Proof.
  assert (D12 : digits (u "12"))
    by (split; [discriminate | apply all_check; reflexivity]).
  assert (D05 : digits (u "05"))
    by (split; [discriminate | apply all_check; reflexivity]).
  assert (Hurl : Forall (fun x => x <> 41%N) (u "https://youtu.be/abc?t=725"))
    by (apply all_differ_check; reflexivity).
  assert (Hhead : no_bracket (u "Idea one"))
    by (apply all_differ_check; reflexivity).
  assert (Hpost : no_bracket (u ", more"))
    by (apply all_differ_check; reflexivity).
  assert (Hbl : Forall (fun x => is_space x = true) (u " "))
    by (apply all_check; reflexivity).
  destruct (@X27_idea_timestamp_token
              true true (u "Idea one") (u " ") (u "12") (u "05")
              (u "https://youtu.be/abc?t=725") (u ", more")
              Hhead eq_refl Hbl D12 D05 ltac:(discriminate) Hurl Hpost)
    as (_ & H & _).
  rewrite H. reflexivity.
Defined.

End IdeaTimestamp.

(* ===================================================================== *)
(** ** record_video.py: the update of the store *)
(* ===================================================================== *)

Section RecordStore.

Import RecordVideo.

Lemma get_set_if_given (k k' : str) (x : option str) (d : dict) :
  k <> k' -> get k' (set_if_given k x d) = get k' d.
Proof.
  intros H. unfold set_if_given.
  destruct x as [s|]; [|reflexivity].
  destruct (truthy (JStr s)); [apply get_set_other; exact H | reflexivity].
Qed.

(** The fields of the entry that come from the positional arguments. *)
Lemma video_entry_field (a : args) (now : Z) (summary : option dict)
      (k : str) :
  k <> u "thumbnail" -> k <> u "source_url" -> k <> u "summary" ->
  get k (video_entry a now summary)
  = get k [(u "id", JStr (video_id a));
           (u "title", JStr (title a));
           (u "channel", JStr (channel a));
           (u "duration", JInt (duration a));
           (u "view_count", JInt (view_count a));
           (u "like_count", JInt (like_count a));
           (u "insights_count", JInt (insights_count a));
           (u "analyzed_at", JInt now)].
Proof.
  intros H1 H2 H3. unfold video_entry.
  assert (Hbase : forall d,
             get k (set_if_given (u "source_url") (source_url a)
                      (set_if_given (u "thumbnail") (thumbnail a) d))
             = get k d).
  { intros d. rewrite !get_set_if_given by congruence. reflexivity. }
  destruct summary as [sm|]; [|apply Hbase].
  destruct (truthy (JDict sm)); [|apply Hbase].
  rewrite get_set_other by congruence. apply Hbase.
Qed.

Lemma video_entry_id (a : args) (now : Z) (summary : option dict) :
  get (u "id") (video_entry a now summary) = Some (JStr (video_id a)).
Proof. rewrite video_entry_field by discriminate. reflexivity. Qed.

Lemma video_entry_summary (a : args) (now : Z) (summary : option dict) :
  get (u "summary") (video_entry a now summary)
  = match summary with
    | Some sm => if truthy (JDict sm) then Some (JDict sm) else None
    | None => None
    end.
Proof.
  unfold video_entry.
  assert (Hbase : get (u "summary")
                      (set_if_given (u "source_url") (source_url a)
                         (set_if_given (u "thumbnail") (thumbnail a)
                            [(u "id", JStr (video_id a));
                             (u "title", JStr (title a));
                             (u "channel", JStr (channel a));
                             (u "duration", JInt (duration a));
                             (u "view_count", JInt (view_count a));
                             (u "like_count", JInt (like_count a));
                             (u "insights_count", JInt (insights_count a));
                             (u "analyzed_at", JInt now)])) = None).
  { rewrite !get_set_if_given by discriminate. reflexivity. }
  destruct summary as [sm|]; [|exact Hbase].
  destruct (truthy (JDict sm)); [apply get_set_same | exact Hbase].
Qed.

Lemma eq_str_true (x : json) (s : str) : eq_str x s = true <-> x = JStr s.
Proof.
  destruct x; cbn [eq_str]; try (split; [discriminate | congruence]).
  rewrite eqb_eq. split; congruence.
Qed.

(** What the search for the video returns. *)
Lemma find_existing_found (vid : str) (i : nat) (videos : list json)
      (idx : nat) :
  find_existing vid i videos = Some (Some idx) ->
  exists k d,
    idx = i + k
    /\ nth_error videos k = Some (JDict d)
    /\ get (u "id") d = Some (JStr vid)
    /\ forall j, j < k ->
         exists dj x, nth_error videos j = Some (JDict dj)
                      /\ get (u "id") dj = Some x /\ x <> JStr vid.
Proof.
  revert i; induction videos as [|v videos IH]; intros i; cbn [find_existing];
    [discriminate|].
  destruct v as [| | | | | |d]; try discriminate.
  destruct (get (u "id") d) as [x|] eqn:Hx; [|discriminate].
  destruct (eq_str x vid) eqn:E.
  - intros [= <-]. apply eq_str_true in E. subst x.
    exists 0, d.
    split; [lia|]. split; [reflexivity|]. split; [exact Hx|].
    intros j Hj; lia.
  - intros H. destruct (IH _ H) as (k & d' & -> & Hn & Hid & Hbefore).
    exists (S k), d'.
    split; [lia|]. split; [exact Hn|]. split; [exact Hid|].
    intros [|j] Hj.
    + exists d, x. repeat split; auto.
      intros Heq. apply eq_str_true in Heq. congruence.
    + apply Hbefore. lia.
Qed.

Lemma find_existing_none (vid : str) (i : nat) (videos : list json) :
  find_existing vid i videos = Some None -> without_id vid videos.
Proof.
  revert i; induction videos as [|v videos IH]; intros i; cbn [find_existing].
  - intros _ v [].
  - destruct v as [| | | | | |d]; try discriminate.
    destruct (get (u "id") d) as [x|] eqn:Hx; [|discriminate].
    destruct (eq_str x vid) eqn:E; [discriminate|].
    intros H v [<-|Hin].
    + exists d, x. split; [reflexivity|]. split; [exact Hx|].
      intros Heq. apply eq_str_true in Heq. congruence.
    + apply (IH (S i) H v Hin).
Qed.

Lemma find_existing_first (vid : str) (videos : list json) (idx : nat) :
  find_existing vid 0 videos = Some (Some idx) ->
  exists old, first_with_id vid videos idx old.
Proof.
  intros H. destruct (find_existing_found _ _ _ H)
    as (k & d & Hk & Hn & Hid & Hbefore).
  cbn [Nat.add] in Hk. subst k. exists d. repeat split; assumption.
Qed.

(** Searching again after the record at the index found was replaced by one
    with the same id. *)
Lemma find_existing_list_set (vid : str) (i : nat) (videos : list json)
      (idx : nat) (e : dict) :
  find_existing vid i videos = Some (Some (i + idx)) ->
  get (u "id") e = Some (JStr vid) ->
  find_existing vid i (ImportSummaries.list_set idx (JDict e) videos)
  = Some (Some (i + idx)).
Proof.
  revert i idx; induction videos as [|v videos IH]; intros i idx;
    cbn [find_existing]; [discriminate|].
  destruct v as [| | | | | |d]; try discriminate.
  destruct (get (u "id") d) as [x|] eqn:Hx; [|discriminate].
  destruct (eq_str x vid) eqn:E.
  - intros [= Hi] He. assert (idx = 0) by lia. subst idx.
    cbn [ImportSummaries.list_set find_existing]. rewrite He.
    cbn [eq_str]. rewrite eqb_refl, Nat.add_0_r. reflexivity.
  - intros H He. destruct idx as [|idx].
    + apply find_existing_found in H.
      destruct H as (k & _ & Hk & _). lia.
    + cbn [ImportSummaries.list_set find_existing]. rewrite Hx, E.
      replace (i + S idx) with (S i + idx) in * by lia.
      apply IH; assumption.
Qed.

Lemma find_existing_app (vid : str) (i : nat) (videos : list json)
      (e : dict) :
  find_existing vid i videos = Some None ->
  get (u "id") e = Some (JStr vid) ->
  find_existing vid i (videos ++ [JDict e])
  = Some (Some (i + List.length videos)).
Proof.
  revert i; induction videos as [|v videos IH]; intros i;
    cbn [find_existing app List.length].
  - intros _ He. rewrite He. cbn [eq_str]. rewrite eqb_refl.
    rewrite Nat.add_0_r. reflexivity.
  - destruct v as [| | | | | |d]; try discriminate.
    destruct (get (u "id") d) as [x|] eqn:Hx; [|discriminate].
    destruct (eq_str x vid) eqn:E; [discriminate|].
    intros H He. rewrite IH by assumption. f_equal. f_equal. lia.
Qed.

Lemma nth_error_list_set_same {A : Type} (idx : nat) (x : A) (l : list A) :
  idx < List.length l ->
  nth_error (ImportSummaries.list_set idx x l) idx = Some x.
Proof.
  revert idx; induction l as [|y l IH]; intros [|idx] H; simpl in *;
    try lia; auto.
  apply IH. lia.
Qed.

Lemma length_list_set {A : Type} (idx : nat) (x : A) (l : list A) :
  List.length (ImportSummaries.list_set idx x l) = List.length l.
Proof.
  revert idx; induction l as [|y l IH]; intros [|idx]; simpl; auto.
Qed.

End RecordStore.

Section RecordMain.

Import RecordVideo.

Lemma upsert_inv (a : args) (now : Z) (summary : option dict)
      (videos videos' : json) :
  upsert a now summary videos = Some videos' ->
  exists l,
    videos = JList l
    /\ ((exists idx old,
            find_existing (video_id a) 0 l = Some (Some idx)
            /\ nth_error l idx = Some (JDict old)
            /\ videos' = JList (list_set idx
                                  (JDict (replacing_entry a now summary old))
                                  l))
        \/ (find_existing (video_id a) 0 l = Some None
            /\ videos' = JList (l ++ [JDict (video_entry a now summary)]))).
Proof.
  unfold upsert.
  destruct (iterate videos) as [items|] eqn:Hit; [|discriminate].
  cbn [bind].
  destruct (find_existing (video_id a) 0 items) as [[idx|]|] eqn:Hf;
    [| |discriminate]; cbn [bind].
  - destruct videos as [| | | | |l|]; try discriminate.
    injection Hit as <-.
    destruct (nth_error l idx) as [[| | | | | |old]|] eqn:Hn; try discriminate.
    intros [= <-]. exists l. split; [reflexivity|]. left.
    exists idx, old. repeat split; assumption.
  - destruct videos as [| | | | |l|]; try discriminate.
    injection Hit as <-.
    intros [= <-]. exists l. split; [reflexivity|]. right.
    split; [assumption | reflexivity].
Qed.

Lemma main_inv (a : args) (stored : option json) (t1 t2 : Z) (data' : json) :
  main a stored t1 t2 = Saved data' ->
  exists top summary videos videos',
    initial_data stored = JDict top
    /\ load_summary a = Loaded summary
    /\ get (u "videos") top = Some videos
    /\ upsert a t1 summary videos = Some videos'
    /\ data' = JDict (set (u "updated_at") (JInt t2)
                          (set (u "videos") videos' top)).
Proof.
  unfold main. fold (initial_data stored).
  destruct (load_summary a) as [summary| |]; try discriminate.
  destruct (initial_data stored) as [| | | | | |top]; try discriminate.
  destruct (get (u "videos") top) as [videos|] eqn:Hv; [|discriminate].
  destruct (upsert a t1 summary videos) as [videos'|] eqn:Hu; [|discriminate].
  intros [= <-]. exists top, summary, videos, videos'.
  repeat split; assumption.
Qed.

Lemma videos_of_saved (top : dict) (l : list json) (t2 : Z) :
  videos_of (JDict (set (u "updated_at") (JInt t2)
                        (set (u "videos") (JList l) top))) = l.
Proof.
  unfold videos_of.
  rewrite get_set_other by discriminate. rewrite get_set_same. reflexivity.
Qed.

Lemma videos_of_initial (stored : option json) (top : dict) (l : list json) :
  initial_data stored = JDict top ->
  get (u "videos") top = Some (JList l) ->
  videos_of (initial_data stored) = l.
Proof. intros -> H. unfold videos_of. rewrite H. reflexivity. Qed.

Lemma replacing_entry_field (a : args) (now : Z) (summary : option dict)
      (old : dict) (k : str) :
  k <> u "summary" ->
  get k (replacing_entry a now summary old)
  = get k (video_entry a now summary).
Proof.
  intros H. unfold replacing_entry.
  destruct (no_summary summary && has (u "summary") old); [|reflexivity].
  apply get_set_other. congruence.
Qed.

End RecordMain.

Section RecordRuns.

Import RecordVideo.

Lemma set_nonempty (k : str) (v : json) (d : dict) :
  truthy (JDict (set k v d)) = true.
Proof. destruct d as [|[k' v'] d]; cbn [set]; [reflexivity|].
  destruct (PyStr.eqb k' k); reflexivity. Qed.

Lemma set_set_same (k : str) (v v' : json) (d : dict) :
  set k v' (set k v d) = set k v' d.
Proof.
  induction d as [|[k0 v0] d IH]; cbn [set].
  - rewrite eqb_refl. reflexivity.
  - destruct (PyStr.eqb k0 k) eqn:E; cbn [set]; rewrite E; [reflexivity|].
    rewrite IH. reflexivity.
Qed.

Lemma set_comm (k1 k2 : str) (v1 v2 : json) (d : dict) :
  k1 <> k2 -> has k1 d = true ->
  set k1 v1 (set k2 v2 d) = set k2 v2 (set k1 v1 d).
Proof.
  intros Hne. unfold has.
  induction d as [|[k0 v0] d IH]; cbn [get set]; [discriminate|].
  destruct (PyStr.eqb k0 k1) eqn:E1; destruct (PyStr.eqb k0 k2) eqn:E2;
    cbn [set]; rewrite ?E1, ?E2; try reflexivity.
  - apply eqb_eq in E1, E2. congruence.
  - intros H. rewrite IH by exact H. reflexivity.
Qed.

Lemma has_set (k k' : str) (v : json) (d : dict) :
  has k d = true -> has k (set k' v d) = true.
Proof.
  unfold has. rewrite get_set. destruct (PyStr.eqb k' k); auto.
Qed.

Lemma list_set_twice {A : Type} (idx : nat) (x y : A) (l : list A) :
  ImportSummaries.list_set idx y (ImportSummaries.list_set idx x l)
  = ImportSummaries.list_set idx y l.
Proof.
  revert idx; induction l as [|z l IH]; intros [|idx]; simpl; auto.
  rewrite IH. reflexivity.
Qed.

Lemma list_set_last {A : Type} (x y : A) (l : list A) :
  ImportSummaries.list_set (List.length l) y (l ++ [x]) = l ++ [y].
Proof. induction l as [|z l IH]; simpl; auto. rewrite IH. reflexivity. Qed.

Lemma nth_error_last {A : Type} (x : A) (l : list A) :
  nth_error (l ++ [x]) (List.length l) = Some x.
Proof. induction l as [|z l IH]; simpl; auto. Qed.

(** The summary that passed the validation. *)
Lemma load_summary_valid (a : args) (sm : dict) :
  load_summary a = Loaded (Some sm) ->
  exists d,
    summary_arg a = Some (Holds (JDict d))
    /\ well_shaped (repaired d (video_id a))
    /\ sm = set (u "videoId") (JStr (video_id a)) (repaired d (video_id a)).
Proof.
  unfold load_summary.
  destruct (summary_arg a) as [[| |raw]|]; try discriminate.
  destruct (truthy raw); [|discriminate].
  destruct raw as [| | | | | |d]; try discriminate.
  rewrite validate_summary_dict.
  destruct (check_summary_cases (repaired d (video_id a)) (video_id a))
    as [(_ & E)|[(_ & _ & E)|[(_ & _ & _ & E)|
       [(_ & _ & _ & _ & E)|(Hw & E)]]]]; rewrite E; try discriminate.
  intros [= <-]. exists d. repeat split; auto; apply Hw.
Qed.

Lemma load_summary_truthy (a : args) (sm : dict) :
  load_summary a = Loaded (Some sm) -> no_summary (Some sm) = false.
Proof.
  intros H. destruct (load_summary_valid _ H) as (d & _ & _ & ->).
  cbn [no_summary]. rewrite set_nonempty. reflexivity.
Qed.

Lemma video_entry_no_summary (a : args) (now : Z) (summary : option dict) :
  no_summary summary = true ->
  get (u "summary") (video_entry a now summary) = None.
Proof.
  intros H. rewrite video_entry_summary.
  destruct summary as [sm|]; [|reflexivity].
  cbn [no_summary] in H. destruct (truthy (JDict sm)); [discriminate|].
  reflexivity.
Qed.

Lemma video_entry_with_summary (a : args) (now : Z) (sm : dict) :
  no_summary (Some sm) = false ->
  get (u "summary") (video_entry a now (Some sm)) = Some (JDict sm).
Proof.
  intros H. rewrite video_entry_summary.
  cbn [no_summary] in H. destruct (truthy (JDict sm)); [|discriminate].
  reflexivity.
Qed.

(** The summary of the record that replaces [old]. *)
Lemma replacing_entry_summary (a : args) (now : Z) (summary : option dict)
      (old : dict) :
  get (u "summary") (replacing_entry a now summary old)
  = if no_summary summary then get (u "summary") old
    else get (u "summary") (video_entry a now summary).
Proof.
  unfold replacing_entry, has, get_default.
  destruct (no_summary summary) eqn:Hs; cbn [andb]; [|reflexivity].
  destruct (get (u "summary") old) as [x|] eqn:Ho.
  - apply get_set_same.
  - apply video_entry_no_summary. exact Hs.
Qed.

Lemma replacing_entry_ext (a : args) (now : Z) (summary : option dict)
      (old old' : dict) :
  (no_summary summary = true ->
   get (u "summary") old' = get (u "summary") old) ->
  replacing_entry a now summary old' = replacing_entry a now summary old.
Proof.
  unfold replacing_entry, has, get_default.
  destruct (no_summary summary); cbn [andb]; [|reflexivity].
  intros H. rewrite (H eq_refl). reflexivity.
Qed.

Lemma upsert_found (a : args) (now : Z) (summary : option dict)
      (l : list json) (idx : nat) (old : dict) :
  find_existing (video_id a) 0 l = Some (Some idx) ->
  nth_error l idx = Some (JDict old) ->
  upsert a now summary (JList l)
  = Some (JList (list_set idx (JDict (replacing_entry a now summary old)) l)).
Proof.
  intros Hf Hn. unfold upsert. cbn [iterate bind]. rewrite Hf. cbn [bind].
  rewrite Hn. reflexivity.
Qed.

Lemma upsert_new (a : args) (now : Z) (summary : option dict)
      (l : list json) :
  find_existing (video_id a) 0 l = Some None ->
  upsert a now summary (JList l)
  = Some (JList (l ++ [JDict (video_entry a now summary)])).
Proof.
  intros Hf. unfold upsert. cbn [iterate bind]. rewrite Hf. reflexivity.
Qed.

(** What a run that saves did, from the store it started from. *)
Lemma main_saved (a : args) (stored : option json) (t1 t2 : Z)
      (data' : json) :
  main a stored t1 t2 = Saved data' ->
  exists top summary l l' idx,
    initial_data stored = JDict top
    /\ load_summary a = Loaded summary
    /\ get (u "videos") top = Some (JList l)
    /\ upsert a t1 summary (JList l) = Some (JList l')
    /\ data' = JDict (set (u "updated_at") (JInt t2)
                          (set (u "videos") (JList l') top))
    /\ find_existing (video_id a) 0 l' = Some (Some idx)
    /\ ((exists old,
            find_existing (video_id a) 0 l = Some (Some idx)
            /\ nth_error l idx = Some (JDict old)
            /\ l' = list_set idx (JDict (replacing_entry a t1 summary old)) l)
        \/ (find_existing (video_id a) 0 l = Some None
            /\ idx = List.length l
            /\ l' = l ++ [JDict (video_entry a t1 summary)])).
Proof.
  intros H.
  destruct (main_inv _ _ _ _ H)
    as (top & summary & videos & videos' & Hinit & Hload & Hv & Hu & ->).
  destruct (upsert_inv _ _ _ _ Hu) as (l & -> & [Hcase|Hcase]).
  - destruct Hcase as (idx & old & Hf & Hn & ->).
    eexists top, summary, l, _, idx.
    repeat (split; [eassumption || reflexivity|]).
    split.
    + apply (@find_existing_list_set (video_id a) 0 l idx
                                     (replacing_entry a t1 summary old) Hf).
      rewrite replacing_entry_field by discriminate. apply video_entry_id.
    + left. exists old. repeat split; assumption.
  - destruct Hcase as (Hf & ->).
    eexists top, summary, l, _, (List.length l).
    repeat (split; [eassumption || reflexivity|]).
    split.
    + apply (@find_existing_app (video_id a) 0 l
                                (video_entry a t1 summary) Hf).
      apply video_entry_id.
    + right. repeat split; assumption.
Qed.

End RecordRuns.

Section RecordResults.

Import RecordVideo.

Lemma given_get (k : str) (x : option str) (d : dict) :
  get k d = None -> get k (set_if_given k x d) = given x.
Proof.
  intros H. unfold set_if_given, given.
  destruct x as [[|c s]|]; cbn [truthy List.length Nat.eqb negb]; auto.
  apply get_set_same.
Qed.

Lemma video_entry_thumbnail (a : args) (now : Z) (summary : option dict) :
  get (u "thumbnail") (video_entry a now summary) = given (thumbnail a).
Proof.
  unfold video_entry.
  assert (H : forall d, get (u "thumbnail") d = None ->
              get (u "thumbnail")
                  (set_if_given (u "source_url") (source_url a)
                     (set_if_given (u "thumbnail") (thumbnail a) d))
              = given (thumbnail a)).
  { intros d Hd. rewrite get_set_if_given by discriminate.
    apply given_get. exact Hd. }
  destruct summary as [sm|]; [|apply H; reflexivity].
  destruct (truthy (JDict sm)); [|apply H; reflexivity].
  rewrite get_set_other by discriminate. apply H; reflexivity.
Qed.

Lemma video_entry_source_url (a : args) (now : Z) (summary : option dict) :
  get (u "source_url") (video_entry a now summary) = given (source_url a).
Proof.
  unfold video_entry.
  assert (H : forall d, get (u "source_url") d = None ->
              get (u "source_url")
                  (set_if_given (u "source_url") (source_url a)
                     (set_if_given (u "thumbnail") (thumbnail a) d))
              = given (source_url a)).
  { intros d Hd. apply given_get.
    rewrite get_set_if_given by discriminate. exact Hd. }
  destruct summary as [sm|]; [|apply H; reflexivity].
  destruct (truthy (JDict sm)); [|apply H; reflexivity].
  rewrite get_set_other by discriminate. apply H; reflexivity.
Qed.

Lemma video_entry_other (a : args) (now : Z) (summary : option dict)
      (k : str) :
  ~ In k entry_fields -> get k (video_entry a now summary) = None.
Proof.
  intros H. unfold entry_fields in H. cbn [In] in H.
  rewrite video_entry_field by (intros E; apply H; rewrite E; tauto).
  cbn [get].
  repeat match goal with
  | |- context [PyStr.eqb ?x k] =>
      replace (PyStr.eqb x k) with false
        by (symmetry; apply eqb_neq; intros E; apply H; rewrite E; tauto)
  end.
  reflexivity.
Qed.

(** The place of the record of the video after a run that saves, against
    the store the run started from. *)
Lemma saved_place (a : args) (stored : option json) (t1 t2 : Z)
      (data' : json) (idx : nat) :
  main a stored t1 t2 = Saved data' ->
  find_existing (video_id a) 0 (videos_of data') = Some (Some idx) ->
  exists summary,
    load_summary a = Loaded summary
    /\ ((exists old,
            first_with_id (video_id a) (videos_of (initial_data stored))
                          idx old
            /\ videos_of data'
               = list_set idx (JDict (replacing_entry a t1 summary old))
                          (videos_of (initial_data stored)))
        \/ (without_id (video_id a) (videos_of (initial_data stored))
            /\ idx = List.length (videos_of (initial_data stored))
            /\ videos_of data'
               = videos_of (initial_data stored)
                 ++ [JDict (video_entry a t1 summary)])).
Proof.
  intros H Hf.
  destruct (main_saved _ _ _ _ H)
    as (top & summary & l & l' & idx' & Hinit & Hload & Hv & Hu & -> & Hf'
        & Hcase).
  rewrite videos_of_saved in *.
  assert (idx' = idx) by congruence. subst idx'.
  rewrite (@videos_of_initial stored top l Hinit Hv).
  exists summary. split; [exact Hload|].
  destruct Hcase as [(old & Hfo & Hno & ->)|(Hfo & -> & ->)].
  - left. destruct (@find_existing_first (video_id a) l idx Hfo) as (old' & Hfirst).
    assert (old' = old) by (destruct Hfirst as (Hn' & _); congruence).
    subst old'. exists old. split; [exact Hfirst | reflexivity].
  - right. split; [apply (@find_existing_none (video_id a) 0 l Hfo)|].
    split; reflexivity.
Qed.

Lemma first_with_id_in_range (vid : str) (videos : list json) (idx : nat)
      (old : dict) :
  first_with_id vid videos idx old -> idx < List.length videos.
Proof.
  intros (Hn & _). apply nth_error_Some. rewrite Hn. discriminate.
Qed.

Lemma first_with_id_not_without (vid : str) (videos : list json)
      (idx : nat) (old : dict) :
  first_with_id vid videos idx old -> ~ without_id vid videos.
Proof.
  intros (Hn & Hid & _) Hnone.
  destruct (Hnone (JDict old) (nth_error_In _ _ Hn))
    as (d & x & Hd & Hx & Hne).
  injection Hd as <-. congruence.
Qed.

(** The record of the video after a run that saves. *)
Lemma saved_entry (a : args) (stored : option json) (t1 t2 : Z)
      (data' : json) (idx : nat) (entry : dict) :
  main a stored t1 t2 = Saved data' ->
  find_existing (video_id a) 0 (videos_of data') = Some (Some idx) ->
  nth_error (videos_of data') idx = Some (JDict entry) ->
  exists summary,
    load_summary a = Loaded summary
    /\ (forall k, k <> u "summary" ->
                  get k entry = get k (video_entry a t1 summary))
    /\ ((exists old,
            first_with_id (video_id a) (videos_of (initial_data stored))
                          idx old
            /\ get (u "summary") entry
               = if no_summary summary then get (u "summary") old
                 else get (u "summary") (video_entry a t1 summary))
        \/ (without_id (video_id a) (videos_of (initial_data stored))
            /\ idx = List.length (videos_of (initial_data stored))
            /\ get (u "summary") entry
               = get (u "summary") (video_entry a t1 summary))).
Proof.
  intros H Hf Hn.
  destruct (saved_place _ _ _ _ H Hf) as (summary & Hload & Hcase).
  exists summary. split; [exact Hload|].
  destruct Hcase as [(old & Hfirst & Hnew)|(Hnone & Hidx & Hnew)];
    rewrite Hnew in Hn.
  - rewrite nth_error_list_set_same in Hn
      by (apply (@first_with_id_in_range _ _ _ _ Hfirst)).
    assert (entry = replacing_entry a t1 summary old) by congruence.
    subst entry. split.
    + intros k Hk. apply replacing_entry_field. exact Hk.
    + left. exists old. split; [exact Hfirst|].
      apply replacing_entry_summary.
  - rewrite Hidx, nth_error_last in Hn.
    assert (entry = video_entry a t1 summary) by congruence. subst entry.
    split; [reflexivity|]. right. repeat split; assumption.
Qed.

(** X1. After a run of [record_video.py] that saves, the video is in the
    store: the search by which the script finds a video finds the given id.
    It finds it at the index of the first record that had this id in the
    store the run started from, or, when no record had it, at the end, one
    past the old records.  The record there holds the title, channel,
    duration, counts and time of this run, and [updated_at] is the time of
    the save. *)
Theorem X1_record_then_lookup :
  forall (a : args) (stored : option json) (t1 t2 : Z) (data' : json),
    main a stored t1 t2 = Saved data' ->
    exists idx entry,
      find_existing (video_id a) 0 (videos_of data') = Some (Some idx)
      /\ nth_error (videos_of data') idx = Some (JDict entry)
      /\ ((exists old,
              first_with_id (video_id a) (videos_of (initial_data stored))
                            idx old)
          \/ (without_id (video_id a) (videos_of (initial_data stored))
              /\ idx = List.length (videos_of (initial_data stored))))
      /\ (forall k,
             k <> u "thumbnail" -> k <> u "source_url" -> k <> u "summary" ->
             get k entry
             = get k [(u "id", JStr (video_id a));
                      (u "title", JStr (title a));
                      (u "channel", JStr (channel a));
                      (u "duration", JInt (duration a));
                      (u "view_count", JInt (view_count a));
                      (u "like_count", JInt (like_count a));
                      (u "insights_count", JInt (insights_count a));
                      (u "analyzed_at", JInt t1)])
      /\ match data' with
         | JDict top' => get (u "updated_at") top' = Some (JInt t2)
         | _ => False
         end.
Proof.
  intros a stored t1 t2 data' H.
  destruct (main_saved _ _ _ _ H)
    as (top & summary0 & l & l' & idx & _ & _ & _ & _ & Hdata & Hf' & _).
  assert (Hf : find_existing (video_id a) 0 (videos_of data')
               = Some (Some idx))
    by (rewrite Hdata, videos_of_saved; exact Hf').
  assert (Hup : match data' with
                | JDict top' => get (u "updated_at") top' = Some (JInt t2)
                | _ => False
                end)
    by (rewrite Hdata; apply get_set_same).
  destruct (saved_place _ _ _ _ H Hf) as (summary & _ & Hcase).
  assert (Hentry : exists entry,
             nth_error (videos_of data') idx = Some (JDict entry)
             /\ forall k, k <> u "summary" ->
                  get k entry = get k (video_entry a t1 summary)).
  { destruct Hcase as [(old & Hfirst & Hnew)|(Hnone & Hidx & Hnew)];
      rewrite Hnew.
    - eexists. split.
      + apply nth_error_list_set_same.
        apply (@first_with_id_in_range _ _ _ _ Hfirst).
      + intros k Hk. apply replacing_entry_field. exact Hk.
    - eexists. split; [rewrite Hidx; apply nth_error_last | reflexivity]. }
  destruct Hentry as (entry & Hn & Hk).
  exists idx, entry. split; [exact Hf|]. split; [exact Hn|]. split.
  - destruct Hcase as [(old & Hfirst & _)|(Hnone & Hidx & _)].
    + left. exists old. exact Hfirst.
    + right. split; assumption.
  - split; [|exact Hup].
    intros k H1 H2 H3. rewrite Hk by exact H3.
    apply video_entry_field; assumption.
Qed.

Lemma X1_record_then_lookup_witness :
  exists idx entry,
    find_existing (video_id example_args) 0 (videos_of example_saved)
    = Some (Some idx)
    /\ nth_error (videos_of example_saved) idx = Some (JDict entry)
    /\ ((exists old,
            first_with_id (video_id example_args)
                          (videos_of (initial_data (Some two_videos)))
                          idx old)
        \/ (without_id (video_id example_args)
                       (videos_of (initial_data (Some two_videos)))
            /\ idx = List.length (videos_of (initial_data (Some two_videos)))))
    /\ (forall k,
           k <> u "thumbnail" -> k <> u "source_url" -> k <> u "summary" ->
           get k entry
           = get k [(u "id", JStr (video_id example_args));
                    (u "title", JStr (title example_args));
                    (u "channel", JStr (channel example_args));
                    (u "duration", JInt (duration example_args));
                    (u "view_count", JInt (view_count example_args));
                    (u "like_count", JInt (like_count example_args));
                    (u "insights_count", JInt (insights_count example_args));
                    (u "analyzed_at", JInt 5)])
    /\ match example_saved with
       | JDict top' => get (u "updated_at") top' = Some (JInt 6)
       | _ => False
       end.
Proof.
  apply (@X1_record_then_lookup example_args (Some two_videos) 5 6
                                example_saved).
  vm_compute. reflexivity.
Defined.

(** X2. A run of [record_video.py] that saves touches one record, the one
    its search then finds.  Every other index of the list of videos holds
    what it held.  Either this index is the one of the first record that
    had the id of the video, and the list keeps its length; or no record had
    this id, the index is the old length and the list has grown by one: the
    list grows exactly when the video was not there.  Every other key of
    the store keeps its value. *)
Theorem X2_record_touches_one_record :
  forall (a : args) (stored : option json) (t1 t2 : Z) (data' : json)
         (idx : nat),
    main a stored t1 t2 = Saved data' ->
    find_existing (video_id a) 0 (videos_of data') = Some (Some idx) ->
    (forall j, j <> idx ->
               nth_error (videos_of data') j
               = nth_error (videos_of (initial_data stored)) j)
    /\ (((exists old,
             first_with_id (video_id a) (videos_of (initial_data stored))
                           idx old)
         /\ List.length (videos_of data')
            = List.length (videos_of (initial_data stored)))
        \/ (without_id (video_id a) (videos_of (initial_data stored))
            /\ idx = List.length (videos_of (initial_data stored))
            /\ List.length (videos_of data')
               = S (List.length (videos_of (initial_data stored)))))
    /\ (without_id (video_id a) (videos_of (initial_data stored))
        <-> List.length (videos_of data')
            = S (List.length (videos_of (initial_data stored))))
    /\ match initial_data stored, data' with
       | JDict top, JDict top' =>
           forall k, k <> u "videos" -> k <> u "updated_at" ->
                     get k top' = get k top
       | _, _ => False
       end.
Proof.
  intros a stored t1 t2 data' idx H Hf.
  destruct (saved_place _ _ _ _ H Hf) as (summary & _ & Hcase).
  assert (Hframe : match initial_data stored, data' with
                   | JDict top, JDict top' =>
                       forall k, k <> u "videos" -> k <> u "updated_at" ->
                                 get k top' = get k top
                   | _, _ => False
                   end).
  { destruct (main_saved _ _ _ _ H)
      as (top & summary0 & l & l' & idx' & Hinit & _ & _ & _ & -> & _).
    rewrite Hinit. intros k H1 H2.
    rewrite !get_set_other by congruence. reflexivity. }
  destruct Hcase as [(old & Hfirst & Hnew)|(Hnone & Hidx & Hnew)];
    rewrite Hnew.
  - split; [|split; [|split; [|exact Hframe]]].
    + intros j Hj. apply nth_error_list_set. exact Hj.
    + left. split; [exists old; exact Hfirst | apply length_list_set].
    + rewrite length_list_set. split.
      * intros Hnone. destruct (@first_with_id_not_without _ _ _ _ Hfirst Hnone).
      * intros Hlen. lia.
  - split; [|split; [|split; [|exact Hframe]]].
    + intros j Hj.
      destruct (Nat.lt_ge_cases j
                  (List.length (videos_of (initial_data stored))))
        as [Hlt|Hge].
      * apply nth_error_app1. exact Hlt.
      * transitivity (@None json).
        -- apply nth_error_None. rewrite length_app. cbn [List.length]. lia.
        -- symmetry. apply nth_error_None. lia.
    + right. split; [exact Hnone|]. split; [exact Hidx|].
      rewrite length_app. cbn [List.length]. lia.
    + rewrite length_app. cbn [List.length].
      split; [intros _; lia | intros _; exact Hnone].
Qed.

Lemma X2_record_touches_one_record_witness :
  (forall j, j <> 1 ->
             nth_error (videos_of example_saved) j
             = nth_error (videos_of (initial_data (Some two_videos))) j)
  /\ (((exists old,
           first_with_id (video_id example_args)
                         (videos_of (initial_data (Some two_videos))) 1 old)
       /\ List.length (videos_of example_saved)
          = List.length (videos_of (initial_data (Some two_videos))))
      \/ (without_id (video_id example_args)
                     (videos_of (initial_data (Some two_videos)))
          /\ 1 = List.length (videos_of (initial_data (Some two_videos)))
          /\ List.length (videos_of example_saved)
             = S (List.length (videos_of (initial_data (Some two_videos))))))
  /\ (without_id (video_id example_args)
                 (videos_of (initial_data (Some two_videos)))
      <-> List.length (videos_of example_saved)
          = S (List.length (videos_of (initial_data (Some two_videos)))))
  /\ match initial_data (Some two_videos), example_saved with
     | JDict top, JDict top' =>
         forall k, k <> u "videos" -> k <> u "updated_at" ->
                   get k top' = get k top
     | _, _ => False
     end.
Proof.
  apply (@X2_record_touches_one_record example_args (Some two_videos) 5 6
                                       example_saved 1);
    vm_compute; reflexivity.
Defined.

(** X3. The summary of the record of the video after a run of
    [record_video.py] that saves.  A summary given on the command line (a
    dict that is not empty) is stored as validated: repaired, and with
    [videoId] set to the video.  Without one (no option, or a falsy value
    such as an empty dict or null) the record keeps the summary field of
    the first record that had the id of the video in the store the run
    started from, and has no summary when no record had this id. *)
Theorem X3_record_summary_kept_or_replaced :
  forall (a : args) (stored : option json) (t1 t2 : Z) (data' : json)
         (idx : nat) (entry : dict),
    main a stored t1 t2 = Saved data' ->
    find_existing (video_id a) 0 (videos_of data') = Some (Some idx) ->
    nth_error (videos_of data') idx = Some (JDict entry) ->
    (forall d, summary_arg a = Some (Holds (JDict d)) -> d <> [] ->
       get (u "summary") entry
       = Some (JDict (set (u "videoId") (JStr (video_id a))
                          (repaired d (video_id a)))))
    /\ (no_summary_given a ->
        (exists old,
            first_with_id (video_id a) (videos_of (initial_data stored))
                          idx old
            /\ get (u "summary") entry = get (u "summary") old)
        \/ (without_id (video_id a) (videos_of (initial_data stored))
            /\ get (u "summary") entry = None)).
Proof.
  intros a stored t1 t2 data' idx entry H Hf Hn.
  destruct (saved_entry _ _ _ _ H Hf Hn) as (summary & Hload & _ & Hs).
  split.
  - intros d Hd Hne.
    assert (Ht : truthy (JDict d) = true)
      by (destruct d; [congruence | reflexivity]).
    destruct summary as [sm|].
    + pose proof (load_summary_truthy _ Hload) as Hns.
      destruct (load_summary_valid _ Hload) as (d' & Hd' & _ & Hsm).
      assert (d' = d) by congruence. subst d'.
      rewrite Hns in Hs.
      rewrite (@video_entry_with_summary a t1 sm Hns) in Hs.
      rewrite <- Hsm.
      destruct Hs as [(old & _ & Hs)|(_ & _ & Hs)]; exact Hs.
    + exfalso. unfold load_summary in Hload. rewrite Hd, Ht in Hload.
      destruct (fst (validate_summary (JDict d) (video_id a)));
        discriminate.
  - intros Hno.
    assert (summary = None).
    { unfold load_summary in Hload.
      destruct Hno as [E|(raw & E & Ht)]; rewrite E in Hload.
      - congruence.
      - rewrite Ht in Hload. congruence. }
    subst summary. cbn [no_summary] in Hs.
    rewrite (@video_entry_no_summary a t1 None eq_refl) in Hs.
    destruct Hs as [(old & Hfirst & Hs)|(Hnone & _ & Hs)].
    + left. exists old. split; assumption.
    + right. split; assumption.
Qed.

Lemma X3_record_summary_kept_or_replaced_witness :
  get (u "summary") example_entry_summary
  = Some (JDict (set (u "videoId") (JStr (u "abc"))
                     (repaired example_summary (u "abc"))))
  /\ ((exists old,
          first_with_id (u "abc") (videos_of (initial_data (Some two_videos)))
                        1 old
          /\ get (u "summary") example_entry = get (u "summary") old)
      \/ (without_id (u "abc") (videos_of (initial_data (Some two_videos)))
          /\ get (u "summary") example_entry = None)).
Proof.
  split.
  - destruct (@X3_record_summary_kept_or_replaced
                example_args_summary (Some two_videos) 5 6
                example_saved_summary 1 example_entry_summary
                ltac:(vm_compute; reflexivity) ltac:(vm_compute; reflexivity)
                ltac:(vm_compute; reflexivity)) as (Hgiven & _).
    apply (Hgiven example_summary eq_refl). discriminate.
  - destruct (@X3_record_summary_kept_or_replaced
                example_args (Some two_videos) 5 6 example_saved 1
                example_entry
                ltac:(vm_compute; reflexivity) ltac:(vm_compute; reflexivity)
                ltac:(vm_compute; reflexivity)) as (_ & Hkept).
    apply Hkept. left. reflexivity.
Defined.

(** X4. Apart from the summary, the record after a run of
    [record_video.py] comes from the command line alone: [thumbnail] and
    [source_url] are the options when given and not empty and are absent
    otherwise, whatever the store held for the video, and the record has no
    field beyond the eleven the script writes. *)
Theorem X4_record_replaces_other_fields :
  forall (a : args) (stored : option json) (t1 t2 : Z) (data' : json)
         (idx : nat) (entry : dict),
    main a stored t1 t2 = Saved data' ->
    find_existing (video_id a) 0 (videos_of data') = Some (Some idx) ->
    nth_error (videos_of data') idx = Some (JDict entry) ->
    get (u "thumbnail") entry = given (thumbnail a)
    /\ get (u "source_url") entry = given (source_url a)
    /\ forall k, ~ In k entry_fields -> get k entry = None.
Proof.
  intros a stored t1 t2 data' idx entry H Hf Hn.
  destruct (saved_entry _ _ _ _ H Hf Hn) as (summary & _ & Hk & _).
  split; [|split].
  - rewrite Hk by discriminate. apply video_entry_thumbnail.
  - rewrite Hk by discriminate. apply video_entry_source_url.
  - intros k Hnot. rewrite Hk.
    + apply video_entry_other. exact Hnot.
    + intros ->. apply Hnot. unfold entry_fields. cbn [In]. tauto.
Qed.

Lemma X4_record_replaces_other_fields_witness :
  get (u "thumbnail") example_entry = given (thumbnail example_args)
  /\ get (u "source_url") example_entry = given (source_url example_args)
  /\ forall k, ~ In k entry_fields -> get k example_entry = None.
Proof.
  apply (@X4_record_replaces_other_fields example_args (Some two_videos)
           5 6 example_saved 1 example_entry);
    vm_compute; reflexivity.
Defined.

End RecordResults.

Section RecordAgain.

Import RecordVideo.

Lemma main_on (a : args) (stored : option json) (t1 t2 : Z)
      (top : dict) (summary : option dict) (l l' : list json) :
  initial_data stored = JDict top ->
  load_summary a = Loaded summary ->
  get (u "videos") top = Some (JList l) ->
  upsert a t1 summary (JList l) = Some (JList l') ->
  main a stored t1 t2
  = Saved (JDict (set (u "updated_at") (JInt t2)
                      (set (u "videos") (JList l') top))).
Proof.
  intros Hinit Hload Hv Hu. unfold main. fold (initial_data stored).
  rewrite Hload, Hinit, Hv, Hu. reflexivity.
Qed.

Lemma replacing_entry_again (a : args) (t t' : Z) (summary : option dict)
      (old : dict) :
  replacing_entry a t' summary (replacing_entry a t summary old)
  = replacing_entry a t' summary old.
Proof.
  apply replacing_entry_ext. intros Hs.
  rewrite replacing_entry_summary, Hs. reflexivity.
Qed.

Lemma replacing_entry_new (a : args) (t t' : Z) (summary : option dict) :
  replacing_entry a t' summary (video_entry a t summary)
  = video_entry a t' summary.
Proof.
  unfold replacing_entry, has.
  destruct (no_summary summary) eqn:Hs; cbn [andb]; [|reflexivity].
  rewrite video_entry_no_summary by exact Hs. reflexivity.
Qed.

(** X5. Recording a video a second time with the same command line gives
    the store that one run at the later time gives: the second run finds
    the record of the first, replaces it in place, and adds nothing. *)
Theorem X5_record_twice_is_once :
  forall (a : args) (stored : option json) (t1 t2 t1' t2' : Z)
         (data1 : json),
    main a stored t1 t2 = Saved data1 ->
    main a (Some data1) t1' t2' = main a stored t1' t2'.
Proof.
  intros a stored t1 t2 t1' t2' data1 H.
  destruct (main_saved _ _ _ _ H)
    as (top & summary & l & l' & idx & Hinit & Hload & Hv & Hu & -> & Hf'
        & Hcase).
  assert (Hset : forall L1 L2 : json,
            set (u "updated_at") (JInt t2')
                (set (u "videos") L2
                     (set (u "updated_at") (JInt t2)
                          (set (u "videos") L1 top)))
            = set (u "updated_at") (JInt t2') (set (u "videos") L2 top)).
  { intros L1 L2.
    rewrite (@set_comm (u "videos") (u "updated_at") L2 (JInt t2)
                       (set (u "videos") L1 top))
      by (try discriminate; unfold has; rewrite get_set_same; reflexivity).
    rewrite !set_set_same. reflexivity. }
  assert (Hagain : forall l2,
            upsert a t1' summary (JList l') = Some (JList l2) ->
            main a (Some (JDict (set (u "updated_at") (JInt t2)
                                     (set (u "videos") (JList l') top))))
                 t1' t2'
            = Saved (JDict (set (u "updated_at") (JInt t2')
                                (set (u "videos") (JList l2) top)))).
  { intros l2 Hu2. rewrite <- Hset with (L1 := JList l').
    apply main_on with (summary := summary) (l := l'); auto.
    rewrite get_set_other by discriminate. apply get_set_same. }
  destruct Hcase as [(old & Hfo & Hno & ->)|(Hfo & -> & ->)].
  - assert (Hlt : idx < List.length l)
      by (apply nth_error_Some; rewrite Hno; discriminate).
    rewrite (Hagain (list_set idx (JDict (replacing_entry a t1' summary old))
                              l)).
    + symmetry. apply main_on with (summary := summary) (l := l); auto.
      apply upsert_found; assumption.
    + rewrite (@upsert_found a t1' summary _ idx
                             (replacing_entry a t1 summary old) Hf')
        by (apply nth_error_list_set_same; exact Hlt).
      rewrite list_set_twice, replacing_entry_again. reflexivity.
  - rewrite (Hagain (l ++ [JDict (video_entry a t1' summary)])).
    + symmetry. apply main_on with (summary := summary) (l := l); auto.
      apply upsert_new; assumption.
    + rewrite (@upsert_found a t1' summary _ (List.length l)
                             (video_entry a t1 summary) Hf')
        by apply nth_error_last.
      rewrite list_set_last, replacing_entry_new. reflexivity.
Qed.

Lemma X5_record_twice_is_once_witness :
  main example_args (Some example_saved) 7 8
  = main example_args (Some two_videos) 7 8.
Proof.
  apply (@X5_record_twice_is_once example_args (Some two_videos) 5 6 7 8
                                  example_saved).
  vm_compute. reflexivity.
Defined.

Lemma load_summary_rejected (a : args) :
  load_summary a = LoadExited <-> rejected a.
Proof.
  unfold load_summary, rejected.
  destruct (summary_arg a) as [[| |raw]|].
  - split; [discriminate|].
    intros [[=]|(raw & [=] & _)].
  - split; [intros _; left; reflexivity | reflexivity].
  - destruct (truthy raw) eqn:Ht.
    + destruct raw as [| | | | | |d];
        try (split; [intros _; right; eexists; split; [reflexivity|];
                     split; [exact Ht | intros d [=]]
                    | intros _; reflexivity]).
      rewrite validate_summary_dict.
      destruct (check_summary_cases (repaired d (video_id a)) (video_id a))
        as [(Hm & E)|[(_ & Hb & E)|[(_ & _ & Hb & E)|
           [(_ & _ & _ & Hb & E)|(Hw & E)]]]]; rewrite E.
      * split; [intros _|reflexivity]. right. eexists.
        split; [reflexivity|]. split; [exact Ht|].
        intros d' [= <-] Hw. apply Hm. apply nothing_missing. exact Hw.
      * split; [intros _|reflexivity]. right. eexists.
        split; [reflexivity|]. split; [exact Ht|].
        intros d' [= <-] Hw. apply Hb, Hw.
      * split; [intros _|reflexivity]. right. eexists.
        split; [reflexivity|]. split; [exact Ht|].
        intros d' [= <-] Hw. apply Hb, Hw.
      * split; [intros _|reflexivity]. right. eexists.
        split; [reflexivity|]. split; [exact Ht|].
        intros d' [= <-] Hw. apply Hb, Hw.
      * split; [discriminate|].
        intros [[=]|(raw & [= <-] & _ & Hno)].
        exfalso. apply (Hno d eq_refl). exact Hw.
    + split; [discriminate|].
      intros [[=]|(raw' & [= <-] & Ht' & _)]. congruence.
  - split; [discriminate|].
    intros [[=]|(raw & [=] & _)].
Qed.

Lemma load_summary_unreadable (a : args) :
  load_summary a = LoadRaised <-> summary_arg a = Some Unreadable.
Proof.
  unfold load_summary.
  destruct (summary_arg a) as [[| |raw]|];
    try (split; [reflexivity || discriminate | reflexivity || discriminate]).
  destruct (truthy raw); [|split; discriminate].
  destruct (fst (validate_summary raw (video_id a))); split; discriminate.
Qed.

(** X6. A run of [record_video.py] ends by its own error exit (one of the
    two messages that start with ERROR, then [sys.exit(1)], nothing written)
    exactly when the summary is rejected: the option names a text that is
    not JSON, or a value that is truthy and is not, once repaired, a
    well-shaped dict.  This holds for every value that the data file may
    hold; a falsy value (an empty dict, null) is not rejected.  A summary
    file that cannot be opened ends the run otherwise: by an exception that
    nothing catches, for every store, and nothing is written either. *)
Theorem X6_record_error_exit_iff_summary_rejected :
  forall (a : args) (stored : option json) (t1 t2 : Z),
    (main a stored t1 t2 = Exited <-> rejected a)
    /\ (summary_arg a = Some Unreadable -> main a stored t1 t2 = Raised).
Proof.
  intros a stored t1 t2. split.
  - rewrite <- load_summary_rejected.
    unfold main. destruct (load_summary a) as [summary| |].
    + split; [|discriminate].
      destruct stored as [[| | | | | |top]|]; try discriminate.
      destruct (get (u "videos") top) as [videos|]; [|discriminate].
      destruct (upsert a t1 summary videos); discriminate.
    + split; reflexivity.
    + split; discriminate.
  - intros Hu. apply load_summary_unreadable in Hu.
    unfold main. rewrite Hu. reflexivity.
Qed.

Lemma find_existing_total (vid : str) (i : nat) (l : list json) :
  Forall has_id l -> exists r, find_existing vid i l = Some r.
Proof.
  intros H. revert i. induction H as [|v l (d & x & -> & Hx) _ IH];
    intros i; cbn [find_existing]; [eauto|].
  rewrite Hx. destruct (eq_str x vid); eauto.
Qed.

Lemma Forall_list_set {A : Type} (P : A -> Prop) (idx : nat) (x : A)
      (l : list A) :
  Forall P l -> P x -> Forall P (ImportSummaries.list_set idx x l).
Proof.
  intros H Hx. revert idx. induction H as [|y l Hy Hl IH]; intros [|idx];
    cbn [ImportSummaries.list_set]; constructor; auto.
Qed.

Lemma has_id_video_entry (a : args) (now : Z) (summary : option dict) :
  has_id (JDict (video_entry a now summary)).
Proof. do 2 eexists. split; [reflexivity|]. apply video_entry_id. Qed.

Lemma has_id_replacing_entry (a : args) (now : Z) (summary : option dict)
      (old : dict) :
  has_id (JDict (replacing_entry a now summary old)).
Proof.
  do 2 eexists. split; [reflexivity|].
  rewrite replacing_entry_field by discriminate. apply video_entry_id.
Qed.

(** X7. On a store in which every record has an [id] -- among them the
    store of a first run, when the data file does not exist -- and with a
    summary file that can be opened when one is named, [record_video.py]
    raises no exception: it saves, or it ends by its error exit on a
    rejected summary; and the store it saves is again one in which every
    record has an [id]. *)
Theorem X7_record_keeps_store_well_formed :
  forall (a : args) (stored : option json) (t1 t2 : Z),
    well_formed_store (initial_data stored) ->
    summary_arg a <> Some Unreadable ->
    main a stored t1 t2 <> Raised
    /\ forall data', main a stored t1 t2 = Saved data' ->
                     well_formed_store data'.
Proof.
  intros a stored t1 t2 (top & l & Hinit & Hv & Hl) Hopen.
  destruct (load_summary a) as [summary| |] eqn:Hload.
  2: { unfold main. rewrite Hload. split; discriminate. }
  2: { apply load_summary_unreadable in Hload. destruct (Hopen Hload). }
  destruct (find_existing_total (video_id a) 0 Hl) as ([idx|] & Hf).
  - destruct (find_existing_found _ _ _ Hf) as (k & old & -> & Hn & _).
    cbn [Nat.add] in Hf.
    rewrite (@main_on a stored t1 t2 top summary l _ Hinit Hload Hv
                      (@upsert_found a t1 summary l k old Hf Hn)).
    split; [discriminate|]. intros data' [= <-].
    exists (set (u "updated_at") (JInt t2)
             (set (u "videos")
                  (JList (list_set k (JDict (replacing_entry a t1 summary
                                                             old)) l)) top)).
    eexists. split; [reflexivity|]. split.
    + rewrite get_set_other by discriminate. apply get_set_same.
    + apply Forall_list_set; [exact Hl|]. apply has_id_replacing_entry.
  - rewrite (@main_on a stored t1 t2 top summary l _ Hinit Hload Hv
                      (@upsert_new a t1 summary l Hf)).
    split; [discriminate|]. intros data' [= <-].
    eexists. eexists. split; [reflexivity|]. split.
    + rewrite get_set_other by discriminate. apply get_set_same.
    + apply Forall_app. split; [exact Hl|]. constructor; [|constructor].
      apply has_id_video_entry.
Qed.

Lemma X7_record_keeps_store_well_formed_witness :
  main example_args_summary (Some two_videos) 5 6 <> Raised
  /\ forall data', main example_args_summary (Some two_videos) 5 6
                   = Saved data' ->
                   well_formed_store data'.
Proof.
  apply (@X7_record_keeps_store_well_formed example_args_summary
                                            (Some two_videos) 5 6).
  - exists [(u "videos", JList [JDict other_video; JDict stored_video]);
            (u "updated_at", JNull)],
           [JDict other_video; JDict stored_video].
    split; [reflexivity|]. split; [reflexivity|].
    constructor; [|constructor; [|constructor]].
    + exists other_video, (JStr (u "xyz")). split; reflexivity.
    + exists stored_video, (JStr (u "abc")). split; reflexivity.
  - discriminate.
Defined.

End RecordAgain.

(* ===================================================================== *)
(** ** import_history.py *)
(* ===================================================================== *)

Section History.

Import ImportHistory.

Variable run : str -> option (Z * option json).

Lemma mapM_In {A B : Type} (f : A -> option B) (l : list A) (l' : list B)
      (b : B) :
  mapM f l = Some l' -> In b l' -> exists a, In a l /\ f a = Some b.
Proof.
  revert l'; induction l as [|x l IH]; intros l'; cbn [mapM].
  - intros [= <-] [].
  - destruct (f x) as [y|] eqn:Hfx; [|discriminate]. cbn [bind].
    destruct (mapM f l) as [bs|]; [|discriminate]. cbn [bind].
    intros [= <-] [<-|Hin].
    + exists x. split; [left; reflexivity | exact Hfx].
    + destruct (IH bs eq_refl Hin) as (a & Ha & Hfa).
      exists a. split; [right; exact Ha | exact Hfa].
Qed.

Lemma mapM_In_fwd {A B : Type} (f : A -> option B) (l : list A)
      (l' : list B) (a : A) :
  mapM f l = Some l' -> In a l -> exists b, In b l' /\ f a = Some b.
Proof.
  revert l'; induction l as [|x l IH]; intros l'; cbn [mapM].
  - intros _ [].
  - destruct (f x) as [y|] eqn:Hfx; [|discriminate]. cbn [bind].
    destruct (mapM f l) as [bs|]; [|discriminate]. cbn [bind].
    intros [= <-] [<-|Hin].
    + exists y. split; [left; reflexivity | exact Hfx].
    + destruct (IH bs eq_refl Hin) as (b & Hb & Hfa).
      exists b. split; [right; exact Hb | exact Hfa].
Qed.

Lemma mapM_app {A B : Type} (f : A -> option B) (l1 l2 : list A)
      (r1 r2 : list B) :
  mapM f l1 = Some r1 -> mapM f l2 = Some r2 ->
  mapM f (l1 ++ l2) = Some (r1 ++ r2).
Proof.
  revert r1; induction l1 as [|x l1 IH]; intros r1; cbn [mapM app].
  - intros [= <-] H2. exact H2.
  - destruct (f x) as [y|]; [|discriminate]. cbn [bind].
    destruct (mapM f l1) as [bs|]; [|discriminate]. cbn [bind].
    intros [= <-] H2. rewrite (IH bs eq_refl H2). reflexivity.
Qed.

(** The ids of the store name the records that hold them. *)
Lemma known_recorded (vid : str) (l ids : list json) :
  existing_ids l = Some ids ->
  (known vid ids = true <-> recorded vid l).
Proof.
  intros Hids. unfold known, recorded. rewrite existsb_exists. split.
  - intros (k & Hk & E). apply eq_str_true in E. subst k.
    destruct (@mapM_In _ _ _ _ _ _ Hids Hk) as (v & Hv & Hfv).
    destruct v as [| | | | | |d]; try discriminate.
    destruct (get (u "id") d) as [x|] eqn:Hx; [|discriminate].
    cbn [bind] in Hfv.
    destruct (ImportSummaries.hashable x); [|discriminate].
    exists d. split; [exact Hv | congruence].
  - intros (d & Hd & Hx).
    destruct (@mapM_In_fwd _ _ _ _ _ _ Hids Hd) as (k & Hk & Hfk).
    rewrite Hx in Hfk. cbn [bind ImportSummaries.hashable] in Hfk.
    exists k. split; [exact Hk|]. apply eq_str_true. congruence.
Qed.

Lemma import_loop_raised (es : list entry) :
  fold_left (import_one run) es None = None.
Proof. induction es as [|e es IH]; cbn [fold_left]; auto. Qed.

(** The loop over the new videos. *)
Lemma import_loop (es : list entry) (videos videos' : json) :
  fold_left (import_one run) es (Some videos) = Some videos' ->
  match videos with
  | JList l => videos' = JList (l ++ flat_map (fetched run) es)
  | _ => videos' = videos /\ flat_map (fetched run) es = []
  end.
Proof.
  revert videos; induction es as [|e es IH]; intros videos;
    cbn [fold_left flat_map].
  - intros [= <-]. destruct videos; try (split; reflexivity).
    rewrite app_nil_r. reflexivity.
  - unfold import_one at 2, fetched at 1 3 5 7 9 11 13. cbn [bind].
    destruct (get_video_metadata (run (name e))) as [md|].
    + destruct videos as [| | | | |l|];
        try (rewrite import_loop_raised; discriminate).
      cbv zeta.
      destruct (slice_to 50 (get_default (u "title") JNull md));
        cbn [bind]; [|rewrite import_loop_raised; discriminate].
      intros H. apply IH in H. rewrite H, <- app_assoc. reflexivity.
    + intros H. apply IH in H. exact H.
Qed.

Lemma import_loop_nothing (es : list entry) (videos : json) :
  flat_map (fetched run) es = [] ->
  fold_left (import_one run) es (Some videos) = Some videos.
Proof.
  revert videos; induction es as [|e es IH]; intros videos;
    cbn [fold_left flat_map]; [reflexivity|].
  intros H. apply app_eq_nil in H. destruct H as (He & Hes).
  unfold import_one at 2. unfold fetched in He. cbn [bind].
  destruct (get_video_metadata (run (name e))); [discriminate|].
  apply IH. exact Hes.
Qed.

(** The record appended for an entry, from what the tool printed. *)
Lemma fetched_record (e : entry) (v : json) :
  In v (fetched run e) ->
  exists data,
    run (name e) = Some (0%Z, Some (JDict data))
    /\ v = imported_record e data.
Proof.
  unfold fetched, get_video_metadata.
  destruct (run (name e)) as [[rc [[| | | | | |data]|]]|]; try (intros []).
  destruct (rc =? 0)%Z eqn:Hrc; [|intros []].
  apply Z.eqb_eq in Hrc. subst rc.
  intros [<-|[]]. exists data. split; [reflexivity|].
  unfold imported_record, video_entry, get_default. cbn [get PyStr.eqb].
  reflexivity.
Qed.

Lemma fetched_of_record (e : entry) (data : dict) :
  run (name e) = Some (0%Z, Some (JDict data)) ->
  fetched run e = [imported_record e data].
Proof.
  intros H. unfold fetched, get_video_metadata. rewrite H. cbn [Z.eqb].
  unfold imported_record, video_entry, get_default. cbn [get PyStr.eqb].
  reflexivity.
Qed.

(** What a run that saves did. *)
Lemma history_saved (stored : option json) (cache : list entry) (t : Z)
      (data' : json) :
  main run stored cache t = Some data' ->
  exists top videos items ids videos',
    initial_data stored = JDict top
    /\ get (u "videos") top = Some videos
    /\ iterate videos = Some items
    /\ existing_ids items = Some ids
    /\ fold_left (import_one run)
                 (filter (fun e => negb (known (name e) ids))
                         (filter is_cached_video cache))
                 (Some videos) = Some videos'
    /\ data' = JDict (set (u "updated_at") (JInt t)
                          (set (u "videos") videos' top)).
Proof.
  unfold main. fold (initial_data stored).
  destruct (initial_data stored) as [| | | | | |top]; try discriminate.
  destruct (get (u "videos") top) as [videos|] eqn:Hv; [|discriminate].
  cbn [bind].
  destruct (iterate videos) as [items|] eqn:Hit; [|discriminate].
  cbn [bind].
  destruct (existing_ids items) as [ids|] eqn:Hids; [|discriminate].
  cbn [bind].
  destruct (fold_left _ _ _) as [videos'|] eqn:Hloop; [|discriminate].
  cbn [bind]. intros [= <-].
  exists top, videos, items, ids, videos'. repeat split; auto.
Qed.

End History.

Section HistoryResults.

Import ImportHistory.

Lemma videos_of_initial_other (stored : option json) (top : dict)
      (videos : json) :
  initial_data stored = JDict top ->
  get (u "videos") top = Some videos ->
  (forall l, videos <> JList l) ->
  videos_of (initial_data stored) = [].
Proof.
  intros -> H Hno. unfold videos_of. rewrite H.
  destruct videos; try reflexivity. destruct (Hno l eq_refl).
Qed.

Lemma videos_of_saved_other (top : dict) (videos : json) (t : Z) :
  (forall l, videos <> JList l) ->
  videos_of (JDict (set (u "updated_at") (JInt t)
                        (set (u "videos") videos top))) = [].
Proof.
  intros Hno. unfold videos_of.
  rewrite get_set_other by discriminate. rewrite get_set_same.
  destruct videos; try reflexivity. destruct (Hno l eq_refl).
Qed.

(** The videos before and after a run that saves. *)
Lemma history_videos (run : str -> option (Z * option json))
      (stored : option json) (cache : list entry) (t : Z) (data' : json) :
  main run stored cache t = Some data' ->
  exists top ids,
    initial_data stored = JDict top
    /\ existing_ids (videos_of (initial_data stored)) = Some ids
    /\ videos_of data'
       = videos_of (initial_data stored)
         ++ flat_map (fetched run)
              (filter (fun e => negb (known (name e) ids))
                      (filter is_cached_video cache))
    /\ (forall k, k <> u "videos" -> k <> u "updated_at" ->
          match data' with
          | JDict top' => get k top' = get k top
          | _ => False
          end)
    /\ match data' with
       | JDict top' => get (u "updated_at") top' = Some (JInt t)
       | _ => False
       end.
Proof.
  intros H.
  destruct (@history_saved run stored cache t data' H)
    as (top & videos & items & ids & videos' & Hinit & Hv & Hit & Hids
        & Hloop & ->).
  exists top, ids. split; [exact Hinit|].
  apply import_loop in Hloop.
  assert (Hframe : forall k, k <> u "videos" -> k <> u "updated_at" ->
            get k (set (u "updated_at") (JInt t)
                       (set (u "videos") videos' top)) = get k top).
  { intros k H1 H2. rewrite !get_set_other by congruence. reflexivity. }
  assert (Hup : get (u "updated_at")
                    (set (u "updated_at") (JInt t)
                         (set (u "videos") videos' top)) = Some (JInt t))
    by apply get_set_same.
  destruct videos as [| | | |s|l|d].
  1-4: discriminate.
  - (* a string: it is empty *)
    destruct Hloop as (-> & Hnone). rewrite Hnone.
    rewrite (@videos_of_initial_other stored top (JStr s) Hinit Hv)
      by discriminate.
    rewrite videos_of_saved_other by discriminate.
    cbn [iterate] in Hit. injection Hit as <-.
    destruct s as [|c s]; [|discriminate].
    cbn [map existing_ids mapM] in Hids.
    repeat split; auto.
  - subst videos'. cbn [iterate] in Hit. injection Hit as <-.
    rewrite videos_of_saved, (@videos_of_initial stored top l Hinit Hv).
    repeat split; auto.
  - destruct Hloop as (-> & Hnone). rewrite Hnone.
    rewrite (@videos_of_initial_other stored top (JDict d) Hinit Hv)
      by discriminate.
    rewrite videos_of_saved_other by discriminate.
    cbn [iterate] in Hit. injection Hit as <-.
    destruct d as [|kv d]; [|discriminate].
    cbn [map existing_ids mapM] in Hids.
    repeat split; auto.
Qed.

(** X8. A run of [import_history.py] that saves only appends: the records
    of the store keep their place and value, every other key of the store
    but [updated_at] (set to the time of the save) keeps its value, and
    each record appended is the one of an entry of the cache that is a
    directory with a name of 11 characters and a transcript, whose video no
    record of the store had, and for which the download tool succeeded; it
    holds the title, channel (or uploader), duration and counts the tool
    printed, with the defaults of the script for the absent ones, no
    insight, and the time of the transcript. *)
Theorem X8_import_history_appends :
  forall (run : str -> option (Z * option json)) (stored : option json)
         (cache : list entry) (t : Z) (data' : json),
    main run stored cache t = Some data' ->
    exists added,
      videos_of data' = videos_of (initial_data stored) ++ added
      /\ (forall v, In v added ->
            exists e data,
              In e cache /\ is_cached_video e = true
              /\ ~ recorded (name e) (videos_of (initial_data stored))
              /\ run (name e) = Some (0%Z, Some (JDict data))
              /\ v = imported_record e data)
      /\ match initial_data stored, data' with
         | JDict top, JDict top' =>
             get (u "updated_at") top' = Some (JInt t)
             /\ forall k, k <> u "videos" -> k <> u "updated_at" ->
                          get k top' = get k top
         | _, _ => False
         end.
Proof.
  intros run stored cache t data' H.
  destruct (@history_videos run stored cache t data' H)
    as (top & ids & Hinit & Hids & Hvs & Hframe & Hup).
  eexists. split; [exact Hvs|]. split.
  - intros v Hv. apply in_flat_map in Hv. destruct Hv as (e & He & Hv).
    apply filter_In in He. destruct He as (He & Hk).
    apply filter_In in He. destruct He as (He & Hc).
    destruct (@fetched_record run e v Hv) as (data & Hrun & ->).
    exists e, data. repeat split; auto.
    intros Hrec. apply (known_recorded (name e) _ Hids) in Hrec.
    rewrite Hrec in Hk. discriminate.
  - rewrite Hinit. destruct data' as [| | | | | |top']; try exact Hup.
    split; [exact Hup|]. intros k H1 H2. apply (Hframe k H1 H2).
Qed.

Lemma X8_import_history_appends_witness :
  exists added,
    videos_of example_imported
    = videos_of (initial_data (Some stored_data)) ++ added
    /\ (forall v, In v added ->
          exists e data,
            In e example_cache /\ is_cached_video e = true
            /\ ~ recorded (name e) (videos_of (initial_data (Some stored_data)))
            /\ example_run (name e) = Some (0%Z, Some (JDict data))
            /\ v = imported_record e data)
    /\ match initial_data (Some stored_data), example_imported with
       | JDict top, JDict top' =>
           get (u "updated_at") top' = Some (JInt 9)
           /\ forall k, k <> u "videos" -> k <> u "updated_at" ->
                        get k top' = get k top
       | _, _ => False
       end.
Proof.
  apply (@X8_import_history_appends example_run (Some stored_data)
                                    example_cache 9 example_imported).
  vm_compute. reflexivity.
Defined.

(** X9. After a run of [import_history.py] that saves, every entry of the
    cache that is a directory with a name of 11 characters and a transcript,
    and for which the download tool succeeded, has a record in the store. *)
Theorem X9_import_history_records_every_fetched_video :
  forall (run : str -> option (Z * option json)) (stored : option json)
         (cache : list entry) (t : Z) (data' : json) (e : entry)
         (data : dict),
    main run stored cache t = Some data' ->
    In e cache -> is_cached_video e = true ->
    run (name e) = Some (0%Z, Some (JDict data)) ->
    recorded (name e) (videos_of data').
Proof.
  intros run stored cache t data' e data H He Hc Hrun.
  destruct (@history_videos run stored cache t data' H)
    as (top & ids & Hinit & Hids & Hvs & _ & _).
  rewrite Hvs.
  destruct (known (name e) ids) eqn:Hk.
  - apply (known_recorded (name e) _ Hids) in Hk.
    destruct Hk as (d & Hd & Hx). exists d. split; [|exact Hx].
    apply in_or_app. left. exact Hd.
  - eexists. split.
    + apply in_or_app. right. apply in_flat_map. exists e. split.
      * apply filter_In. split; [|rewrite Hk; reflexivity].
        apply filter_In. split; assumption.
      * rewrite (@fetched_of_record run e data Hrun).
        left. unfold imported_record. reflexivity.
    + reflexivity.
Qed.

Lemma X9_import_history_records_every_fetched_video_witness :
  recorded (u "dQw4w9WgXcQ") (videos_of example_imported).
Proof.
  apply (@X9_import_history_records_every_fetched_video
           example_run (Some stored_data) example_cache 9 example_imported
           (Entry (u "dQw4w9WgXcQ") true true 1700000000000)
           [(u "title", JStr (u "T")); (u "uploader", JStr (u "U"));
            (u "duration", JInt 212)]).
  - vm_compute. reflexivity.
  - right. left. reflexivity.
  - vm_compute. reflexivity.
  - vm_compute. reflexivity.
Defined.

End HistoryResults.

Section HistoryAgain.

Import ImportHistory.

Variable run : str -> option (Z * option json).

Lemma known_app (vid : str) (ids ids' : list json) :
  known vid (ids ++ ids') = known vid ids || known vid ids'.
Proof. unfold known. apply existsb_app. Qed.

Lemma existing_ids_fetched (es : list entry) :
  existing_ids (flat_map (fetched run) es) = Some (fetched_ids run es).
Proof.
  unfold existing_ids, fetched_ids.
  induction es as [|e es IH]; cbn [flat_map filter map]; [reflexivity|].
  unfold fetched at 1.
  destruct (get_video_metadata (run (name e))) as [md|];
    cbn [app map]; [|exact IH].
  cbn [mapM]. cbn [video_entry get PyStr.eqb bind ImportSummaries.hashable].
  rewrite IH. reflexivity.
Qed.

Lemma known_fetched_ids (e : entry) (es : list entry) :
  In e es -> fetched run e <> [] -> known (name e) (fetched_ids run es) = true.
Proof.
  intros He Hf. unfold known, fetched_ids. apply existsb_exists.
  exists (JStr (name e)). split; [|apply eq_str_true; reflexivity].
  apply in_map_iff. exists e. split; [reflexivity|].
  apply filter_In. split; [exact He|].
  unfold fetched in Hf.
  destruct (get_video_metadata (run (name e))); [reflexivity | congruence].
Qed.

(** Once their records are in the store, the loop has nothing to add. *)
Lemma nothing_new (ids : list json) (es : list entry) :
  flat_map (fetched run)
           (filter (fun e => negb (known (name e)
                       (ids ++ fetched_ids run
                                 (filter (fun e => negb (known (name e) ids))
                                         es))))
                   es) = [].
Proof.
  set (new := filter (fun e => negb (known (name e) ids)) es).
  assert (H : forall e, In e es ->
            negb (known (name e) (ids ++ fetched_ids run new)) = true ->
            fetched run e = []).
  { intros e He Hk. rewrite known_app in Hk.
    apply negb_true_iff, orb_false_iff in Hk. destruct Hk as (Hk1 & Hk2).
    destruct (fetched run e) as [|v vs] eqn:Hf; [reflexivity|].
    rewrite known_fetched_ids in Hk2; [discriminate| |congruence].
    unfold new. apply filter_In. split; [exact He|].
    rewrite Hk1. reflexivity. }
  clearbody new. induction es as [|e es IH]; cbn [filter flat_map];
    [reflexivity|].
  destruct (negb (known (name e) (ids ++ fetched_ids run new))) eqn:Hk.
  - cbn [flat_map]. rewrite (H e (or_introl eq_refl) Hk). cbn [app].
    apply IH. intros e' He'. apply H. right. exact He'.
  - apply IH. intros e' He'. apply H. right. exact He'.
Qed.

Lemma history_on (stored : option json) (cache : list entry) (t : Z)
      (top : dict) (videos videos' : json) (items ids : list json) :
  initial_data stored = JDict top ->
  get (u "videos") top = Some videos ->
  iterate videos = Some items ->
  existing_ids items = Some ids ->
  fold_left (import_one run)
            (filter (fun e => negb (known (name e) ids))
                    (filter is_cached_video cache))
            (Some videos) = Some videos' ->
  main run stored cache t
  = Some (JDict (set (u "updated_at") (JInt t)
                     (set (u "videos") videos' top))).
Proof.
  intros Hinit Hv Hit Hids Hloop. unfold main. fold (initial_data stored).
  rewrite Hinit, Hv. cbn [bind]. rewrite Hit. cbn [bind].
  rewrite Hids. cbn [bind]. rewrite Hloop. reflexivity.
Qed.

End HistoryAgain.

Section HistoryInvariants.

Import ImportHistory.

(** X10. Running [import_history.py] a second time, the cache and the
    answers of the download tool being the same, gives the store that one
    run at the later time gives: the videos imported by the first run are
    found in the store and nothing is appended twice. *)
Theorem X10_import_history_twice_is_once :
  forall (run : str -> option (Z * option json)) (stored : option json)
         (cache : list entry) (t t' : Z) (data1 : json),
    main run stored cache t = Some data1 ->
    main run (Some data1) cache t' = main run stored cache t'.
Proof.
  intros run stored cache t t' data1 H.
  destruct (@history_saved run stored cache t data1 H)
    as (top & videos & items & ids & videos' & Hinit & Hv & Hit & Hids
        & Hloop & ->).
  rewrite (@history_on run stored cache t' top videos videos' items ids
                       Hinit Hv Hit Hids Hloop).
  assert (Hset : set (u "updated_at") (JInt t')
                     (set (u "videos") videos'
                          (set (u "updated_at") (JInt t)
                               (set (u "videos") videos' top)))
                 = set (u "updated_at") (JInt t')
                       (set (u "videos") videos' top)).
  { rewrite (@set_comm (u "videos") (u "updated_at") videos' (JInt t)
                       (set (u "videos") videos' top))
      by (try discriminate; unfold has; rewrite get_set_same; reflexivity).
    rewrite !set_set_same. reflexivity. }
  rewrite <- Hset.
  assert (Hv1 : get (u "videos")
                    (set (u "updated_at") (JInt t)
                         (set (u "videos") videos' top)) = Some videos').
  { rewrite get_set_other by discriminate. apply get_set_same. }
  assert (Hagain : forall items' ids',
            iterate videos' = Some items' ->
            existing_ids items' = Some ids' ->
            fold_left (import_one run)
                      (filter (fun e => negb (known (name e) ids'))
                              (filter is_cached_video cache))
                      (Some videos') = Some videos' ->
            main run (Some (JDict (set (u "updated_at") (JInt t)
                                       (set (u "videos") videos' top))))
                 cache t'
            = Some (JDict (set (u "updated_at") (JInt t')
                             (set (u "videos") videos'
                                (set (u "updated_at") (JInt t)
                                   (set (u "videos") videos' top)))))).
  { intros items' ids' Hit' Hids' Hloop'.
    apply (@history_on run
             (Some (JDict (set (u "updated_at") (JInt t)
                               (set (u "videos") videos' top))))
             cache t' _ videos' videos' items' ids' eq_refl Hv1 Hit' Hids'
             Hloop'). }
  pose proof (@import_loop run _ _ _ Hloop) as Hshape.
  destruct videos as [| | | |s|l|d]; try discriminate.
  - destruct Hshape as (-> & Hnone).
    apply (Hagain items ids Hit Hids).
    apply import_loop_nothing. exact Hnone.
  - subst videos'. cbn [iterate] in Hit. injection Hit as <-.
    set (new := filter (fun e => negb (known (name e) ids))
                       (filter is_cached_video cache)) in *.
    apply (Hagain (l ++ flat_map (fetched run) new)
                  (ids ++ fetched_ids run new) eq_refl).
    + apply mapM_app; [exact Hids | apply existing_ids_fetched].
    + apply import_loop_nothing. apply nothing_new.
  - destruct Hshape as (-> & Hnone).
    apply (Hagain items ids Hit Hids).
    apply import_loop_nothing. exact Hnone.
Qed.

Lemma X10_import_history_twice_is_once_witness :
  main example_run (Some example_imported) example_cache 10
  = main example_run (Some stored_data) example_cache 10.
Proof.
  apply (@X10_import_history_twice_is_once example_run (Some stored_data)
                                           example_cache 9 10
                                           example_imported).
  vm_compute. reflexivity.
Defined.

(** A selection of cache entries with distinct names has distinct names. *)
Lemma distinct_names_filter (p : entry -> bool) (es : list entry) :
  NoDup (map name es) -> NoDup (map name (filter p es)).
Proof.
  induction es as [|e es IH]; cbn [filter map]; intros Hnd; [constructor|].
  apply NoDup_cons_iff in Hnd. destruct Hnd as (Hfresh & Hrest).
  destruct (p e); cbn [map]; [|exact (IH Hrest)].
  apply NoDup_cons_iff. split; [|exact (IH Hrest)].
  intros Hin. apply Hfresh. apply in_map_iff in Hin.
  destruct Hin as (e' & Hname & He'). apply filter_In in He'.
  apply in_map_iff. exists e'. tauto.
Qed.

Lemma NoDup_map_JStr (l : list str) : NoDup l -> NoDup (map JStr l).
Proof.
  induction 1 as [|x l Hnotin _ IH]; cbn [map]; constructor; [|exact IH].
  intros Hin. apply in_map_iff in Hin. destruct Hin as (y & [= ->] & Hy).
  exact (Hnotin Hy).
Qed.

(** X11. [import_history.py] keeps the ids of the store distinct: when no
    two records of the store have the same id and no two entries of the
    cache the same name, no two records have the same id after a run that
    saves. *)
Theorem X11_import_history_keeps_ids_distinct :
  forall (run : str -> option (Z * option json)) (stored : option json)
         (cache : list entry) (t : Z) (data' : json) (ids : list json),
    existing_ids (videos_of (initial_data stored)) = Some ids ->
    NoDup ids ->
    NoDup (map name cache) ->
    main run stored cache t = Some data' ->
    exists ids',
      existing_ids (videos_of data') = Some ids' /\ NoDup ids'.
Proof.
  intros run stored cache t data' ids Hids Hnd Hcache H.
  destruct (@history_videos run stored cache t data' H)
    as (top & ids0 & Hinit & Hids0 & Hvs & _ & _).
  assert (ids0 = ids) by congruence. subst ids0.
  set (new := filter (fun e => negb (known (name e) ids))
                     (filter is_cached_video cache)) in *.
  exists (ids ++ fetched_ids run new). split.
  - rewrite Hvs. apply mapM_app; [exact Hids | apply existing_ids_fetched].
  - apply NoDup_app; [exact Hnd| |].
    + unfold fetched_ids.
      rewrite <- (map_map name JStr). apply NoDup_map_JStr.
      unfold new. do 3 apply distinct_names_filter. exact Hcache.
    + intros x Hx Hx'. unfold fetched_ids in Hx'.
      apply in_map_iff in Hx'. destruct Hx' as (e & <- & He).
      apply filter_In in He. destruct He as (He & _).
      unfold new in He. apply filter_In in He. destruct He as (_ & Hk).
      apply negb_true_iff in Hk.
      assert (known (name e) ids = true); [|congruence].
      unfold known. apply existsb_exists.
      exists (JStr (name e)). split; [exact Hx|].
      apply eq_str_true. reflexivity.
Qed.

Lemma X11_import_history_keeps_ids_distinct_witness :
  exists ids',
    existing_ids (videos_of example_imported) = Some ids' /\ NoDup ids'.
Proof.
  apply (@X11_import_history_keeps_ids_distinct
           example_run (Some stored_data) example_cache 9 example_imported
           [JStr (u "abc")]).
  - vm_compute. reflexivity.
  - constructor; [intros [] | constructor].
  - apply (NoDup_map_inv (fun s => List.length s + N.to_nat (hd 0%N s))).
    vm_compute. repeat constructor; cbn [In]; lia.
  - vm_compute. reflexivity.
Defined.

End HistoryInvariants.

(* ===================================================================== *)
(** ** generate_viz.py: comparison, mindmap and the run over the store *)
(* ===================================================================== *)

Section Comparison.

Import GenerateViz.

Lemma plain_keyword_spec (kw : str) :
  plain_keyword kw = true -> kw <> [] /\ Forall (fun c => c <> 32%N) kw.
Proof.
  unfold plain_keyword. intros H. apply andb_true_iff in H.
  destruct H as (Hlen & Hall). split.
  - intros ->. discriminate Hlen.
  - apply Forall_forall. intros c Hc.
    rewrite forallb_forall in Hall. specialize (Hall c Hc).
    apply negb_true_iff, N.eqb_neq in Hall. exact Hall.
Qed.

(** A keyword without a space starts in a text or not, whatever follows a
    space after the text. *)
Lemma startswith_before_space (kw a r : str) :
  Forall (fun c => c <> 32%N) kw ->
  startswith kw (a ++ 32%N :: r) = startswith kw a.
Proof.
  intros Hkw. revert a. induction Hkw as [|x kw Hx _ IH]; intros a.
  - destruct a; reflexivity.
  - destruct a as [|y a]; cbn [app startswith].
    + apply N.eqb_neq in Hx. rewrite Hx. reflexivity.
    + rewrite IH. reflexivity.
Qed.

Lemma contains_nil (kw : str) : kw <> [] -> contains kw [] = false.
Proof. destruct kw; [congruence | reflexivity]. Qed.

Lemma contains_across_space (kw a r : str) :
  kw <> [] -> Forall (fun c => c <> 32%N) kw ->
  contains kw (a ++ 32%N :: r) = contains kw a || contains kw r.
Proof.
  intros Hne Hkw. induction a as [|y a IH].
  - cbn [app]. rewrite contains_nil by exact Hne. cbn [orb].
    change (contains kw (32%N :: r))
      with (startswith kw ([] ++ 32%N :: r) || contains kw r).
    rewrite startswith_before_space by exact Hkw.
    destruct kw; [congruence | reflexivity].
  - change (contains kw ((y :: a) ++ 32%N :: r))
      with (startswith kw ((y :: a) ++ 32%N :: r)
            || contains kw (a ++ 32%N :: r)).
    rewrite startswith_before_space by exact Hkw. rewrite IH.
    change (contains kw (y :: a))
      with (startswith kw (y :: a) || contains kw a).
    rewrite orb_assoc. reflexivity.
Qed.

(** A keyword is in the joined texts exactly when it is in one of them. *)
Lemma contains_join (kw : str) (texts : list str) :
  plain_keyword kw = true ->
  contains kw (join (u " ") texts) = existsb (contains kw) texts.
Proof.
  intros H. apply plain_keyword_spec in H. destruct H as (Hne & Hkw).
  induction texts as [|t texts IH].
  - apply contains_nil. exact Hne.
  - destruct texts as [|t' texts].
    + cbn [join existsb]. rewrite orb_false_r. reflexivity.
    + change (join (u " ") (t :: t' :: texts))
        with (t ++ 32%N :: join (u " ") (t' :: texts)).
      rewrite contains_across_space by assumption.
      rewrite IH. reflexivity.
Qed.

Lemma existsb_swap {A B : Type} (f : A -> B -> bool) (xs : list A)
      (ys : list B) :
  existsb (fun x => existsb (f x) ys) xs
  = existsb (fun y => existsb (fun x => f x y) xs) ys.
Proof.
  induction xs as [|x xs IH]; cbn [existsb].
  - induction ys as [|y ys IHy]; cbn [existsb]; auto.
  - rewrite IH. clear IH.
    induction ys as [|y ys IHy]; cbn [existsb]; [reflexivity|].
    rewrite <- IHy.
    destruct (f x y), (existsb (f x) ys), (existsb (fun x0 => f x0 y) xs);
      reflexivity.
Qed.

Lemma existsb_ext_in {A : Type} (f g : A -> bool) (l : list A) :
  (forall x, In x l -> f x = g x) -> existsb f l = existsb g l.
Proof.
  induction l as [|x l IH]; cbn [existsb]; intros H; [reflexivity|].
  rewrite (H x (or_introl eq_refl)), IH; [reflexivity|].
  intros y Hy. apply H. right. exact Hy.
Qed.

(** X12. The comparison is detected idea by idea: for ideas whose texts
    are strings, [detect_comparison] answers whether some idea text holds
    one of the twelve keywords.  Joining the texts with spaces adds no
    match, since no keyword is empty or has a space. *)
Theorem X12_detect_comparison_per_idea :
  forall (summary : dict) (texts : list str),
    idea_texts (get_default (u "ideas") (JList []) summary)
    = Some (map JStr texts) ->
    detect_comparison summary = Some (existsb has_keyword texts).
Proof.
  intros summary texts H.
  unfold detect_comparison, joined_idea_texts. rewrite H. cbn [bind].
  rewrite (mapM_map_Some as_str JStr) by reflexivity. cbn [bind].
  f_equal.
  rewrite (@existsb_ext_in _ (fun kw => contains kw (join (u " ") texts))
             (fun kw => existsb (contains kw) texts)).
  - unfold has_keyword. apply existsb_swap.
  - intros kw Hkw. apply contains_join.
    assert (Hall : forallb plain_keyword comparison_keywords = true)
      by (vm_compute; reflexivity).
    rewrite forallb_forall in Hall. apply Hall. exact Hkw.
Qed.

Lemma X12_detect_comparison_per_idea_witness :
  detect_comparison
    [(u "ideas", JList [idea (u "传统方案成本更高") JNull;
                        JStr (u "新型方案更高效")])]
  = Some (existsb has_keyword [u "传统方案成本更高"; u "新型方案更高效"]).
Proof.
  apply (@X12_detect_comparison_per_idea
           [(u "ideas", JList [idea (u "传统方案成本更高") JNull;
                               JStr (u "新型方案更高效")])]
           [u "传统方案成本更高"; u "新型方案更高效"]).
  vm_compute. reflexivity.
Defined.

End Comparison.

Section MindmapShape.

Import GenerateViz.

Lemma small_branch_list (lab : str) (l : list json) :
  In lab branch_labels -> small_branch (branch lab (JList (firstn 3 l))).
Proof.
  intros H. exists lab, (JList (firstn 3 l)), (List.length (firstn 3 l)).
  repeat split; auto. rewrite length_firstn. lia.
Qed.

Lemma small_branch_slice (lab : str) (x first3 : json) :
  In lab branch_labels -> slice_to 3 x = Some first3 ->
  small_branch (branch lab first3).
Proof.
  intros H Hs.
  destruct x as [| | | |s|l|]; try discriminate; injection Hs as <-.
  - exists lab, (JStr (firstn 3 s)), (List.length (firstn 3 s)).
    repeat split; auto. rewrite length_firstn. lia.
  - apply small_branch_list. exact H.
Qed.

Lemma mindmap_root_of_str (t : str) (root : json) :
  mindmap_root (JStr t) = Some root ->
  exists r, root = JStr r /\ r <> [] /\ List.length r <= 33.
Proof.
  unfold mindmap_root. cbn [py_len bind].
  destruct (30 <? List.length t) eqn:Hlen.
  - intros [= <-]. exists (firstn 30 t ++ u "..."). split; [reflexivity|].
    apply Nat.ltb_lt in Hlen. split.
    + destruct t as [|c t]; [cbn in Hlen; lia | discriminate].
    + rewrite length_app, length_firstn. cbn [List.length u]. 
      change (List.length (u "...")) with 3. lia.
  - apply Nat.ltb_ge in Hlen.
    destruct t as [|c t]; cbn [truthy List.length Nat.eqb negb];
      intros [= <-].
    + exists (u "视频总结"). split; [reflexivity|]. split; [discriminate|].
      vm_compute. lia.
    + exists (c :: t). split; [reflexivity|]. split; [discriminate|]. lia.
Qed.

(** X13. The mindmap that [generate_mindmap] returns has a root and at
    most five branches, each with one of the five labels and at most three
    children, so that no more than nine ideas and three insights are ever
    shown; for a [tldr] that is a string the root is a string of 1 to 33
    characters. *)
Theorem X13_mindmap_shape :
  forall (summary : dict) (mindmap : json),
    generate_mindmap summary = Some mindmap ->
    exists root children,
      mindmap = JDict [(u "root", root); (u "children", JList children)]
      /\ List.length children <= 5
      /\ Forall small_branch children
      /\ forall t, get_default (u "tldr") (JStr []) summary = JStr t ->
           exists r, root = JStr r /\ r <> [] /\ List.length r <= 33.
Proof.
  intros summary mindmap. unfold generate_mindmap.
  destruct (idea_texts (get_default (u "ideas") (JList []) summary))
    as [texts|]; [|discriminate].
  cbn [bind].
  set (ideas3 := if 3 <=? List.length texts then _ else _).
  assert (Hideas : List.length ideas3 <= 3 /\ Forall small_branch ideas3).
  { subst ideas3. destruct (3 <=? List.length texts).
    - split; [cbn; lia|]. cbn [app].
      repeat constructor; apply small_branch_list; cbn; tauto.
    - split; [cbn; lia | constructor]. }
  destruct Hideas as (Hlen3 & Hall3). clearbody ideas3.
  set (insights := get_default (u "insights") (JList []) summary).
  assert (Hins : forall cs,
            (if truthy insights
             then first3 <- slice_to 3 insights ;;
                  Some (ideas3 ++ [branch (u "深度洞察") first3])
             else Some ideas3) = Some cs ->
            List.length cs <= 4 /\ Forall small_branch cs).
  { intros cs. destruct (truthy insights).
    - destruct (slice_to 3 insights) as [first3|] eqn:Hs; [|discriminate].
      cbn [bind]. intros [= <-]. split.
      + rewrite length_app. cbn [List.length]. lia.
      + apply Forall_app. split; [exact Hall3|]. constructor; [|constructor].
        apply (@small_branch_slice _ insights first3); [cbn; tauto | exact Hs].
    - intros [= <-]. split; [lia | exact Hall3]. }
  destruct (if truthy insights then _ else _) as [cs|]; [|discriminate].
  destruct (Hins cs eq_refl) as (Hlen4 & Hall4). cbn [bind].
  destruct (mindmap_root (get_default (u "tldr") (JStr []) summary))
    as [root|] eqn:Hroot; [|discriminate].
  cbn [bind]. intros [= <-].
  eexists root, _. split; [reflexivity|].
  assert (Htk : forall tk, small_branch (branch (u "核心结论") (JList [tk]))).
  { intros tk. exists (u "核心结论"), (JList [tk]), 1.
    repeat split; [cbn; tauto | lia]. }
  split; [|split].
  - destruct (truthy _); [rewrite length_app; cbn [List.length]|]; lia.
  - destruct (truthy _); [|exact Hall4].
    apply Forall_app. split; [exact Hall4|]. constructor; [|constructor].
    apply Htk.
  - intros t Ht. rewrite Ht in Hroot. apply mindmap_root_of_str in Hroot.
    exact Hroot.
Qed.

Lemma X13_mindmap_shape_witness :
  exists root children,
    JDict [(u "root", JStr (u "x"));
           (u "children",
            JList [branch (u "核心观点") (JList [JStr (u "a")]);
                   branch (u "关键论据") (JList [JStr (u "b")]);
                   branch (u "延伸思考") (JList [JStr (u "c")])])]
    = JDict [(u "root", root); (u "children", JList children)]
    /\ List.length children <= 5
    /\ Forall small_branch children
    /\ forall t, get_default (u "tldr") (JStr []) three_ideas = JStr t ->
         exists r, root = JStr r /\ r <> [] /\ List.length r <= 33.
Proof.
  apply (@X13_mindmap_shape three_ideas).
  vm_compute. reflexivity.
Defined.

End MindmapShape.

Section VizRun.

Import GenerateViz.

(** What the loop body of [main] does to a video. *)
Lemma process_video_inv (v v' : json) :
  process_video v = Some v' -> viz_added v v'.
Proof.
  unfold process_video.
  destruct v as [| | | | | |d]; try discriminate.
  unfold get_default at 1.
  destruct (get (u "summary") d) as [[| | | | | |sm]|] eqn:Hsm;
    try discriminate.
  2: { cbn. intros [= <-]. left. reflexivity. }
  destruct (truthy_at (u "viz_data") sm) eqn:Hviz;
    [intros [= <-]; left; reflexivity|].
  destruct (negb (truthy_at (u "ideas") sm)
            && negb (truthy_at (u "insights") sm));
    [intros [= <-]; left; reflexivity|].
  destruct (generate_viz_data sm) as [[viz tags]|] eqn:Hgen; [|discriminate].
  cbn [bind].
  destruct (truthy (JDict viz)) eqn:Hne; [|intros [= <-]; left; reflexivity].
  set (sm' := if truthy (JList (map JStr tags)) then _ else _).
  destruct (get (u "id") _); [|discriminate]. cbn [bind].
  destruct (slice_to 40 _); [|discriminate]. cbn [bind].
  intros [= <-]. right. exists d, sm, viz, tags.
  repeat (split; [assumption || reflexivity|]).
  split; [intros ->; discriminate Hne|].
  exists (set (u "summary") (JDict sm') d), sm'.
  split; [reflexivity|]. split.
  { intros k Hk. apply get_set_other. congruence. }
  split; [apply get_set_same|].
  subst sm'. destruct (truthy (JList (map JStr tags))).
  - split; [rewrite get_set_other by discriminate; apply get_set_same|].
    split; [apply get_set_same|].
    intros k H1 H2. rewrite !get_set_other by congruence. reflexivity.
  - split; [apply get_set_same|].
    split; [apply get_set_other; discriminate|].
    intros k H1 H2. rewrite get_set_other by congruence. reflexivity.
Qed.

(** A video that a run has handled is left alone by the next one. *)
Lemma process_video_again (v v' : json) :
  process_video v = Some v' -> process_video v' = Some v'.
Proof.
  intros H. destruct (process_video_inv _ H) as [->|Hadd]; [exact H|].
  destruct Hadd as (d & sm & viz & tags & _ & _ & _ & _ & Hne
                    & d' & sm' & -> & _ & Hsm' & Hviz & _).
  unfold process_video, get_default. rewrite Hsm'.
  unfold truthy_at. rewrite Hviz.
  destruct viz; [congruence | reflexivity].
Qed.

Lemma mapM_length {A B : Type} (f : A -> option B) (l : list A)
      (l' : list B) :
  mapM f l = Some l' -> List.length l' = List.length l.
Proof.
  revert l'; induction l as [|x l IH]; intros l'; cbn [mapM].
  - intros [= <-]. reflexivity.
  - destruct (f x); [|discriminate]. cbn [bind].
    destruct (mapM f l) as [bs|]; [|discriminate]. cbn [bind].
    intros [= <-]. cbn [List.length]. rewrite (IH bs eq_refl). reflexivity.
Qed.

Lemma mapM_again {A : Type} (f : A -> option A) (l l' : list A) :
  (forall a b, f a = Some b -> f b = Some b) ->
  mapM f l = Some l' -> mapM f l' = Some l'.
Proof.
  intros Hf. revert l'; induction l as [|x l IH]; intros l'; cbn [mapM].
  - intros [= <-]. reflexivity.
  - destruct (f x) as [y|] eqn:Hx; [|discriminate]. cbn [bind].
    destruct (mapM f l) as [bs|]; [|discriminate]. cbn [bind].
    intros [= <-]. cbn [mapM]. rewrite (Hf _ _ Hx). cbn [bind].
    rewrite (IH bs eq_refl). reflexivity.
Qed.

(** What a run of [main] returns, from its parts. *)
Lemma viz_main_inv (data data' : json) :
  main data = Some data' ->
  exists top vs videos videos',
    data = JDict top
    /\ get (u "videos") top = Some vs
    /\ iterate vs = Some videos
    /\ mapM process_video videos = Some videos'
    /\ ((vs = JList videos
         /\ data' = JDict (set (u "videos") (JList videos') top))
        \/ ((forall l, vs <> JList l) /\ data' = data)).
Proof.
  unfold main. destruct data as [| | | | | |top]; try discriminate.
  destruct (get (u "videos") top) as [vs|] eqn:Hvs; [|discriminate].
  cbn [bind].
  destruct (iterate vs) as [videos|] eqn:Hit; [|discriminate]. cbn [bind].
  destruct (mapM process_video videos) as [videos'|] eqn:Hmap;
    [|discriminate].
  cbn [bind]. intros H.
  exists top, vs, videos, videos'.
  repeat (split; [assumption || reflexivity|]).
  destruct vs; try (right; split; [discriminate | congruence]).
  left. cbn [iterate] in Hit. split; congruence.
Qed.

(** X14. A run of [generate_viz.py] that saves changes nothing but the
    visualisation fields: the list of videos keeps its length, each video
    is left as it was or gets, in its summary, [viz_data] set to the data
    computed from that summary (which are not empty, and there were none)
    and [suggested_viz] set to the tags when there are some; the tags are
    never written without the data; every other field of the video and of
    the summary, and every other key of the store, keeps its value. *)
Theorem X14_viz_run_touches_viz_fields :
  forall (data data' : json),
    main data = Some data' ->
    List.length (videos_of data') = List.length (videos_of data)
    /\ (forall i v, nth_error (videos_of data) i = Some v ->
          exists v', nth_error (videos_of data') i = Some v'
                     /\ viz_added v v')
    /\ match data, data' with
       | JDict top, JDict top' =>
           forall k, k <> u "videos" -> get k top' = get k top
       | _, _ => False
       end.
Proof.
  intros data data' H.
  destruct (viz_main_inv _ H)
    as (top & vs & videos & videos' & -> & Hvs & Hit & Hmap & Hcase).
  destruct Hcase as [(-> & ->)|(Hno & ->)].
  - rewrite videos_of_set. unfold videos_of at 1 2. rewrite Hvs.
    split; [apply (mapM_length _ _ Hmap)|]. split.
    + intros i v Hv.
      destruct (mapM_nth_error _ _ _ Hmap Hv) as (v' & Hv' & Hnth).
      exists v'. split; [exact Hnth|]. apply process_video_inv. exact Hv'.
    + intros k Hk. apply get_set_other. congruence.
  - split; [reflexivity|]. split; [|reflexivity].
    intros i v Hv. exists v. split; [exact Hv | left; reflexivity].
Qed.

Lemma X14_viz_run_touches_viz_fields_witness :
  List.length (videos_of (store_after stored_data))
  = List.length (videos_of stored_data)
  /\ (forall i v, nth_error (videos_of stored_data) i = Some v ->
        exists v', nth_error (videos_of (store_after stored_data)) i = Some v'
                   /\ viz_added v v')
  /\ match stored_data, store_after stored_data with
     | JDict top, JDict top' =>
         forall k, k <> u "videos" -> get k top' = get k top
     | _, _ => False
     end.
Proof.
  apply (@X14_viz_run_touches_viz_fields stored_data
                                         (store_after stored_data)).
  vm_compute. reflexivity.
Defined.

(** X15. A second run of [generate_viz.py] changes nothing: the store that
    a run saves is the store that a run on it saves. *)
Theorem X15_viz_run_twice_is_once :
  forall (data data' : json),
    main data = Some data' -> main data' = Some data'.
Proof.
  intros data data' H.
  destruct (viz_main_inv _ H)
    as (top & vs & videos & videos' & -> & Hvs & Hit & Hmap & Hcase).
  destruct Hcase as [(-> & ->)|(Hno & ->)]; [|exact H].
  unfold main. rewrite get_set_same. cbn [bind iterate].
  rewrite (@mapM_again _ process_video videos videos'
                       process_video_again Hmap).
  cbn [bind].
  rewrite set_set_same. reflexivity.
Qed.

Lemma X15_viz_run_twice_is_once_witness :
  main (store_after (JDict [(u "videos", JList [JDict empty_viz_video])]))
  = Some (store_after (JDict [(u "videos", JList [JDict empty_viz_video])])).
Proof.
  apply (@X15_viz_run_twice_is_once
           (JDict [(u "videos", JList [JDict empty_viz_video])])).
  vm_compute. reflexivity.
Defined.

(** X16. The synthesis stage does not raise on what the import stage
    stores: on a record that has an [id], a [title] that is a string or no
    title, and as summary what [parse_markdown_summary] returns, the loop
    body of [generate_viz.py] ends normally. *)
Theorem X16_viz_handles_imported_summaries :
  forall (video : dict) (content video_id : str),
    has (u "id") video = true ->
    (get (u "title") video = None
     \/ exists t, get (u "title") video = Some (JStr t)) ->
    get (u "summary") video
    = Some (JDict (ImportSummaries.parse_markdown_summary content video_id)) ->
    exists video', process_video (JDict video) = Some video'.
Proof.
  intros video content video_id Hid Htitle Hsm.
  unfold process_video, get_default at 1. rewrite Hsm.
  set (sm := ImportSummaries.parse_markdown_summary content video_id).
  destruct (truthy_at (u "viz_data") sm); [eauto|].
  destruct (negb (truthy_at (u "ideas") sm)
            && negb (truthy_at (u "insights") sm)); [eauto|].
  destruct (@generate_viz_data_total sm
              (parse_synthesizable content video_id))
    as (viz & tags & Hgen).
  rewrite Hgen. cbn [bind].
  destruct (truthy (JDict viz)); [|eauto].
  rewrite get_set_other by discriminate.
  apply has_get in Hid. destruct Hid as (x & Hx). rewrite Hx. cbn [bind].
  unfold get_default. rewrite get_set_other by discriminate.
  destruct Htitle as [Ht|(t & Ht)]; rewrite Ht; cbn [slice_to bind]; eauto.
Qed.

Lemma X16_viz_handles_imported_summaries_witness :
  exists video',
    process_video
      (JDict [(u "id", JStr (u "abc"));
              (u "summary",
               JDict (ImportSummaries.parse_markdown_summary
                        bare_bullet_in_each_section (u "abc")))])
    = Some video'.
Proof.
  apply (@X16_viz_handles_imported_summaries
           [(u "id", JStr (u "abc"));
            (u "summary",
             JDict (ImportSummaries.parse_markdown_summary
                      bare_bullet_in_each_section (u "abc")))]
           bare_bullet_in_each_section (u "abc")).
  - reflexivity.
  - left. reflexivity.
  - reflexivity.
Defined.

End VizRun.

(* ===================================================================== *)
(** ** import_summaries.py: the run over the directory *)
(* ===================================================================== *)

Section ImportRun.

Import ImportSummaries.

(** The index that the map gives for an id is the one of a record with
    this id. *)
Lemma build_video_map_spec (videos : list json) (i : nat) (acc vm : dict)
      (vid : str) (x : json) :
  build_video_map i videos acc = Some vm ->
  get vid vm = Some x ->
  get vid acc = Some x
  \/ exists j d, x = JInt (Z.of_nat (i + j))
                 /\ nth_error videos j = Some (JDict d)
                 /\ get (u "id") d = Some (JStr vid).
Proof.
  revert i acc; induction videos as [|v videos IH]; intros i acc;
    cbn [build_video_map].
  - intros [= <-] H. left. exact H.
  - destruct v as [| | | | | |d]; try discriminate.
    destruct (get (u "id") d) as [k|] eqn:Hk; [|discriminate]. cbn [bind].
    destruct (hashable k); [|discriminate].
    intros Hb Hg. destruct (IH _ _ Hb Hg) as [Hacc|(j0 & d' & -> & Hn & Hid)].
    + destruct k as [| | | |s| |]; try (left; exact Hacc).
      rewrite get_set in Hacc.
      destruct (PyStr.eqb s vid) eqn:E; [|left; exact Hacc].
      apply eqb_eq in E. subst s. injection Hacc as <-.
      right. exists 0, d. rewrite Nat.add_0_r. repeat split; auto.
    + right. exists (S j0), d'.
      replace (i + S j0) with (S i + j0) by lia. repeat split; auto.
Qed.

Variable items : list item.
Variable videos : list json.
Variable video_map : dict.
Hypothesis Hmap : build_video_map 0 videos [] = Some video_map.

Lemma evolved_start : evolved items videos videos.
Proof.
  split; [reflexivity|]. intros i v Hv. exists v.
  split; [exact Hv | left; reflexivity].
Qed.

Lemma has_content_nonempty (sm : dict) :
  has_content sm -> truthy (JDict sm) = true.
Proof.
  intros [H|H]; destruct sm; try reflexivity; discriminate H.
Qed.

Lemma process_item_evolved (vs vs' : list json) (it : item) :
  In it items -> evolved items videos vs ->
  process_item video_map (Some vs) it = Some vs' ->
  evolved items videos vs'.
Proof.
  intros Hit Hev. unfold process_item. cbn [bind].
  destruct (item_source it) as [[vid|] [content|]] eqn:Hsrc;
    try (intros [= <-]; exact Hev).
  destruct (truthy (JStr vid) && truthy (JStr content));
    [|intros [= <-]; exact Hev].
  destruct (get vid video_map) as [[| | z | | | |]|] eqn:Hz;
    try (intros [= <-]; exact Hev).
  destruct (nth_error vs (Z.to_nat z)) as [[| | | | | |video]|] eqn:Hnth;
    try discriminate.
  destruct (negb (has (u "summary") video)
            || negb (truthy_at (u "summary") video)) eqn:Hguard;
    [|intros [= <-]; exact Hev].
  destruct (truthy_at (u "ideas") (parse_markdown_summary content vid)
            || truthy_at (u "insights")
                         (parse_markdown_summary content vid)) eqn:Hc;
    [|intros [= <-]; exact Hev].
  destruct (py_len _) as [n|] eqn:Hlen; [|discriminate]. cbn [bind].
  destruct (get (u "title") _) as [title|]; [|discriminate]. cbn [bind].
  destruct (slice_to 40 title) as [sliced|]; [|discriminate]. cbn [bind].
  intros [= <-].
  assert (Hfalsy : truthy_at (u "summary") video = false).
  { apply orb_true_iff in Hguard. destruct Hguard as [H|H];
      apply negb_true_iff in H; [|exact H].
    unfold truthy_at. unfold has in H.
    destruct (get (u "summary") video); [discriminate | reflexivity]. }
  assert (Hcontent : has_content (parse_markdown_summary content vid)).
  { apply orb_true_iff in Hc. exact Hc. }
  destruct (build_video_map_spec _ _ _ _ Hmap Hz)
    as [Hacc|(j & d0 & Hj & Hn0 & Hid0)]; [discriminate Hacc|].
  cbn [Nat.add] in Hj. assert (z = Z.of_nat j) by congruence. subst z.
  clear Hj. rewrite Nat2Z.id in *.
  destruct Hev as (Hlen' & Hev).
  destruct (Hev _ _ Hn0) as (v' & Hv' & Hadd).
  rewrite Hnth in Hv'. injection Hv' as <-.
  assert (d0 = video).
  { destruct Hadd as [Heq|(d & vid' & c' & n' & Hd & _ & _ & _ & Hc' & _
                           & d' & Hd' & Hsm' & _)].
    - congruence.
    - exfalso. injection Hd' as <-. unfold truthy_at in Hfalsy.
      rewrite Hsm', (has_content_nonempty Hc') in Hfalsy. discriminate. }
  subst d0.
  split; [rewrite length_list_set; exact Hlen'|].
  intros i v Hv. destruct (Nat.eq_dec i j) as [->|Hne].
  - rewrite Hn0 in Hv. injection Hv as <-.
    eexists. split.
    + apply nth_error_list_set_same. apply nth_error_Some. congruence.
    + right. exists video, vid, content, n.
      split; [reflexivity|]. split; [exact Hid0|]. split; [exact Hfalsy|].
      split.
      { rewrite <- Hsrc. apply in_map. exact Hit. }
      split; [exact Hcontent|]. split; [exact Hlen|].
      eexists. split; [reflexivity|]. split.
      { rewrite get_set_other by discriminate. apply get_set_same. }
      split; [apply get_set_same|].
      intros k H1 H2. rewrite !get_set_other by congruence. reflexivity.
  - rewrite nth_error_list_set by exact Hne. apply Hev. exact Hv.
Qed.

Lemma process_items_evolved (its : list item) (vs vs' : list json) :
  (forall it, In it its -> In it items) -> evolved items videos vs ->
  fold_left (process_item video_map) its (Some vs) = Some vs' ->
  evolved items videos vs'.
Proof.
  revert vs; induction its as [|it its IH]; intros vs Hin Hev;
    cbn [fold_left].
  - intros [= <-]. exact Hev.
  - destruct (process_item video_map (Some vs) it) as [vs1|] eqn:E.
    + apply IH.
      * intros it' Hit'. apply Hin. right. exact Hit'.
      * apply (process_item_evolved it (Hin it (or_introl eq_refl)) Hev E).
    + rewrite process_item_None. discriminate.
Qed.

End ImportRun.

Section ImportResults.

Import ImportSummaries.

Lemma import_main_inv (data data' : json) (items : list item) :
  main data items = Some data' ->
  exists top vs videos video_map videos',
    data = JDict top
    /\ get (u "videos") top = Some vs
    /\ iterate vs = Some videos
    /\ build_video_map 0 videos [] = Some video_map
    /\ fold_left (process_item video_map) items (Some videos) = Some videos'
    /\ ((vs = JList videos
         /\ data' = JDict (set (u "videos") (JList videos') top))
        \/ ((forall l, vs <> JList l) /\ data' = data)).
Proof.
  unfold main. destruct data as [| | | | | |top]; try discriminate.
  destruct (get (u "videos") top) as [vs|] eqn:Hvs; [|discriminate].
  cbn [bind].
  destruct (iterate vs) as [videos|] eqn:Hit; [|discriminate]. cbn [bind].
  destruct (build_video_map 0 videos []) as [vm|] eqn:Hvm; [|discriminate].
  cbn [bind].
  destruct (fold_left (process_item vm) items (Some videos))
    as [videos'|] eqn:Hfold; [|discriminate].
  cbn [bind]. intros H.
  exists top, vs, videos, vm, videos'.
  repeat (split; [assumption || reflexivity|]).
  destruct vs; try (right; split; [discriminate | congruence]).
  left. cbn [iterate] in Hit. split; congruence.
Qed.

(** X17. A run of [import_summaries.py] that saves changes nothing but
    summaries that were missing: the list of videos keeps its length, and
    each video is left as it was or -- when it had no summary or an empty
    one, and an entry of the directory named after its [id] parses to a
    summary with ideas or insights -- gets that summary and, as
    [insights_count], the number of its ideas; every other field of the
    video and every other key of the store keeps its value. *)
Theorem X17_import_run_adds_missing_summaries :
  forall (data data' : json) (items : list item),
    main data items = Some data' ->
    List.length (videos_of data') = List.length (videos_of data)
    /\ (forall i v, nth_error (videos_of data) i = Some v ->
          exists v', nth_error (videos_of data') i = Some v'
                     /\ summary_added items v v')
    /\ match data, data' with
       | JDict top, JDict top' =>
           forall k, k <> u "videos" -> get k top' = get k top
       | _, _ => False
       end.
Proof.
  intros data data' items H.
  destruct (import_main_inv _ _ H)
    as (top & vs & videos & vm & videos' & -> & Hvs & Hit & Hvm & Hfold
        & Hcase).
  destruct Hcase as [(-> & ->)|(Hno & ->)].
  - rewrite videos_of_set. unfold videos_of at 1 2. rewrite Hvs.
    destruct (@process_items_evolved items videos vm Hvm items videos
                videos' (fun it Hin => Hin) (evolved_start items videos)
                Hfold) as (Hlen & Hev).
    split; [exact Hlen|]. split; [exact Hev|].
    intros k Hk. apply get_set_other. congruence.
  - split; [reflexivity|]. split; [|reflexivity].
    intros i v Hv. exists v. split; [exact Hv | left; reflexivity].
Qed.

Lemma X17_import_run_adds_missing_summaries_witness :
  List.length (videos_of (store_after bare_data example_items))
  = List.length (videos_of bare_data)
  /\ (forall i v, nth_error (videos_of bare_data) i = Some v ->
        exists v',
          nth_error (videos_of (store_after bare_data example_items)) i
          = Some v'
          /\ summary_added example_items v v')
  /\ match bare_data, store_after bare_data example_items with
     | JDict top, JDict top' =>
         forall k, k <> u "videos" -> get k top' = get k top
     | _, _ => False
     end.
Proof.
  apply (@X17_import_run_adds_missing_summaries
           bare_data (store_after bare_data example_items) example_items).
  vm_compute. reflexivity.
Defined.

End ImportResults.

Section ImportAgain.

Import ImportSummaries.

Variable video_map : dict.

(** An item is skipped whatever the videos are, or is handled at the index
    of its video. *)
Lemma process_item_cases (it : item) :
  (forall vs, process_item video_map (Some vs) it = Some vs)
  \/ exists idx vid content,
       forall vs, process_item video_map (Some vs) it
                  = import_at idx vid content vs.
Proof.
  unfold process_item. cbn [bind].
  destruct (item_source it) as [[vid|] [content|]];
    try (left; reflexivity).
  destruct (truthy (JStr vid) && truthy (JStr content));
    [|left; reflexivity].
  destruct (get vid video_map) as [[| | z | | | |]|];
    try (left; reflexivity).
  right. exists (Z.to_nat z), vid, content. reflexivity.
Qed.

(** What handling an item at an index does: nothing, or it replaces a
    record by one with a summary. *)
Lemma import_at_inv (idx : nat) (vid content : str) (vs vs1 : list json) :
  import_at idx vid content vs = Some vs1 ->
  exists video,
    nth_error vs idx = Some (JDict video)
    /\ (vs1 = vs
        \/ (truthy_at (u "summary") video = false
            /\ exists video',
                 vs1 = list_set idx (JDict video') vs
                 /\ truthy_at (u "summary") video' = true)).
Proof.
  unfold import_at.
  destruct (nth_error vs idx) as [[| | | | | |video]|] eqn:Hnth;
    try discriminate.
  intros H. exists video. split; [reflexivity|].
  destruct (negb (has (u "summary") video)
            || negb (truthy_at (u "summary") video)) eqn:Hguard;
    [|left; congruence].
  destruct (truthy_at (u "ideas") (parse_markdown_summary content vid)
            || truthy_at (u "insights")
                         (parse_markdown_summary content vid)) eqn:Hc;
    [|left; congruence].
  cbv zeta in H.
  destruct (py_len _) as [n|]; [|discriminate]. cbn [bind] in H.
  destruct (get (u "title") _) as [title|]; [|discriminate].
  cbn [bind] in H.
  destruct (slice_to 40 title) as [sliced|]; [|discriminate].
  cbn [bind] in H. injection H as <-.
  right. split.
  - apply orb_true_iff in Hguard. destruct Hguard as [H|H];
      apply negb_true_iff in H; [|exact H].
    unfold truthy_at. unfold has in H.
    destruct (get (u "summary") video); [discriminate | reflexivity].
  - eexists. split; [reflexivity|].
    unfold truthy_at. rewrite get_set_other by discriminate.
    rewrite get_set_same. apply has_content_nonempty.
    apply orb_true_iff in Hc. exact Hc.
Qed.

(** A record with a summary is left alone. *)
Lemma import_at_skips (idx : nat) (vid content : str) (vs : list json)
      (video : dict) :
  nth_error vs idx = Some (JDict video) ->
  truthy_at (u "summary") video = true ->
  import_at idx vid content vs = Some vs.
Proof.
  intros Hnth Ht. unfold import_at. rewrite Hnth, Ht.
  rewrite (truthy_at_has _ _ Ht). reflexivity.
Qed.

Lemma list_set_fixed {A : Type} (idx : nat) (x y : A) (l : list A) :
  nth_error l idx = Some y -> ImportSummaries.list_set idx x l = l -> x = y.
Proof.
  revert idx; induction l as [|z l IH]; intros [|idx]; cbn; try discriminate.
  - intros [= ->] [= ->]. reflexivity.
  - intros Hn [= Hl]. apply (IH idx Hn Hl).
Qed.

(** An item that changes nothing still changes nothing after another item
    was handled. *)
Lemma import_at_stable (idx idx0 : nat) (vid0 content0 : str)
      (vs : list json) (video video' : dict) :
  nth_error vs idx = Some (JDict video) ->
  truthy_at (u "summary") video' = true ->
  import_at idx0 vid0 content0 vs = Some vs ->
  import_at idx0 vid0 content0 (list_set idx (JDict video') vs)
  = Some (list_set idx (JDict video') vs).
Proof.
  intros Hnth Ht H0.
  assert (Hlt : idx < List.length vs)
    by (apply nth_error_Some; congruence).
  destruct (Nat.eq_dec idx0 idx) as [->|Hne].
  - apply import_at_skips with (video := video'); [|exact Ht].
    apply nth_error_list_set_same. exact Hlt.
  - destruct (import_at_inv _ _ _ _ H0) as (video0 & Hn0 & Hcase).
    unfold import_at in *.
    rewrite nth_error_list_set by exact Hne. rewrite Hn0 in *.
    destruct (negb (has (u "summary") video0)
              || negb (truthy_at (u "summary") video0)) eqn:Hguard;
      [|reflexivity].
    destruct (truthy_at (u "ideas") (parse_markdown_summary content0 vid0)
              || truthy_at (u "insights")
                           (parse_markdown_summary content0 vid0)) eqn:Hc;
      [|reflexivity].
    exfalso. cbv zeta in H0.
    destruct (py_len _) as [n|]; [|discriminate]. cbn [bind] in H0.
    destruct (get (u "title") _) as [title|]; [|discriminate].
    cbn [bind] in H0.
    destruct (slice_to 40 title) as [sliced|]; [|discriminate].
    cbn [bind] in H0. injection H0 as H0.
    apply (list_set_fixed _ _ Hn0) in H0. injection H0 as H0.
    assert (Hs : truthy_at (u "summary") video0 = true).
    { rewrite <- H0. unfold truthy_at.
      rewrite get_set_other by discriminate. rewrite get_set_same.
      apply has_content_nonempty. apply orb_true_iff in Hc. exact Hc. }
    rewrite Hs, (truthy_at_has _ _ Hs) in Hguard. discriminate.
Qed.

Lemma process_item_stable (it it0 : item) (vs vs1 : list json) :
  process_item video_map (Some vs) it = Some vs1 ->
  (it0 = it \/ process_item video_map (Some vs) it0 = Some vs) ->
  process_item video_map (Some vs1) it0 = Some vs1.
Proof.
  intros H H0.
  destruct (process_item_cases it) as [Hskip|(idx & vid & content & Hat)].
  { rewrite Hskip in H. injection H as <-.
    destruct H0 as [->|H0]; [apply Hskip | exact H0]. }
  rewrite Hat in H.
  destruct (import_at_inv _ _ _ _ H) as (video & Hnth & [->|Hchg]).
  { destruct H0 as [->|H0]; [rewrite Hat; exact H | exact H0]. }
  destruct Hchg as (_ & video' & -> & Ht).
  assert (Hlt : idx < List.length vs)
    by (apply nth_error_Some; congruence).
  destruct H0 as [->|H0].
  - rewrite Hat. apply import_at_skips with (video := video'); [|exact Ht].
    apply nth_error_list_set_same. exact Hlt.
  - destruct (process_item_cases it0)
      as [Hskip0|(idx0 & vid0 & content0 & Hat0)]; [apply Hskip0|].
    rewrite Hat0 in *.
    apply import_at_stable with (video := video); assumption.
Qed.

(** After the loop every item it went through changes nothing. *)
Lemma process_items_settled (its done : list item) (vs vsF : list json) :
  (forall it0, In it0 done -> process_item video_map (Some vs) it0 = Some vs) ->
  fold_left (process_item video_map) its (Some vs) = Some vsF ->
  forall it0, In it0 (done ++ its) ->
              process_item video_map (Some vsF) it0 = Some vsF.
Proof.
  revert done vs; induction its as [|it its IH]; intros done vs Hdone;
    cbn [fold_left].
  - intros [= <-] it0 Hin. rewrite app_nil_r in Hin. apply Hdone. exact Hin.
  - destruct (process_item video_map (Some vs) it) as [vs1|] eqn:E;
      [|rewrite process_item_None; discriminate].
    intros Hfold it0 Hin.
    apply (IH (done ++ [it]) vs1); [|exact Hfold|].
    + intros it1 Hin1. apply (@process_item_stable it it1 vs vs1 E).
      apply in_app_or in Hin1. destruct Hin1 as [Hin1|[<-|[]]].
      * right. apply Hdone. exact Hin1.
      * left. reflexivity.
    + rewrite <- app_assoc. exact Hin.
Qed.

Lemma process_items_nothing (its : list item) (vs : list json) :
  (forall it, In it its -> process_item video_map (Some vs) it = Some vs) ->
  fold_left (process_item video_map) its (Some vs) = Some vs.
Proof.
  induction its as [|it its IH]; cbn [fold_left]; intros H; [reflexivity|].
  rewrite (H it (or_introl eq_refl)). apply IH.
  intros it' Hin. apply H. right. exact Hin.
Qed.

End ImportAgain.

Section ImportIdempotent.

Import ImportSummaries.

Lemma summary_added_same_id (items : list item) (v v' : json) :
  summary_added items v v' -> same_id v v'.
Proof.
  intros [->|(d & vid & content & n & -> & _ & _ & _ & _ & _
              & d' & -> & _ & _ & Hk)].
  - left. reflexivity.
  - right. exists d, d'. repeat split. apply Hk; discriminate.
Qed.

(** The map from ids to indices depends on the ids alone. *)
Lemma build_video_map_same_ids (vs vs' : list json) :
  Forall2 same_id vs vs' ->
  forall i acc, build_video_map i vs' acc = build_video_map i vs acc.
Proof.
  induction 1 as [|v v' vs vs' Hv _ IH]; intros i acc; [reflexivity|].
  cbn [build_video_map].
  destruct Hv as [->|(d & d' & -> & -> & Hid)].
  - destruct v; try reflexivity.
    destruct (get (u "id") d) as [k|]; [|reflexivity]. cbn [bind].
    destruct (hashable k); [|reflexivity]. apply IH.
  - rewrite Hid. destruct (get (u "id") d) as [k|]; [|reflexivity].
    cbn [bind]. destruct (hashable k); [|reflexivity]. apply IH.
Qed.

Lemma pointwise_Forall2 {A : Type} (R : A -> A -> Prop) (l l' : list A) :
  List.length l' = List.length l ->
  (forall i v, nth_error l i = Some v ->
     exists v', nth_error l' i = Some v' /\ R v v') ->
  Forall2 R l l'.
Proof.
  revert l'; induction l as [|x l IH]; intros [|y l'] Hlen H;
    try discriminate Hlen; constructor.
  - destruct (H 0 x eq_refl) as (v' & [= <-] & HR). exact HR.
  - apply IH; [cbn in Hlen; lia|].
    intros i v Hv. apply (H (S i) v Hv).
Qed.

(** X18. A second run of [import_summaries.py] over the same directory
    changes nothing: the store that a run saves is the store that a run on
    it saves. *)
Theorem X18_import_run_twice_is_once :
  forall (data data' : json) (items : list item),
    main data items = Some data' -> main data' items = Some data'.
Proof.
  intros data data' items H.
  destruct (import_main_inv _ _ H)
    as (top & vs & videos & vm & videos' & -> & Hvs & Hit & Hvm & Hfold
        & Hcase).
  destruct Hcase as [(-> & ->)|(Hno & ->)]; [|exact H].
  destruct (@process_items_evolved items videos vm Hvm items videos
              videos' (fun it Hin => Hin) (evolved_start items videos)
              Hfold) as (Hlen & Hev).
  assert (Hids : Forall2 same_id videos videos').
  { apply pointwise_Forall2; [exact Hlen|].
    intros i v Hv. destruct (Hev i v Hv) as (v' & Hv' & Hadd).
    exists v'. split; [exact Hv'|].
    apply (summary_added_same_id Hadd). }
  unfold main. rewrite get_set_same. cbn [bind iterate].
  rewrite (build_video_map_same_ids Hids), Hvm. cbn [bind].
  rewrite (@process_items_nothing vm items videos').
  - cbn [bind]. rewrite set_set_same. reflexivity.
  - apply (@process_items_settled vm items [] videos videos');
      [intros it0 [] | exact Hfold].
Qed.

Lemma X18_import_run_twice_is_once_witness :
  main (store_after bare_data example_items) example_items
  = Some (store_after bare_data example_items).
Proof.
  apply (@X18_import_run_twice_is_once bare_data).
  vm_compute. reflexivity.
Defined.

End ImportIdempotent.

(* ===================================================================== *)
(** ** Across the scripts *)
(* ===================================================================== *)

Section VizBlocked.

Import GenerateViz.

Lemma scan_text_raised (texts : list json) :
  fold_left scan_text texts None = None.
Proof. induction texts as [|t texts IH]; cbn [fold_left]; auto. Qed.

(** One text that is not a string ends the scan with an exception. *)
Lemma scan_text_not_str (texts : list json) (t : json)
      (st : option scan_state) :
  In t texts -> (forall s, t <> JStr s) ->
  fold_left scan_text texts st = None.
Proof.
  intros Hin Ht. revert st.
  induction texts as [|t' texts IH]; intros st; [destruct Hin|].
  cbn [fold_left]. destruct Hin as [->|Hin]; [|apply IH; exact Hin].
  replace (scan_text st t) with (@None scan_state);
    [apply scan_text_raised|].
  unfold scan_text.
  destruct st as [st|]; cbn [bind]; [|reflexivity].
  destruct t; try reflexivity. destruct (Ht s eq_refl).
Qed.

Lemma extract_stats_no_text (sm : dict) (ideas : list json) (x : json) :
  get (u "ideas") sm = Some (JList ideas) ->
  In x ideas -> no_text x ->
  extract_stats sm = None.
Proof.
  intros Hideas Hin Hx. unfold extract_stats, all_text, idea_texts.
  unfold get_default at 1. rewrite Hideas. cbn [iterate bind].
  destruct (mapM idea_text ideas) as [texts|] eqn:Hmap; [|reflexivity].
  cbn [bind].
  destruct (get_default (u "facts") (JList []) sm); try reflexivity.
  cbn [bind].
  destruct (@mapM_In_fwd _ _ idea_text ideas texts x Hmap Hin)
    as (t & Ht & Hxt).
  rewrite (@scan_text_not_str (l ++ texts) t); [reflexivity| |].
  - apply in_or_app. right. exact Ht.
  - intros s ->. apply (Hx s). exact Hxt.
Qed.

Lemma mapM_raises {A B : Type} (f : A -> option B) (l : list A) (i : nat)
      (a : A) :
  nth_error l i = Some a -> f a = None -> mapM f l = None.
Proof.
  revert i; induction l as [|x l IH]; intros [|i]; cbn [nth_error mapM];
    try discriminate.
  - intros [= ->] ->. reflexivity.
  - intros Hn Ha. rewrite (IH i Hn Ha).
    destruct (f x); reflexivity.
Qed.

(** X19. One record is enough to stop the synthesis stage: when the
    summary of some video has no visualisation data yet and its ideas hold
    an item whose text is not a string (a number, say, which
    [validate_summary] accepts, since it only asks [ideas] to be a list),
    [generate_viz.py] raises before it saves anything, for every video of
    the store. *)
Theorem X19_viz_run_stopped_by_idea_without_text :
  forall (top : dict) (videos : list json) (i : nat) (video sm : dict)
         (ideas : list json) (x : json),
    get (u "videos") top = Some (JList videos) ->
    nth_error videos i = Some (JDict video) ->
    get (u "summary") video = Some (JDict sm) ->
    truthy_at (u "viz_data") sm = false ->
    get (u "ideas") sm = Some (JList ideas) ->
    In x ideas -> no_text x ->
    main (JDict top) = None.
Proof.
  intros top videos i video sm ideas x Hvs Hnth Hsm Hviz Hideas Hin Hx.
  unfold main. rewrite Hvs. cbn [bind iterate].
  rewrite (@mapM_raises _ _ process_video videos i (JDict video) Hnth);
    [reflexivity|].
  unfold process_video, get_default at 1. rewrite Hsm, Hviz.
  assert (Ht : truthy_at (u "ideas") sm = true).
  { unfold truthy_at. rewrite Hideas. destruct ideas; [destruct Hin|].
    reflexivity. }
  rewrite Ht. cbn [negb andb].
  unfold generate_viz_data.
  destruct (generate_mindmap sm); [|reflexivity]. cbn [bind].
  rewrite (extract_stats_no_text sm Hideas Hin Hx). reflexivity.
Qed.

Lemma X19_viz_run_stopped_by_idea_without_text_witness :
  fst (RecordVideo.validate_summary (JDict number_idea_summary) (u "abc"))
  = inr (set (u "videoId") (JStr (u "abc")) number_idea_summary)
  /\ main (JDict [(u "videos",
                   JList [JDict stored_video;
                          JDict [(u "id", JStr (u "abc"));
                                 (u "summary", JDict number_idea_summary)]])])
     = None.
Proof.
  split; [reflexivity|].
  apply (@X19_viz_run_stopped_by_idea_without_text
           [(u "videos",
             JList [JDict stored_video;
                    JDict [(u "id", JStr (u "abc"));
                           (u "summary", JDict number_idea_summary)]])]
           [JDict stored_video;
            JDict [(u "id", JStr (u "abc"));
                   (u "summary", JDict number_idea_summary)]]
           1
           [(u "id", JStr (u "abc")); (u "summary", JDict number_idea_summary)]
           number_idea_summary [JInt 1] (JInt 1)).
  - reflexivity.
  - reflexivity.
  - reflexivity.
  - reflexivity.
  - reflexivity.
  - left. reflexivity.
  - intros s. discriminate.
Defined.

End VizBlocked.

Section ValidateAgain.

Import RecordVideo.

Lemma flatten_nested_flat (d : dict) (vid : str) :
  flat d -> flatten_nested d vid = (d, []).
Proof.
  intros H. unfold flatten_nested.
  unfold flat in H.
  destruct (get (u "summary") d) as [[| | | | | |inner]|];
    try reflexivity.
  rewrite (H inner eq_refl). reflexivity.
Qed.

Lemma well_shaped_set_videoId (d : dict) (v : json) :
  well_shaped d -> well_shaped (set (u "videoId") v d).
Proof.
  intros ((s & Ht & Hs) & (l1 & Hi) & (l2 & Hn)).
  split; [|split].
  - exists s. rewrite get_set_other by discriminate. split; assumption.
  - exists l1. rewrite get_set_other by discriminate. exact Hi.
  - exists l2. rewrite get_set_other by discriminate. exact Hn.
Qed.

(** X20. Validating again what [validate_summary] returned gives it back
    unchanged and without a warning, provided the result holds no nested
    summary that a further repair would flatten. *)
Theorem X20_validate_summary_again :
  forall (candidate : json) (video_id : str) (r : dict),
    fst (validate_summary candidate video_id) = inr r ->
    flat r ->
    validate_summary (JDict r) video_id = (inr r, []).
Proof.
  intros candidate vid r H Hflat.
  destruct candidate as [| | | | | |d]; try discriminate.
  rewrite validate_summary_dict in H.
  destruct (check_summary_cases (repaired d vid) vid)
    as [(_ & E)|[(_ & _ & E)|[(_ & _ & _ & E)|
       [(_ & _ & _ & _ & E)|(Hw & E)]]]]; rewrite E in H; try discriminate.
  injection H as <-.
  unfold validate_summary. rewrite (flatten_nested_flat vid Hflat).
  destruct (check_summary_cases
              (set (u "videoId") (JStr vid) (repaired d vid)) vid)
    as [(Hm & _)|[(_ & Hb & _)|[(_ & _ & Hb & _)|
       [(_ & _ & _ & Hb & _)|(_ & E')]]]].
  - exfalso. apply Hm. apply nothing_missing.
    apply well_shaped_set_videoId. exact Hw.
  - exfalso. apply Hb. apply (well_shaped_set_videoId _ Hw).
  - exfalso. apply Hb. apply (well_shaped_set_videoId _ Hw).
  - exfalso. apply Hb. apply (well_shaped_set_videoId _ Hw).
  - rewrite E', set_set_same. reflexivity.
Qed.

Lemma X20_validate_summary_again_witness :
  validate_summary
    (JDict (set (u "videoId") (JStr (u "abc")) example_summary)) (u "abc")
  = (inr (set (u "videoId") (JStr (u "abc")) example_summary), []).
Proof.
  apply (@X20_validate_summary_again (JDict example_summary) (u "abc")).
  - reflexivity.
  - intros inner H. discriminate H.
Defined.

End ValidateAgain.

(* ===================================================================== *)
(** ** The normalizer: headings and stored texts *)
(* ===================================================================== *)

Section NoHeading.

Import ImportSummaries.

(** A pattern that starts with a literal finds nothing in a text without
    this character. *)
Lemma search_from_lit_absent (c : N) (r : regex) (p : nat) (s : str) :
  ~ In c s -> search_from (Seq (lit c) r) p s = None.
Proof.
  revert p; induction s as [|x s IH]; intros p Hc; cbn [search_from m].
  - reflexivity.
  - rewrite m_lit_other by (intros ->; apply Hc; left; reflexivity).
    cbn [flat_map]. apply IH. intros H. apply Hc. right. exact H.
Qed.

Lemma section_items_no_heading (emoji name : str)
      (of_line : str -> list json) (content : str) :
  ~ In 35%N content ->
  section_items (re_section emoji name) of_line content = None.
Proof.
  intros H. unfold section_items, search, re_section. cbn [seq_of].
  rewrite search_from_lit_absent by exact H. reflexivity.
Qed.

(** X21. A document without the character [#] has no section: the
    normalizer returns the [videoId] and at most a [tldr] (which a quoted
    SUMMARY block gives without a heading), and no [ideas], [insights],
    [quotes], [facts] or [takeaway]. *)
Theorem X21_no_heading_no_section :
  forall (content video_id : str),
    ~ In 35%N content ->
    get (u "videoId") (parse_markdown_summary content video_id)
    = Some (JStr video_id)
    /\ forall k, k <> u "videoId" -> k <> u "tldr" ->
                 get k (parse_markdown_summary content video_id) = None.
Proof.
  intros content vid H.
  assert (E : parse_markdown_summary content vid
              = put_tldr content [(u "videoId", JStr vid)]).
  { unfold parse_markdown_summary, re_ideas, re_insights, re_quotes,
      re_facts.
    rewrite !section_items_no_heading by exact H. cbn [put_section].
    unfold put_takeaway, search, re_takeaway. cbn [seq_of].
    rewrite search_from_lit_absent by exact H. reflexivity. }
  rewrite E. unfold put_tldr.
  assert (Hbase : forall k, k <> u "videoId" ->
            get k [(u "videoId", JStr vid)] = None).
  { intros k Hk. cbn [get].
    replace (PyStr.eqb (u "videoId") k) with false; [reflexivity|].
    symmetry. apply eqb_neq. congruence. }
  destruct (search re_tldr content) as [x|].
  - split; [rewrite get_set_other by discriminate; reflexivity|].
    intros k H1 H2. rewrite get_set_other by congruence.
    apply Hbase. exact H1.
  - split; [reflexivity|]. intros k H1 _. apply Hbase. exact H1.
Qed.

Lemma X21_no_heading_no_section_witness :
  get (u "videoId") (parse_markdown_summary (u "IDEAS" ++ [10%N] ++ u "- a")
                                            (u "abc"))
  = Some (JStr (u "abc"))
  /\ forall k, k <> u "videoId" -> k <> u "tldr" ->
               get k (parse_markdown_summary (u "IDEAS" ++ [10%N] ++ u "- a")
                                             (u "abc")) = None.
Proof.
  apply (@X21_no_heading_no_section (u "IDEAS" ++ [10%N] ++ u "- a")
                                    (u "abc")).
  vm_compute. intuition discriminate.
Defined.

End NoHeading.

Section Trimmed.

Import ImportSummaries.

Lemma ends_nonblank_snoc (l : str) (x : N) :
  ends_nonblank (l ++ [x]) <-> is_space x = false.
Proof.
  induction l as [|y l IH]; [reflexivity|].
  cbn [app]. destruct (l ++ [x]) as [|z t] eqn:E.
  - destruct l; discriminate.
  - exact IH.
Qed.

Lemma stops_rev_ends (r : str) :
  stops is_space r -> ends_nonblank (rev r).
Proof.
  destruct r as [|x r]; [intros _; exact I|].
  cbn [stops rev]. apply ends_nonblank_snoc.
Qed.

Lemma dropwhile_keeps_last (p : N -> bool) (l : str) (x : N) :
  p x = false -> exists l', dropwhile p (l ++ [x]) = l' ++ [x].
Proof.
  intros Hx. induction l as [|y l IH]; cbn [app dropwhile].
  - rewrite Hx. exists []. reflexivity.
  - destruct (p y); [exact IH|]. exists (y :: l). reflexivity.
Qed.

Lemma stops_dropwhile (p : N -> bool) (s : str) :
  stops p s -> dropwhile p s = s.
Proof.
  destruct s as [|x s]; [reflexivity|]. cbn [stops dropwhile].
  intros ->. reflexivity.
Qed.

Lemma rstrip_stops (s : str) :
  stops is_space s -> stops is_space (rstrip_by is_space s).
Proof.
  unfold rstrip_by. destruct s as [|x s]; [intros _; exact I|].
  cbn [stops rev]. intros Hx.
  destruct (dropwhile_keeps_last is_space (rev s) x Hx) as (l' & ->).
  rewrite rev_app_distr. exact Hx.
Qed.

Lemma rstrip_ends (s : str) : ends_nonblank (rstrip_by is_space s).
Proof. apply stops_rev_ends, dropwhile_stops. Qed.

Lemma rstrip_fixed (s : str) :
  ends_nonblank s -> rstrip_by is_space s = s.
Proof.
  unfold rstrip_by. intros H.
  assert (Es : s = rev (rev s)) by (symmetry; apply rev_involutive).
  destruct (rev s) as [|x r]; [exact (eq_sym Es)|].
  cbn [rev] in Es. rewrite Es in H. apply ends_nonblank_snoc in H.
  cbn [dropwhile]. rewrite H. cbn [rev]. exact (eq_sym Es).
Qed.

(** A text is trimmed when it neither starts nor ends with a blank. *)
Lemma trimmed_of_ends (s : str) :
  stops is_space s -> ends_nonblank s -> trimmed s.
Proof.
  intros H1 H2. unfold trimmed, strip, strip_by, lstrip_by.
  rewrite stops_dropwhile by exact H1. apply rstrip_fixed. exact H2.
Qed.

Lemma strip_ends (s : str) :
  stops is_space (strip s) /\ ends_nonblank (strip s).
Proof.
  unfold strip, strip_by, lstrip_by. split.
  - apply rstrip_stops, dropwhile_stops.
  - apply rstrip_ends.
Qed.

Lemma strip_trimmed (s : str) : trimmed (strip s).
Proof. apply trimmed_of_ends; apply strip_ends. Qed.

Lemma ends_nonblank_dropwhile (s : str) :
  ends_nonblank s -> ends_nonblank (dropwhile is_space s).
Proof.
  induction s as [|x s IH]; [auto|]. cbn [dropwhile].
  destruct (is_space x); [|auto].
  destruct s as [|y s]; [intros _; exact I|].
  intros H. apply IH. exact H.
Qed.

Lemma is_bullet_inv (s : str) :
  is_bullet s = true ->
  exists marker body, s = marker :: body /\ In marker [45%N; 42%N; 8226%N].
Proof.
  unfold is_bullet, startswith_any.
  change (u "-") with [45%N]. change (u "*") with [42%N].
  change (u "•") with [8226%N].
  destruct s as [|x s]; [discriminate|].
  cbn [existsb startswith]. rewrite !andb_true_r, orb_false_r.
  intros H. exists x, s. split; [reflexivity|].
  apply orb_true_iff in H. destruct H as [H|H].
  - apply N.eqb_eq in H. left. exact H.
  - apply orb_true_iff in H. destruct H as [H|H]; apply N.eqb_eq in H.
    + right. left. exact H.
    + right. right. left. exact H.
Qed.

Lemma int_of_digits_nonneg (s : str) : (0 <= int_of_digits s)%Z.
Proof. unfold int_of_digits. apply N2Z.is_nonneg. Qed.

Lemma idea_of_line_clean (line : str) :
  Forall clean_idea (idea_of_line line).
Proof.
  destruct (is_bullet (strip line)) eqn:Hb.
  2: { unfold idea_of_line. rewrite Hb. constructor. }
  destruct (is_bullet_inv _ Hb) as (marker & body & Hs & Hm).
  rewrite (idea_of_bullet_line line Hm Hs).
  unfold idea_of_text.
  destruct (search re_ts (dropwhile is_space body)) as [x|].
  - constructor; [|constructor]. eexists _, _.
    split; [reflexivity|]. split; [apply strip_trimmed|].
    right. eexists. split; [reflexivity|].
    pose proof (int_of_digits_nonneg (group 1 x)).
    pose proof (int_of_digits_nonneg (group 2 x)). lia.
  - constructor; [|constructor]. eexists _, _.
    split; [reflexivity|]. split; [|left; reflexivity].
    apply trimmed_of_ends; [apply dropwhile_stops|].
    destruct (strip_ends line) as (_ & He). rewrite Hs in He.
    destruct body as [|y body]; [exact I|].
    apply ends_nonblank_dropwhile. exact He.
Qed.

Lemma kept_if_clean (t : str) :
  Forall clean_str (if truthy (JStr (strip t)) then [JStr (strip t)] else []).
Proof.
  destruct (strip t) as [|c s] eqn:E; cbn; constructor; [|constructor].
  exists (c :: s). split; [reflexivity|]. split; [discriminate|].
  rewrite <- E. apply strip_trimmed.
Qed.

Lemma insight_of_line_clean (line : str) :
  Forall clean_str (insight_of_line line).
Proof.
  unfold insight_of_line. destruct (is_bullet (strip line)); [|constructor].
  apply kept_if_clean.
Qed.

Lemma fact_of_line_clean (line : str) :
  Forall clean_str (fact_of_line line).
Proof.
  unfold fact_of_line. destruct (is_bullet (strip line)); [|constructor].
  apply kept_if_clean.
Qed.

(** X22. What the normalizer stores is clean: the text of every idea has no
    blank at its ends and its timestamp is absent or a number of seconds
    that is not negative; every insight and every fact is a string that is
    not empty and has no blank at its ends. *)
Theorem X22_stored_texts_are_trimmed :
  forall (content video_id : str),
    (forall l, get (u "ideas") (parse_markdown_summary content video_id)
               = Some (JList l) -> Forall clean_idea l)
    /\ (forall l, get (u "insights") (parse_markdown_summary content video_id)
                  = Some (JList l) -> Forall clean_str l)
    /\ (forall l, get (u "facts") (parse_markdown_summary content video_id)
                  = Some (JList l) -> Forall clean_str l).
Proof.
  intros content vid. split; [|split]; intros l Hget.
  - rewrite parse_ideas in Hget.
    apply (@capped_Forall clean_idea re_ideas idea_of_line 15 content l
             idea_of_line_clean Hget).
  - rewrite parse_insights in Hget.
    apply (@capped_Forall clean_str re_insights insight_of_line 10 content l
             insight_of_line_clean Hget).
  - rewrite parse_facts in Hget.
    apply (@capped_Forall clean_str re_facts fact_of_line 8 content l
             fact_of_line_clean Hget).
Qed.

End Trimmed.

Section FileNames.

Import ImportSummaries.

Lemma split_hd_no_sep (sep : N) (s : str) : ~ In sep (hd [] (split sep s)).
Proof.
  induction s as [|c s IH]; cbn [split hd]; [intros []|].
  destruct (N.eqb_spec c sep) as [->|Hne]; [intros []|].
  destruct (split sep s) as [|l ls]; cbn [hd] in *.
  - intros [H|[]]. congruence.
  - intros [H|H]; [congruence | exact (IH H)].
Qed.

(** The video that a summary file is attributed to has no underscore in
    its id. *)
Lemma file_source_no_underscore (items : list item) (vid content : str) :
  files_only items ->
  In (Some vid, Some content) (map item_source items) ->
  ~ In 95%N vid.
Proof.
  intros Hfiles Hin. apply in_map_iff in Hin.
  destruct Hin as ([stem text|name txt|] & Hsrc & Hit); cbn in Hsrc.
  - injection Hsrc as <- _. apply split_hd_no_sep.
  - destruct (Hfiles name txt Hit).
  - discriminate.
Qed.

(** X23. A summary file [stem.md] is attributed to the part of its stem
    before the first underscore.  So when the directory holds files only, a
    video whose id has an underscore is never given a summary: a run of
    [import_summaries.py] leaves its record as it is. *)
Theorem X23_underscore_id_gets_no_summary_from_files :
  forall (data data' : json) (items : list item) (i : nat) (video : dict)
         (vid : str),
    main data items = Some data' ->
    files_only items ->
    nth_error (videos_of data) i = Some (JDict video) ->
    get (u "id") video = Some (JStr vid) ->
    In 95%N vid ->
    nth_error (videos_of data') i = Some (JDict video).
Proof.
  intros data data' items i video vid H Hfiles Hnth Hid Hus.
  destruct (import_main_inv _ _ H)
    as (top & vs & videos & vm & videos' & -> & Hvs & Hit & Hvm & Hfold
        & Hcase).
  destruct Hcase as [(-> & ->)|(Hno & ->)]; [|exact Hnth].
  rewrite videos_of_set. unfold videos_of in Hnth. rewrite Hvs in Hnth.
  destruct (@process_items_evolved items videos vm Hvm items videos
              videos' (fun it Hin => Hin) (evolved_start items videos)
              Hfold) as (_ & Hev).
  destruct (Hev i _ Hnth) as (v' & Hv' & [->|Hadd]); [exact Hv'|].
  exfalso.
  destruct Hadd as (d & vid' & content & n & Hd & Hid' & _ & Hsrc & _).
  assert (d = video) by congruence. subst d.
  assert (vid' = vid) by congruence. subst vid'.
  apply (file_source_no_underscore _ _ Hfiles Hsrc). exact Hus.
Qed.

Lemma X23_underscore_id_gets_no_summary_from_files_witness :
  nth_error (videos_of (store_after underscore_data underscore_items)) 0
  = Some (JDict [(u "id", JStr (u "a_bcdefghij")); (u "title", JStr (u "T"))]).
Proof.
  apply (@X23_underscore_id_gets_no_summary_from_files
           underscore_data (store_after underscore_data underscore_items)
           underscore_items 0
           [(u "id", JStr (u "a_bcdefghij")); (u "title", JStr (u "T"))]
           (u "a_bcdefghij")).
  - vm_compute. reflexivity.
  - intros name txt [H|[]]. discriminate H.
  - reflexivity.
  - reflexivity.
  - vm_compute. tauto.
Defined.

End FileNames.

(* ===================================================================== *)
(** ** generate_viz.py: what gives statistics and a mindmap *)
(* ===================================================================== *)

Section NoDigit.

Import GenerateViz.

Lemma no_digit_stops (s : str) : no_digit s -> stops is_digit s.
Proof. intros H. destruct H; [exact I | assumption]. Qed.

Lemma m_plus_digit_none (p : nat) (s : str) (cs : list (nat * str)) :
  no_digit s -> m (Plus true digit) (Cfg p s cs) = [].
Proof.
  intros H. unfold Plus. apply m_seq_nil. unfold digit.
  apply m_chr_stops. apply no_digit_stops. exact H.
Qed.

Lemma m_number_none (p : nat) (s : str) (cs : list (nat * str))
      (r : regex) :
  no_digit s -> m (Grp 1 (Seq (Plus true digit) r)) (Cfg p s cs) = [].
Proof.
  intros H. cbn [m]. rewrite m_plus_digit_none by exact H. reflexivity.
Qed.

Lemma m_number_then_none (p : nat) (s : str) (cs : list (nat * str))
      (r r' : regex) :
  no_digit s -> m (Seq (Grp 1 (Seq (Plus true digit) r)) r') (Cfg p s cs) = [].
Proof. intros H. apply m_seq_nil. apply m_number_none. exact H. Qed.

Lemma m_dollar_number_none (p : nat) (s : str) (r : regex) :
  no_digit s ->
  m (Seq (lit 36) (Grp 1 (Seq (Seq (Plus true digit) r)
                              (Opt (cls (u "KMB")))))) (Cfg p s []) = [].
Proof.
  intros H. rewrite m_seq. destruct H as [|x s Hx Hs]; [reflexivity|].
  unfold lit. rewrite m_chr_cons. destruct (36 =? x)%N; [|reflexivity].
  cbn [flat_map]. rewrite app_nil_r.
  change (m (Grp 1 (Seq (Seq (Plus true digit) r) (Opt (cls (u "KMB")))))
            (Cfg (S p) s []))
    with (map (fun c' => set_cap 1 (firstn (pos c' - S p) s) c')
              (flat_map (m (Opt (cls (u "KMB"))))
                 (flat_map (m r) (m (Plus true digit) (Cfg (S p) s []))))).
  rewrite m_plus_digit_none by exact Hs. reflexivity.
Qed.

(** Each of the six patterns asks for a digit. *)
Lemma patterns_need_digit : Forall needs_digit (map fst patterns).
Proof.
  unfold patterns, re_number. cbn [map fst seq_of].
  repeat constructor; intros p s H;
    try (apply m_number_then_none; exact H).
  apply m_dollar_number_none. exact H.
Qed.

Lemma finditer_none (r : regex) (s : str) (p : nat) :
  needs_digit r -> no_digit s -> finditer_from r p s 0 = [].
Proof.
  intros Hr Hs. revert p. induction Hs as [|x s Hx Hs IH]; intros p;
    cbn [finditer_from].
  - rewrite (Hr p [] (Forall_nil _)). reflexivity.
  - rewrite (Hr p (x :: s)) by (constructor; assumption). apply IH.
Qed.

Lemma candidates_of_text_none (text : str) :
  no_digit text -> candidates_of_text text = [].
Proof.
  intros H. unfold candidates_of_text.
  pose proof patterns_need_digit as Hp.
  induction patterns as [|[r suffix] ps IH]; [reflexivity|].
  cbn [map fst] in Hp. inversion Hp as [|? ? Hr Hps]; subst.
  cbn [flat_map fst snd]. unfold findall at 1.
  rewrite finditer_none by assumption. cbn [map app].
  apply IH. exact Hps.
Qed.

(** X24. Without a digit there is no statistic: when no fact and no idea
    text holds a decimal digit, [extract_stats] returns the empty list, the
    visualisation data have no [stats] and the tag "stats" is not
    suggested. *)
Theorem X24_no_digit_no_stats :
  forall (summary : dict) (texts : list str),
    all_text summary = Some (map JStr texts) ->
    Forall no_digit texts ->
    extract_stats summary = Some []
    /\ forall viz tags, generate_viz_data summary = Some (viz, tags) ->
         get (u "stats") viz = None /\ ~ In (u "stats") tags.
Proof.
  intros summary texts Hall Hno.
  assert (Hstats : extract_stats summary = Some []).
  { rewrite (@extract_stats_of_texts summary texts Hall).
    replace (candidates texts) with (@nil stat); [reflexivity|].
    symmetry. unfold candidates. clear Hall.
    induction Hno as [|t texts Ht _ IH]; [reflexivity|].
    cbn [flat_map]. rewrite (candidates_of_text_none Ht). exact IH. }
  split; [exact Hstats|].
  intros viz tags Hgen.
  destruct (@generate_viz_data_inv summary viz tags Hgen)
    as (mm & stats & cmp & _ & Hst & _ & -> & ->).
  assert (stats = []) by congruence. subst stats.
  split.
  - rewrite get_stats_viz. reflexivity.
  - rewrite In_tags. cbn [map truthy List.length Nat.eqb negb].
    intros [(H & _)|(_ & H)]; discriminate H.
Qed.

Lemma X24_no_digit_no_stats_witness :
  extract_stats three_ideas = Some []
  /\ forall viz tags, generate_viz_data three_ideas = Some (viz, tags) ->
       get (u "stats") viz = None /\ ~ In (u "stats") tags.
Proof.
  apply (@X24_no_digit_no_stats three_ideas [u "a"; u "b"; u "c"]).
  - reflexivity.
  - repeat constructor.
Defined.

End NoDigit.

Section MindmapPresent.

Import GenerateViz.

Lemma truthy_list_app (l l' : list json) :
  truthy (JList (l ++ l')) = truthy (JList l) || truthy (JList l').
Proof. destruct l, l'; reflexivity. Qed.

Lemma mindmap_children_of (root x : json) :
  mindmap_children (JDict [(u "root", root); (u "children", x)]) = x.
Proof. reflexivity. Qed.

(** The children of the mindmap are there exactly when a branch is. *)
Lemma mindmap_children_truthy (sm : dict) (texts : list json) (mm : json) :
  idea_texts (get_default (u "ideas") (JList []) sm) = Some texts ->
  generate_mindmap sm = Some mm ->
  (truthy (mindmap_children mm) = true <-> has_branch sm texts).
Proof.
  intros Ht. unfold generate_mindmap, has_branch. rewrite Ht. cbn [bind].
  set (ideas3 := if 3 <=? List.length texts then _ else _).
  assert (Hideas : truthy (JList ideas3) = true <-> 3 <= List.length texts).
  { subst ideas3. destruct (3 <=? List.length texts) eqn:E.
    - apply Nat.leb_le in E. split; [intros _; exact E | reflexivity].
    - apply Nat.leb_gt in E. split; [discriminate | lia]. }
  clearbody ideas3.
  set (insights := get_default (u "insights") (JList []) sm) in *.
  set (takeaway := get_default (u "takeaway") (JStr []) sm) in *.
  destruct (truthy insights) eqn:Hins.
  - destruct (slice_to 3 insights) as [first3|]; [|discriminate].
    cbn [bind].
    destruct (mindmap_root _) as [root|]; [|discriminate]. cbn [bind].
    intros [= <-]. rewrite mindmap_children_of.
    split; [intros _; right; left; reflexivity|]. intros _.
    destruct (truthy takeaway); rewrite ?truthy_list_app;
      cbn [truthy List.length Nat.eqb negb];
      rewrite ?orb_true_r; reflexivity.
  - cbn [bind].
    destruct (mindmap_root _) as [root|]; [|discriminate]. cbn [bind].
    intros [= <-]. rewrite mindmap_children_of.
    destruct (truthy takeaway) eqn:Htk.
    + rewrite truthy_list_app. cbn [truthy List.length Nat.eqb negb].
      rewrite orb_true_r. split; [intros _; right; right|]; reflexivity.
    + rewrite Hideas. split; [intros H; left; exact H|].
      intros [H|[H|H]]; [exact H | discriminate H | discriminate H].
Qed.

(** X25. The visualisation data hold a mindmap exactly when the mindmap
    has a branch: there are three ideas or more, or the insights are not
    empty, or the takeaway is not.  With one or two ideas and nothing else
    there is none, and with no statistic either nothing is stored for the
    video. *)
Theorem X25_mindmap_present_iff_branch :
  forall (sm viz : dict) (tags : list str) (texts : list json),
    idea_texts (get_default (u "ideas") (JList []) sm) = Some texts ->
    generate_viz_data sm = Some (viz, tags) ->
    (has (u "mindmap") viz = true <-> has_branch sm texts)
    /\ (~ has_branch sm texts -> extract_stats sm = Some [] -> viz = []).
Proof.
  intros sm viz tags texts Ht Hgen.
  destruct (@generate_viz_data_inv sm viz tags Hgen)
    as (mm & stats & cmp & Hmm & Hst & _ & _ & ->).
  pose proof (@mindmap_children_truthy sm texts mm Ht Hmm) as Hiff.
  split.
  - unfold has. rewrite get_mindmap_viz.
    destruct (truthy (mindmap_children mm)); rewrite <- Hiff;
      split; congruence.
  - intros Hno Hnone. assert (stats = []) by congruence. subst stats.
    cbn [map truthy List.length Nat.eqb negb]. cbv zeta.
    destruct (truthy (mindmap_children mm)); [|reflexivity].
    destruct Hno. apply Hiff. reflexivity.
Qed.

Lemma X25_mindmap_present_iff_branch_witness :
  (has (u "mindmap") [] = true
   <-> has_branch two_ideas [JStr (u "a"); JStr (u "b")])
  /\ (~ has_branch two_ideas [JStr (u "a"); JStr (u "b")] ->
      extract_stats two_ideas = Some [] -> @nil (str * json) = []).
Proof.
  apply (@X25_mindmap_present_iff_branch two_ideas [] []
           [JStr (u "a"); JStr (u "b")]).
  - reflexivity.
  - vm_compute. reflexivity.
Defined.

End MindmapPresent.

(* ===================================================================== *)
(** ** record_video.py: the ids of the store *)
(* ===================================================================== *)

Section RecordIds.

Import RecordVideo.

Lemma find_existing_fresh (vid : str) (i : nat) (videos ids : list json) :
  find_existing vid i videos = Some None ->
  ImportHistory.existing_ids videos = Some ids ->
  ~ In (JStr vid) ids.
Proof.
  revert i ids; induction videos as [|v videos IH]; intros i ids;
    cbn [find_existing ImportHistory.existing_ids mapM].
  - intros _ [= <-] [].
  - destruct v as [| | | | | |d]; try discriminate.
    destruct (get (u "id") d) as [x|]; [|discriminate]. cbn [bind].
    destruct (eq_str x vid) eqn:E; [discriminate|].
    destruct (ImportSummaries.hashable x); [|discriminate].
    intros Hf. fold (ImportHistory.existing_ids videos).
    destruct (ImportHistory.existing_ids videos) as [ids0|] eqn:Hids;
      [|discriminate].
    cbn [bind]. intros [= <-] [Hx|Hin].
    + subst x. cbn [eq_str] in E. rewrite eqb_refl in E. discriminate.
    + apply (IH (S i) ids0 Hf eq_refl Hin).
Qed.

Lemma existing_ids_app_one (videos ids : list json) (d : dict) (vid : str) :
  ImportHistory.existing_ids videos = Some ids ->
  get (u "id") d = Some (JStr vid) ->
  ImportHistory.existing_ids (videos ++ [JDict d]) = Some (ids ++ [JStr vid]).
Proof.
  intros Hids Hd. unfold ImportHistory.existing_ids in *.
  apply mapM_app; [exact Hids|].
  cbn [mapM]. rewrite Hd. reflexivity.
Qed.

(** Replacing a record by one with the same id changes no id. *)
Lemma existing_ids_list_set (videos ids : list json) (idx : nat)
      (old d : dict) :
  ImportHistory.existing_ids videos = Some ids ->
  nth_error videos idx = Some (JDict old) ->
  get (u "id") d = get (u "id") old ->
  ImportHistory.existing_ids (ImportSummaries.list_set idx (JDict d) videos)
  = Some ids.
Proof.
  unfold ImportHistory.existing_ids.
  revert ids idx; induction videos as [|v videos IH]; intros ids idx;
    [destruct idx; discriminate|].
  destruct idx as [|idx]; cbn [nth_error ImportSummaries.list_set mapM].
  - intros H [= ->] Hd. rewrite Hd. exact H.
  - destruct (match v with JDict d0 => _ | _ => None end) as [k|];
      [|discriminate].
    cbn [bind].
    destruct (mapM _ videos) as [ids0|] eqn:Hm; [|discriminate].
    cbn [bind]. intros [= <-] Hn Hd.
    rewrite (IH ids0 idx eq_refl Hn Hd). reflexivity.
Qed.

(** X26. [record_video.py] keeps the ids of the store distinct: when no
    two records of the store have the same id, no two records have the same
    id after a run that saves. *)
Theorem X26_record_keeps_ids_distinct :
  forall (a : args) (stored : option json) (t1 t2 : Z) (data' : json)
         (ids : list json),
    ImportHistory.existing_ids (videos_of (initial_data stored)) = Some ids ->
    NoDup ids ->
    main a stored t1 t2 = Saved data' ->
    exists ids',
      ImportHistory.existing_ids (videos_of data') = Some ids'
      /\ NoDup ids'.
Proof.
  intros a stored t1 t2 data' ids Hids Hnd H.
  destruct (main_saved _ _ _ _ H)
    as (top & summary & l & l' & idx & Hinit & Hload & Hv & Hu & -> & Hf'
        & Hcase).
  rewrite videos_of_saved.
  rewrite (@videos_of_initial stored top l Hinit Hv) in Hids.
  destruct Hcase as [(old & Hfo & Hno & ->)|(Hfo & -> & ->)].
  - exists ids. split; [|exact Hnd].
    apply (@existing_ids_list_set l ids idx old _ Hids Hno).
    rewrite replacing_entry_field by discriminate. rewrite video_entry_id.
    destruct (find_existing_found _ _ _ Hfo) as (k & d & Hk & Hn & Hd & _).
    cbn [Nat.add] in Hk. subst k. congruence.
  - exists (ids ++ [JStr (video_id a)]). split.
    + apply existing_ids_app_one; [exact Hids | apply video_entry_id].
    + apply NoDup_app; [exact Hnd | constructor; [intros [] | constructor] |].
      intros x Hx [<-|[]].
      apply (@find_existing_fresh (video_id a) 0 l ids Hfo Hids Hx).
Qed.

Lemma X26_record_keeps_ids_distinct_witness :
  exists ids',
    ImportHistory.existing_ids (videos_of example_saved) = Some ids'
    /\ NoDup ids'.
Proof.
  apply (@X26_record_keeps_ids_distinct example_args (Some two_videos) 5 6
                                        example_saved
                                        [JStr (u "xyz"); JStr (u "abc")]).
  - reflexivity.
  - constructor; [intros [H|[]]; discriminate H|].
    constructor; [intros [] | constructor].
  - vm_compute. reflexivity.
Defined.

End RecordIds.
